(** * Invoice normalization pipeline: currency detection, conversion,
      formatting and multi-invoice aggregation

    A shallow embedding of [backend/app/utils/currency.py] and of the flagging
    step of [backend/app/services/invoice_service.py].

    Conventions of the embedding:
    - a Python [str] is the list of its Unicode code points ([str]);
    - a Python [float] is a binary64 number ([PrimFloat.float]); the schema
      ([schemas.py]) types every amount as [float], and [_parse_response]
      coerces amounts with [float(...)], so the integer literals of the source
      ([0], [1000]) stand for the floats of the same value;
    - a Python [dict] is an association list in insertion order ([dict]):
      assignment to a present key keeps its position, a new key is appended;
    - a raised exception is a value [Raise e] of [result]. *)

From Stdlib Require Import ZArith NArith List Bool Lia String Ascii.
From Stdlib Require Import Floats.
Import ListNotations.

Set Warnings "-inexact-float,-register-all".

Open Scope Z_scope.

(* ------------------------------------------------------------------ *)
(** * Text *)

Definition codepoint := N.
Definition str := list codepoint.

(** UTF-8 decoding, used only to write the literals of the source. *)
Fixpoint utf8_decode (bs : list N) : str :=
  match bs with
  | [] => []
  | b :: r =>
      if (b <? 128)%N then b :: utf8_decode r
      else if (b <? 224)%N then
        match r with
        | b1 :: r1 => ((b - 192) * 64 + (b1 - 128))%N :: utf8_decode r1
        | [] => [b]
        end
      else if (b <? 240)%N then
        match r with
        | b1 :: b2 :: r2 =>
            ((b - 224) * 4096 + (b1 - 128) * 64 + (b2 - 128))%N :: utf8_decode r2
        | _ => [b]
        end
      else
        match r with
        | b1 :: b2 :: b3 :: r3 =>
            ((b - 240) * 262144 + (b1 - 128) * 4096 + (b2 - 128) * 64 + (b3 - 128))%N
              :: utf8_decode r3
        | _ => [b]
        end
  end.

Definition u (s : string) : str :=
  utf8_decode (map N_of_ascii (list_ascii_of_string s)).

Fixpoint str_eqb (a b : str) : bool :=
  match a, b with
  | [], [] => true
  | x :: a', y :: b' => (x =? y)%N && str_eqb a' b'
  | _, _ => false
  end.

(** [needle in hay] of Python, by scanning every start position. *)
Fixpoint starts_with (needle hay : str) : bool :=
  match needle, hay with
  | [], _ => true
  | x :: n', y :: h' => (x =? y)%N && starts_with n' h'
  | _ :: _, [] => false
  end.

Fixpoint contains (needle hay : str) : bool :=
  starts_with needle hay
  || match hay with
     | [] => false
     | _ :: h' => contains needle h'
     end.

(** [str.lower()]. Only the code points whose lowercase form holds an ASCII
    character are mapped: A to Z, U+0130 (to "i" and U+0307) and U+212A (to
    "k"). Every other code point is kept: its lowercase form holds no ASCII
    character, and the alias table the lowered text is scanned for is ASCII
    only. *)
Definition lower_char (c : codepoint) : str :=
  if ((65 <=? c) && (c <=? 90))%N then [(c + 32)%N]
  else if (c =? 304)%N then [105; 775]%N
  else if (c =? 8490)%N then [107]%N
  else [c].

Definition lower (s : str) : str := flat_map lower_char s.

(* ------------------------------------------------------------------ *)
(** * Exceptions *)

(** [Unmodelled] marks an input on which Python goes on with a value the
    embedding has no form for (a currency that is not text used as a key). *)
Inductive exn := TypeError | ZeroDivisionError | ValueError | KeyError | Unmodelled.

Inductive result (A : Type) :=
| Ok (a : A)
| Raise (e : exn).
Arguments Ok {A} a.
Arguments Raise {A} e.

Definition bind {A B} (r : result A) (k : A -> result B) : result B :=
  match r with
  | Ok a => k a
  | Raise e => Raise e
  end.

Notation "x <- r ;; k" := (bind r (fun x => k))
  (at level 61, r at next level, right associativity).

(* ------------------------------------------------------------------ *)
(** * Dictionaries *)

Module PyDict.

Definition dict (V : Type) := list (str * V).

Fixpoint get {V} (d : dict V) (k : str) : option V :=
  match d with
  | [] => None
  | (k', v) :: d' => if str_eqb k' k then Some v else get d' k
  end.

(** [d.get(k, default)] *)
Definition get_default {V} (d : dict V) (k : str) (default : V) : V :=
  match get d k with
  | Some v => v
  | None => default
  end.

(** [d[k]] *)
Definition getitem {V} (d : dict V) (k : str) : result V :=
  match get d k with
  | Some v => Ok v
  | None => Raise KeyError
  end.

(** [k in d] *)
Definition mem {V} (d : dict V) (k : str) : bool :=
  match get d k with
  | Some _ => true
  | None => false
  end.

(** [d[k] = v] *)
Fixpoint set {V} (d : dict V) (k : str) (v : V) : dict V :=
  match d with
  | [] => [(k, v)]
  | (k', v') :: d' =>
      if str_eqb k' k then (k', v) :: d' else (k', v') :: set d' k v
  end.

Definition keys {V} (d : dict V) : list str := map fst d.

(** A dict display [{k1: v1, k2: v2, ...}]: the entries are stored left to
    right, so a repeated key keeps its first position and its last value. *)
Definition of_list {V} (l : list (str * V)) : dict V :=
  fold_left (fun d kv => set d (fst kv) (snd kv)) l [].

(** [d.update(new)] *)
Definition update {V} (d new : dict V) : dict V :=
  fold_left (fun d kv => set d (fst kv) (snd kv)) new d.

End PyDict.
Import PyDict.

(* ------------------------------------------------------------------ *)
(** * Floats: rounding and rendering to two decimals *)

(** The integer nearest to [n / d], ties to the even one ([0 <= n], [0 < d]). *)
Definition round_half_even_div (n d : Z) : Z :=
  let q := n / d in
  let r := n mod d in
  if 2 * r <? d then q
  else if d <? 2 * r then q + 1
  else if Z.even q then q else q + 1.

(** The number of hundredths nearest to the exact value [m * 2^e]. *)
Definition hundredths (m : positive) (e : Z) : Z :=
  if 0 <=? e then Z.pos m * 2 ^ e * 100
  else round_half_even_div (Z.pos m * 100) (2 ^ (- e)).

(** [round(x, 2)]: [x] is rounded to a decimal with two fractional digits
    (correctly, from its exact binary value), and the decimal is read back as
    the nearest float. Infinities and nan round to themselves. *)
Definition round2 (x : float) : float :=
  match Prim2SF x with
  | S754_finite s m e =>
      match hundredths m e with
      | Z.pos n =>
          SF2Prim (SFdiv prec emax (S754_finite s n 0) (S754_finite false 100 0))
      | _ => SF2Prim (S754_zero s)
      end
  | _ => x
  end.

(** Python's [x / y] on floats raises when the divisor is zero. *)
Definition py_div (x y : float) : result float :=
  if PrimFloat.eqb y 0 then Raise ZeroDivisionError else Ok (x / y)%float.

(** Conversion of a Python [int] to [float], correctly rounded. *)
Definition float_of_Z (z : Z) : float :=
  SF2Prim (binary_normalize prec emax z 0 false).

Definition digit (d : Z) : codepoint := Z.to_N (48 + d).

Definition is_digit (c : codepoint) : bool := ((48 <=? c) && (c <=? 57))%N.

(** The decimal digits of a natural number, least significant first; [fuel]
    bounds their number. *)
Fixpoint digits_rev (fuel : nat) (n : Z) : str :=
  match fuel with
  | O => []
  | S fuel' =>
      digit (n mod 10) :: (if n <? 10 then [] else digits_rev fuel' (n / 10))
  end.

(** The decimal digits of a natural number, most significant first. A number
    has no more decimal digits than binary ones. *)
Definition int_digits (n : Z) : str :=
  rev (digits_rev (S (Z.to_nat (Z.log2 n))) n).

Definition comma : codepoint := 44%N.
Definition point : codepoint := 46%N.

(** Thousands separators, on the digits in reverse (least significant first). *)
Fixpoint group3_rev (ds : str) : str :=
  match ds with
  | a :: b :: c :: ((_ :: _) as rest) => a :: b :: c :: comma :: group3_rev rest
  | _ => ds
  end.

Definition group3 (ds : str) : str := rev (group3_rev (rev ds)).

(** The digits of [n] hundredths: integer part, point, two decimals. *)
Definition fixed2 (grouping : bool) (n : Z) : str :=
  (if grouping then group3 (int_digits (n / 100)) else int_digits (n / 100))
    ++ [point; digit (n mod 100 / 10); digit (n mod 10)].

Definition sign_str (s : bool) : str := if s then [45%N] else [].

(** [f"{x:.2f}"] ([grouping = false]) and [f"{x:,.2f}"] ([grouping = true]). *)
Definition format_f2 (grouping : bool) (x : float) : str :=
  match Prim2SF x with
  | S754_nan => u "nan"
  | S754_infinity s => sign_str s ++ u "inf"
  | S754_zero s => sign_str s ++ fixed2 grouping 0
  | S754_finite s m e => sign_str s ++ fixed2 grouping (hundredths m e)
  end.

(* ------------------------------------------------------------------ *)
(** * The catalog: symbols, names, rates and detection patterns *)

Definition CURRENCY_SYMBOLS : dict str :=
  of_list
    [ (u "$", u "USD"); (u "€", u "EUR"); (u "£", u "GBP"); (u "¥", u "JPY");
      (u "₹", u "INR"); (u "C$", u "CAD"); (u "A$", u "AUD"); (u "NZ$", u "NZD");
      (u "kr", u "SEK"); (u "CHF", u "CHF"); (u "R$", u "BRL"); (u "₽", u "RUB");
      (u "R", u "ZAR"); (u "kr", u "NOK") ].

Definition CURRENCY_NAMES : dict str :=
  of_list
    [ (u "dollar", u "USD"); (u "usd", u "USD"); (u "us dollar", u "USD");
      (u "euro", u "EUR"); (u "eur", u "EUR");
      (u "pound", u "GBP"); (u "gbp", u "GBP"); (u "british pound", u "GBP");
      (u "yen", u "JPY"); (u "jpy", u "JPY"); (u "japanese yen", u "JPY");
      (u "canadian dollar", u "CAD"); (u "cad", u "CAD");
      (u "australian dollar", u "AUD"); (u "aud", u "AUD");
      (u "swiss franc", u "CHF"); (u "chf", u "CHF");
      (u "yuan", u "CNY"); (u "cny", u "CNY");
      (u "rupee", u "INR"); (u "inr", u "INR") ].

Definition EXCHANGE_RATES : dict float :=
  of_list
    [ (u "USD", 1.0%float); (u "EUR", 0.92%float); (u "GBP", 0.79%float);
      (u "JPY", 149.50%float); (u "CAD", 1.36%float); (u "AUD", 1.53%float);
      (u "CHF", 0.89%float); (u "CNY", 7.24%float); (u "INR", 83.12%float);
      (u "MXN", 17.05%float); (u "BRL", 4.97%float); (u "RUB", 98.50%float);
      (u "ZAR", 18.50%float); (u "NOK", 10.48%float); (u "SEK", 10.35%float);
      (u "NZD", 1.62%float) ].

(** [update_exchange_rates]: the table after [EXCHANGE_RATES.update(new_rates)].
    The table is a global of the module; the functions that read it take its
    current value as their first argument. *)
Definition update_exchange_rates (rates new_rates : dict float) : dict float :=
  update rates new_rates.

(** One alternative of a detection pattern: a literal, possibly followed by
    the lookahead [(?!\s)]. Every pattern of the source is an alternation of
    such branches. *)
Record branch := { literal : str; not_before_space : bool }.

Definition pattern := list branch.

Definition lit (s : string) : branch :=
  {| literal := u s; not_before_space := false |}.

Definition lit_not_before_space (s : string) : branch :=
  {| literal := u s; not_before_space := true |}.

Definition CURRENCY_PATTERNS : list (pattern * str) :=
  [ ([lit "USD"; lit_not_before_space "$"; lit "US$"], u "USD");
    ([lit "EUR"; lit "€"; lit "Euro"], u "EUR");
    ([lit "GBP"; lit "£"; lit "British Pound"], u "GBP");
    ([lit "JPY"; lit "¥"; lit "Japanese Yen"], u "JPY");
    ([lit "CAD"; lit "C$"; lit "Canadian"], u "CAD");
    ([lit "AUD"; lit "A$"; lit "Australian"], u "AUD");
    ([lit "CHF"; lit "Swiss Franc"], u "CHF");
    ([lit "CNY"; lit "Yuan"; lit "RMB"], u "CNY");
    ([lit "INR"; lit "₹"; lit "Rupee"], u "INR");
    ([lit "MXN"; lit "Mexican Peso"], u "MXN");
    ([lit "BRL"; lit "R$"; lit "Brazilian"], u "BRL");
    ([lit "RUB"; lit "₽"; lit "Russian"], u "RUB");
    ([lit "ZAR"; lit "South African"], u "ZAR");
    ([lit "NOK"; lit "Norwegian Krone"], u "NOK");
    ([lit "SEK"; lit "Swedish Krona"], u "SEK");
    ([lit "NZD"; lit "New Zealand"], u "NZD") ].

(* ------------------------------------------------------------------ *)
(** * [re.search(pattern, text, re.IGNORECASE)] on these patterns *)

(** The whitespace of [\s] on a [str] pattern. *)
Definition is_space (c : codepoint) : bool :=
  (((9 <=? c) && (c <=? 13)) || ((28 <=? c) && (c <=? 32))
   || (c =? 133) || (c =? 160) || (c =? 5760)
   || ((8192 <=? c) && (c <=? 8202))
   || (c =? 8232) || (c =? 8233) || (c =? 8239) || (c =? 8287) || (c =? 12288))%N.

(** The one-character lowercase the matcher applies to the text. The
    characters of the patterns are ASCII letters, space and currency signs, so
    only the code points that lower to an ASCII letter matter. *)
Definition sre_lower (c : codepoint) : codepoint :=
  if ((65 <=? c) && (c <=? 90))%N then (c + 32)%N
  else if (c =? 304)%N then 105%N
  else if (c =? 8490)%N then 107%N
  else c.

(** A pattern character against a text character, ignoring case: equal after
    lowering, or one of the two extra equivalences that touch ASCII letters
    ("i" with dotless i, "s" with long s). *)
Definition char_matches_ci (p c : codepoint) : bool :=
  let lo := sre_lower p in
  ((sre_lower c =? lo)
   || ((lo =? 105) && (c =? 305))
   || ((lo =? 115) && (c =? 383)))%N.

(** The text left after the literal, when the text starts with it. *)
Fixpoint match_prefix_ci (l t : str) : option str :=
  match l, t with
  | [], _ => Some t
  | p :: l', c :: t' => if char_matches_ci p c then match_prefix_ci l' t' else None
  | _ :: _, [] => None
  end.

Definition next_is_space (t : str) : bool :=
  match t with
  | c :: _ => is_space c
  | [] => false
  end.

Definition branch_matches_at (b : branch) (t : str) : bool :=
  match match_prefix_ci (literal b) t with
  | Some rest => if not_before_space b then negb (next_is_space rest) else true
  | None => false
  end.

Definition pattern_matches_at (p : pattern) (t : str) : bool :=
  existsb (fun b => branch_matches_at b t) p.

Fixpoint re_search (p : pattern) (t : str) : bool :=
  pattern_matches_at p t
  || match t with
     | [] => false
     | _ :: t' => re_search p t'
     end.

(* ------------------------------------------------------------------ *)
(** * CurrencyDetector *)

(** [for key, code in table: if test(key): return code] *)
Fixpoint scan {A} (test : A -> bool) (table : list (A * str)) : option str :=
  match table with
  | [] => None
  | (a, code) :: rest => if test a then Some code else scan test rest
  end.

Definition detect_currency (text : str) : str * float :=
  match text with
  | [] => (u "USD", 0.5%float)
  | _ :: _ =>
      let text_lower := lower text in
      match scan (fun p => re_search p text) CURRENCY_PATTERNS with
      | Some currency_code => (currency_code, 0.9%float)
      | None =>
          match scan (fun name => contains name text_lower) CURRENCY_NAMES with
          | Some currency_code => (currency_code, 0.85%float)
          | None =>
              match scan (fun symbol => contains symbol text) CURRENCY_SYMBOLS with
              | Some currency_code => (currency_code, 0.88%float)
              | None => (u "USD", 0.5%float)
              end
          end
      end
  end.

(* ------------------------------------------------------------------ *)
(** * CurrencyConverter and CurrencyFormatter *)

(** The table [symbols], local to [get_currency_symbol]. *)
Definition symbols : dict str :=
  of_list
    [ (u "USD", u "$"); (u "EUR", u "€"); (u "GBP", u "£"); (u "JPY", u "¥");
      (u "CAD", u "C$"); (u "AUD", u "A$"); (u "CHF", u "CHF"); (u "CNY", u "¥");
      (u "INR", u "₹"); (u "MXN", u "$"); (u "BRL", u "R$"); (u "RUB", u "₽");
      (u "ZAR", u "R"); (u "NOK", u "kr"); (u "SEK", u "kr"); (u "NZD", u "NZ$") ].

Definition get_currency_symbol (currency_code : str) : str :=
  get_default symbols currency_code currency_code.

(** The three ways out of [convert_currency]. *)
Inductive conversion_path := Identity | UnknownRate | Pivot.

Definition convert_currency_path (rates : dict float) (from_currency to_currency : str)
  : conversion_path :=
  if str_eqb from_currency to_currency then Identity
  else
    match get rates from_currency, get rates to_currency with
    | Some _, Some _ => Pivot
    | _, _ => UnknownRate
    end.

Definition convert_currency (rates : dict float) (amount : float)
    (from_currency to_currency : str) : result float :=
  if str_eqb from_currency to_currency then Ok amount
  else
    match get rates from_currency, get rates to_currency with
    | Some from_rate, Some to_rate =>
        amount_in_usd <-
          (if negb (str_eqb from_currency (u "USD")) then py_div amount from_rate
           else Ok amount) ;;
        let converted := (amount_in_usd * to_rate)%float in
        Ok (round2 converted)
    | _, _ => Ok amount
    end.

Definition format_currency (amount : float) (currency_code : str)
    (include_symbol : bool) : str :=
  let formatted :=
    if PrimFloat.leb 1000 amount then format_f2 true amount
    else format_f2 false amount in
  if include_symbol then
    let symbol := get_currency_symbol currency_code in
    symbol ++ formatted
  else
    formatted ++ u " " ++ currency_code.

(* ------------------------------------------------------------------ *)
(** * Invoice records *)

(** The values of an invoice mapping, as [json.loads] and the pipeline produce
    them. A list holds records (the line items). *)
Inductive value :=
| VNone
| VBool (b : bool)
| VNum (x : float)
| VStr (s : str)
| VList (items : list (list (str * value))).

Definition invoice := dict value.

(** A value used as a number: [True] and [False] are the numbers 1 and 0
    (kept as the floats of that value); text, [None] and lists raise
    [TypeError] in comparison and arithmetic. *)
Definition as_number (v : value) : result float :=
  match v with
  | VNum x => Ok x
  | VBool b => Ok (if b then 1%float else 0%float)
  | VNone | VStr _ | VList _ => Raise TypeError
  end.

(** A value used as a dictionary key. A list is unhashable. *)
Definition as_key (v : value) : result str :=
  match v with
  | VStr s => Ok s
  | VList _ => Raise TypeError
  | VNone | VBool _ | VNum _ => Raise Unmodelled
  end.

Definition K_vendor_name := u "vendor_name".
Definition K_invoice_number := u "invoice_number".
Definition K_invoice_date := u "invoice_date".
Definition K_total_amount := u "total_amount".
Definition K_line_items := u "line_items".
Definition K_flagged := u "flagged".
Definition K_currency := u "currency".
Definition K_currency_confidence := u "currency_confidence".
Definition K_currency_symbol := u "currency_symbol".
Definition K_total_amount_formatted := u "total_amount_formatted".
Definition K_total_amount_usd := u "total_amount_usd".
Definition K_cost := u "cost".
Definition K_cost_formatted := u "cost_formatted".
Definition K_cost_usd := u "cost_usd".
Definition K_description := u "description".

Definition FLAGGED_AMOUNT_THRESHOLD : float := 5000.0%float.

Section Pipeline.

(** [str(v)] for a value that is not text, and [float(s)] for a text: two
    builtins of Python the pipeline calls and no claim depends on. *)
Variable repr : value -> str.
Variable float_of_text : str -> result float.

(** The current exchange-rate table. *)
Variable rates : dict float.

Definition py_str (v : value) : str :=
  match v with
  | VStr s => s
  | _ => repr v
  end.

Definition py_float (v : value) : result float :=
  match v with
  | VNum x => Ok x
  | VBool b => Ok (if b then 1%float else 0%float)
  | VStr s => float_of_text s
  | VNone | VList _ => Raise TypeError
  end.

(** The body of the loop over the line items. *)
Definition normalize_line_item (detected_currency : str) (item : dict value)
  : result (dict value) :=
  match get item K_cost with
  | Some c =>
      cost <- as_number c ;;
      let item :=
        set item K_cost_formatted (VStr (format_currency cost detected_currency true)) in
      cost_usd <- convert_currency rates cost detected_currency (u "USD") ;;
      Ok (set item K_cost_usd (VNum cost_usd))
  | None => Ok item
  end.

Fixpoint normalize_line_items (detected_currency : str) (items : list (dict value))
  : result (list (dict value)) :=
  match items with
  | [] => Ok []
  | item :: rest =>
      item' <- normalize_line_item detected_currency item ;;
      rest' <- normalize_line_items detected_currency rest ;;
      Ok (item' :: rest')
  end.

Definition normalize_currency_data (invoice_data : invoice) : result invoice :=
  let invoice_text :=
    py_str (get_default invoice_data K_vendor_name (VStr []))
      ++ u " " ++ py_str (get_default invoice_data K_invoice_number (VStr []))
      ++ u " " ++ py_str (get_default invoice_data K_invoice_date (VStr [])) in
  let '(detected_currency, confidence) := detect_currency invoice_text in
  let invoice_data := set invoice_data K_currency (VStr detected_currency) in
  let invoice_data := set invoice_data K_currency_confidence (VNum confidence) in
  let invoice_data :=
    set invoice_data K_currency_symbol (VStr (get_currency_symbol detected_currency)) in
  invoice_data <-
    match get invoice_data K_total_amount with
    | Some v =>
        total_amount <- as_number v ;;
        let invoice_data :=
          set invoice_data K_total_amount_formatted
            (VStr (format_currency total_amount detected_currency true)) in
        total_amount_usd <-
          convert_currency rates total_amount detected_currency (u "USD") ;;
        Ok (set invoice_data K_total_amount_usd (VNum total_amount_usd))
    | None => Ok invoice_data
    end ;;
  match get invoice_data K_line_items with
  | Some (VList items) =>
      items' <- normalize_line_items detected_currency items ;;
      Ok (set invoice_data K_line_items (VList items'))
  | Some (VStr _) =>
      (* the loop runs over the characters, none of which holds 'cost' *)
      Ok invoice_data
  | Some (VNone | VBool _ | VNum _) => Raise TypeError
  | None => Ok invoice_data
  end.

(** [_process_single_invoice], from the record the extraction returned on:
    normalization, then the flag. *)
Definition _process_single_invoice (extracted : invoice) : result invoice :=
  invoice_data <- normalize_currency_data extracted ;;
  comparison_amount <-
    py_float
      (get_default invoice_data K_total_amount_usd
         (get_default invoice_data K_total_amount (VNum 0%float))) ;;
  Ok (set invoice_data K_flagged
        (VBool (PrimFloat.ltb FLAGGED_AMOUNT_THRESHOLD comparison_amount))).

End Pipeline.

(* ------------------------------------------------------------------ *)
(** * AggregateSummarizer *)

(** One entry of [currency_breakdown]: [{'count': _, 'total': _, 'average': _}]. *)
Record breakdown := { count : Z; total : float; average : float }.

Inductive summary_value :=
| STotals (totals : dict float)
| SNum (x : float)
| SBreakdown (entries : dict breakdown)
| SCodes (codes : list str).

Definition K_total_by_currency := u "total_by_currency".
Definition K_total_in_usd := u "total_in_usd".
Definition K_currency_breakdown := u "currency_breakdown".
Definition K_currencies_detected := u "currencies_detected".

(** The body of the first loop of [get_multi_currency_summary]. *)
Definition accumulate_invoice (acc : dict float * dict breakdown) (inv : invoice)
  : result (dict float * dict breakdown) :=
  let '(totals_by_currency, currency_breakdown) := acc in
  currency <- as_key (get_default inv K_currency (VStr (u "USD"))) ;;
  amount <- as_number (get_default inv K_total_amount (VNum 0%float)) ;;
  let '(totals_by_currency, currency_breakdown) :=
    if negb (mem totals_by_currency currency) then
      (set totals_by_currency currency 0%float,
       set currency_breakdown currency {| count := 0; total := 0%float; average := 0%float |})
    else (totals_by_currency, currency_breakdown) in
  t <- getitem totals_by_currency currency ;;
  let totals_by_currency := set totals_by_currency currency (t + amount)%float in
  b <- getitem currency_breakdown currency ;;
  let currency_breakdown :=
    set currency_breakdown currency
      {| count := count b + 1; total := (total b + amount)%float; average := average b |} in
  Ok (totals_by_currency, currency_breakdown).

Fixpoint accumulate (invoices : list invoice) (acc : dict float * dict breakdown)
  : result (dict float * dict breakdown) :=
  match invoices with
  | [] => Ok acc
  | inv :: rest =>
      acc' <- accumulate_invoice acc inv ;;
      accumulate rest acc'
  end.

(** The second loop: one conversion per currency, summed. *)
Fixpoint sum_in_usd (rates : dict float) (items : list (str * float)) (total_in_usd : float)
  : result float :=
  match items with
  | [] => Ok total_in_usd
  | (currency, t) :: rest =>
      v <- convert_currency rates t currency (u "USD") ;;
      sum_in_usd rates rest (total_in_usd + v)%float
  end.

(** The third loop: the averages. *)
Definition with_average (b : breakdown) : breakdown :=
  {| count := count b;
     total := total b;
     average :=
       if 0 <? count b then round2 (total b / float_of_Z (count b))%float
       else 0%float |}.

Definition get_multi_currency_summary (rates : dict float) (invoices : list invoice)
  : result (dict summary_value) :=
  match invoices with
  | [] =>
      Ok (of_list
            [ (K_total_by_currency, STotals []);
              (K_total_in_usd, SNum 0%float);
              (K_currency_breakdown, SBreakdown []) ])
  | _ :: _ =>
      acc <- accumulate invoices ([], []) ;;
      let '(totals_by_currency, currency_breakdown) := acc in
      total_in_usd <- sum_in_usd rates totals_by_currency 0%float ;;
      let currency_breakdown :=
        map (fun kb => (fst kb, with_average (snd kb))) currency_breakdown in
      Ok (of_list
            [ (K_total_by_currency,
               STotals (map (fun kt => (fst kt, round2 (snd kt))) totals_by_currency));
              (K_total_in_usd, SNum (round2 total_in_usd));
              (K_currency_breakdown, SBreakdown currency_breakdown);
              (K_currencies_detected, SCodes (keys totals_by_currency)) ])
  end.

(* ------------------------------------------------------------------ *)
(** * The rest of the catalog *)

(** The table [names], local to [get_currency_info]. *)
Definition names : dict str :=
  of_list
    [ (u "USD", u "US Dollar"); (u "EUR", u "Euro"); (u "GBP", u "British Pound");
      (u "JPY", u "Japanese Yen"); (u "CAD", u "Canadian Dollar");
      (u "AUD", u "Australian Dollar"); (u "CHF", u "Swiss Franc");
      (u "CNY", u "Chinese Yuan"); (u "INR", u "Indian Rupee");
      (u "MXN", u "Mexican Peso"); (u "BRL", u "Brazilian Real");
      (u "RUB", u "Russian Ruble"); (u "ZAR", u "South African Rand");
      (u "NOK", u "Norwegian Krone"); (u "SEK", u "Swedish Krona");
      (u "NZD", u "New Zealand Dollar") ].

Definition K_code := u "code".
Definition K_name := u "name".
Definition K_symbol := u "symbol".
Definition K_exchange_rate_to_usd := u "exchange_rate_to_usd".

Definition get_currency_info (rates : dict float) (currency_code : str) : dict value :=
  of_list
    [ (K_code, VStr currency_code);
      (K_name, VStr (get_default names currency_code (u "Unknown")));
      (K_symbol, VStr (get_currency_symbol currency_code));
      (K_exchange_rate_to_usd,
       match get rates currency_code with
       | Some rate => VNum rate
       | None => VNone
       end) ].

(** [code in EXCHANGE_RATES or code in CURRENCY_NAMES.values()] *)
Definition is_valid_currency_code (rates : dict float) (code : str) : bool :=
  mem rates code || existsb (fun c => str_eqb code c) (map snd CURRENCY_NAMES).

(* ------------------------------------------------------------------ *)
(** * The extraction's cleaning of the parsed response *)

(** [s.strip()]: the whitespace at both ends is dropped. *)
Fixpoint lstrip (s : str) : str :=
  match s with
  | [] => []
  | c :: rest => if is_space c then lstrip rest else s
  end.

Definition strip (s : str) : str := rev (lstrip (rev (lstrip s))).

Section Extraction.

Variable repr : value -> str.
Variable float_of_text : str -> result float.

(** The body of the loop over the raw line items: the item is rebuilt with a
    text description and a float cost, or left out ([None]) when the cost
    raises [ValueError] or [TypeError]. *)
Definition clean_line_item (item : dict value) : result (option (dict value)) :=
  let description := strip (py_str repr (get_default item K_description (VStr []))) in
  match py_float float_of_text (get_default item K_cost (VNum 0%float)) with
  | Ok cost => Ok (Some (of_list [ (K_description, VStr description); (K_cost, VNum cost) ]))
  | Raise (ValueError | TypeError) => Ok None
  | Raise e => Raise e
  end.

Fixpoint clean_line_items (line_items : list (dict value)) : result (list (dict value)) :=
  match line_items with
  | [] => Ok []
  | item :: rest =>
      cleaned <- clean_line_item item ;;
      cleaned_items <- clean_line_items rest ;;
      Ok (match cleaned with
          | Some item' => item' :: cleaned_items
          | None => cleaned_items
          end)
  end.

(** [_parse_response], from the record [json.loads] returned on. *)
Definition _parse_response (data : dict value) : result (dict value) :=
  let data :=
    set data K_vendor_name
      (VStr (strip (py_str repr (get_default data K_vendor_name (VStr []))))) in
  let data :=
    set data K_invoice_number
      (VStr (strip (py_str repr (get_default data K_invoice_number (VStr []))))) in
  let data :=
    set data K_invoice_date
      (VStr (strip (py_str repr (get_default data K_invoice_date (VStr []))))) in
  total_amount <-
    match py_float float_of_text (get_default data K_total_amount (VNum 0%float)) with
    | Ok x => Ok x
    | Raise (ValueError | TypeError) => Ok 0.0%float
    | Raise e => Raise e
    end ;;
  let data := set data K_total_amount (VNum total_amount) in
  let line_items :=
    match get_default data K_line_items (VList []) with
    | VList items => items
    | VNone | VBool _ | VNum _ | VStr _ => []
    end in
  cleaned_items <- clean_line_items line_items ;;
  Ok (set data K_line_items (VList cleaned_items)).

End Extraction.

(* ------------------------------------------------------------------ *)
(** * The batch: [process_invoices] and [get_summary_data] *)

(** The truth value of a Python value. *)
Definition truthy (v : value) : bool :=
  match v with
  | VNone => false
  | VBool b => b
  | VNum x => negb (PrimFloat.eqb x 0)
  | VStr s => match s with [] => false | _ :: _ => true end
  | VList items => match items with [] => false | _ :: _ => true end
  end.

(** The values of the batch summary. *)
Inductive report_value :=
| RInt (n : Z)
| RNum (x : float)
| RErrors (messages : list str)
| RNone.

Definition K_total_invoices_processed := u "total_invoices_processed".
Definition K_flagged_invoices_count := u "flagged_invoices_count".
Definition K_errors := u "errors".

Section Batch.

Variable float_of_text : str -> result float.

(** The builtin [sum] on floats (a plain left-to-right sum before Python 3.12,
    a compensated one from then on). *)
Variable py_sum : list float -> float.

(** [float(inv.get('total_amount', 0)) for inv in invoices] *)
Fixpoint total_amounts (invoices : list invoice) : result (list float) :=
  match invoices with
  | [] => Ok []
  | inv :: rest =>
      x <- py_float float_of_text (get_default inv K_total_amount (VNum 0%float)) ;;
      xs <- total_amounts rest ;;
      Ok (x :: xs)
  end.

Definition flagged_count (invoices : list invoice) : Z :=
  Z.of_nat
    (List.length
       (filter (fun inv => truthy (get_default inv K_flagged (VBool false))) invoices)).

Definition get_summary_data (invoices : list invoice) : result (dict report_value) :=
  let total_invoices := Z.of_nat (List.length invoices) in
  amounts <- total_amounts invoices ;;
  let total_amount := py_sum amounts in
  Ok (of_list
        [ (K_total_invoices_processed, RInt total_invoices);
          (K_total_amount, RNum (round2 total_amount));
          (K_flagged_invoices_count, RInt (flagged_count invoices)) ]).

(** [_process_single_invoice] on a path, with the collaborators it calls, and
    the message [f"Error processing {basename}: {str(e)}"]. *)
Variable process_file : str -> result invoice.
Variable error_message : str -> exn -> str.

(** The loop of [process_invoices]: each file adds an invoice or a message. *)
Fixpoint process_files (pdf_file_paths : list str) (invoices : list invoice)
    (errors : list str) : list invoice * list str :=
  match pdf_file_paths with
  | [] => (invoices, errors)
  | file_path :: rest =>
      match process_file file_path with
      | Ok inv => process_files rest (invoices ++ [inv]) errors
      | Raise e => process_files rest invoices (errors ++ [error_message file_path e])
      end
  end.

Definition process_invoices (pdf_file_paths : list str)
  : result (list invoice * dict report_value) :=
  let '(invoices, errors) := process_files pdf_file_paths [] [] in
  match invoices with
  | [] => Raise ValueError
  | _ :: _ =>
      summary <- get_summary_data invoices ;;
      let summary :=
        set summary K_errors
          (match errors with
           | [] => RNone
           | _ :: _ => RErrors errors
           end) in
      Ok (invoices, summary)
  end.

End Batch.

(** [_process_single_invoice] from the path on: the PDF is validated, its
    text extracted, the language model asked, its answer cleaned, and the
    record normalized and flagged. *)
Section ProcessFile.

Variable repr : value -> str.
Variable float_of_text : str -> result float.
Variable rates : dict float.

(** The collaborators: [validate_pdf], [extract_text_from_pdf], and the model
    call with [json.loads] of its answer. *)
Variable validate_pdf : str -> bool.
Variable extract_text_from_pdf : str -> result str.
Variable ask_model : str -> result (dict value).

Definition extract_invoice_data (pdf_text : str) : result (dict value) :=
  data <- ask_model pdf_text ;;
  _parse_response repr float_of_text data.

Definition _process_single_invoice_at (pdf_path : str) : result invoice :=
  if negb (validate_pdf pdf_path) then Raise ValueError
  else
    pdf_text <- extract_text_from_pdf pdf_path ;;
    match strip pdf_text with
    | [] => Raise ValueError
    | _ :: _ =>
        invoice_data <- extract_invoice_data pdf_text ;;
        _process_single_invoice repr float_of_text rates invoice_data
    end.

End ProcessFile.

(* ================================================================== *)
(** * Specification vocabulary *)

(** A table is usable when no rate in it is zero (the source leaves that to
    the caller of [update_exchange_rates]). *)
Definition valid_rates (rates : dict float) : bool :=
  forallb (fun kv => negb (PrimFloat.eqb (snd kv) 0)) rates.

(** The value of the pivot branch. *)
Definition pivot (a : float) (from_currency : str) (from_rate to_rate : float) : float :=
  round2 ((if str_eqb from_currency (u "USD") then a else a / from_rate) * to_rate)%float.

Ltac neq_keys :=
  let H := fresh in
  intro H; vm_compute in H; discriminate H.

(** The input contract of the normalizer: an amount, where there is one, is
    a number, and [line_items], where present, is a sequence of records. *)
Definition numeric (v : value) : bool :=
  match v with
  | VNum _ | VBool _ => true
  | VNone | VStr _ | VList _ => false
  end.

Definition item_contract (item : dict value) : bool :=
  match get item K_cost with
  | Some v => numeric v
  | None => true
  end.

Definition contract (inv : invoice) : bool :=
  match get inv K_total_amount with
  | Some v => numeric v
  | None => true
  end
  && match get inv K_line_items with
     | Some (VList items) => forallb item_contract items
     | Some (VStr _) | None => true
     | Some (VNone | VBool _ | VNum _) => false
     end.

(** What normalization does to one line item. *)
Definition item_enriched (rates : dict float) (c : str) (item item' : dict value) : Prop :=
  (forall k, k <> K_cost_formatted -> k <> K_cost_usd -> get item' k = get item k)
  /\ match get item K_cost with
     | Some v =>
         exists cost cost_usd,
           as_number v = Ok cost
           /\ convert_currency rates cost c (u "USD") = Ok cost_usd
           /\ get item' K_cost_formatted = Some (VStr (format_currency cost c true))
           /\ get item' K_cost_usd = Some (VNum cost_usd)
     | None => item' = item
     end.

(** The text the detector is run on. *)
Definition detection_text (repr : value -> str) (inv : invoice) : str :=
  py_str repr (get_default inv K_vendor_name (VStr []))
    ++ u " " ++ py_str repr (get_default inv K_invoice_number (VStr []))
    ++ u " " ++ py_str repr (get_default inv K_invoice_date (VStr [])).

Definition derived_keys : list str :=
  [ K_currency; K_currency_confidence; K_currency_symbol;
    K_total_amount_formatted; K_total_amount_usd ].

(** What normalization does to an invoice record [inv], giving [r]. *)
Record normalized (repr : value -> str) (rates : dict float) (inv r : invoice) : Prop :=
  { norm_currency :
      get r K_currency = Some (VStr (fst (detect_currency (detection_text repr inv))));
    norm_confidence :
      get r K_currency_confidence
      = Some (VNum (snd (detect_currency (detection_text repr inv))));
    norm_symbol :
      get r K_currency_symbol
      = Some (VStr (get_currency_symbol
                      (fst (detect_currency (detection_text repr inv)))));
    norm_frame :
      forall k, ~ In k derived_keys -> k <> K_line_items -> get r k = get inv k;
    norm_total :
      match get inv K_total_amount with
      | Some v =>
          exists a a_usd,
            as_number v = Ok a
            /\ convert_currency rates a
                 (fst (detect_currency (detection_text repr inv))) (u "USD") = Ok a_usd
            /\ get r K_total_amount_formatted
               = Some (VStr (format_currency a
                               (fst (detect_currency (detection_text repr inv))) true))
            /\ get r K_total_amount_usd = Some (VNum a_usd)
      | None =>
          get r K_total_amount_formatted = get inv K_total_amount_formatted
          /\ get r K_total_amount_usd = get inv K_total_amount_usd
      end;
    norm_items :
      match get inv K_line_items with
      | Some (VList items) =>
          exists items',
            get r K_line_items = Some (VList items')
            /\ Forall2 (item_enriched rates
                          (fst (detect_currency (detection_text repr inv))))
                 items items'
      | other => get r K_line_items = other
      end }.

(** The USD-equivalent total of a processed record: [total_amount_usd],
    else the raw [total_amount], else 0. *)
Definition usd_equivalent_total (r : invoice) : value :=
  match get r K_total_amount_usd with
  | Some v => v
  | None =>
      match get r K_total_amount with
      | Some v => v
      | None => VNum 0%float
      end
  end.

(** Without a [total_amount] nothing overwrites a [total_amount_usd] the
    record already has; the contract asks it to be a number then. *)
Definition usd_contract (inv : invoice) : bool :=
  match get inv K_total_amount, get inv K_total_amount_usd with
  | None, Some v => numeric v
  | _, _ => true
  end.

(** Stand-ins for the two builtins in the evaluations below, where every
    text field is text and every amount a number. *)
Definition no_repr : value -> str := fun _ => [].
Definition no_float : str -> result float := fun _ => Raise ValueError.

(** A record as the extraction returns it. *)
Definition sample_invoice : invoice :=
  [ (K_vendor_name, VStr (u "Acme Tools"));
    (K_invoice_number, VStr (u "INV-001"));
    (K_invoice_date, VStr (u "2024-03-01"));
    (K_total_amount, VNum 6000%float);
    (K_line_items,
     VList [ [ (K_description, VStr (u "Drill")); (K_cost, VNum 6000%float) ];
             [ (K_description, VStr (u "Delivery")); (K_cost, VNum 0%float) ] ]) ].

(** A record in which the extraction left a [currency] entry. *)
Definition relabelled_invoice : invoice :=
  [ (K_vendor_name, VStr (u "Acme Tools"));
    (K_total_amount, VNum 100%float);
    (K_currency, VStr (u "EUR")) ].

(** [n] occurs in [h] as a substring. *)
Definition occurs (n h : str) : Prop := exists pre post, h = pre ++ n ++ post.

(** The literal [l] matches the text [m], character by character, ignoring
    case. *)
Definition matches_ci (l m : str) : Prop :=
  Forall2 (fun p c => char_matches_ci p c = true) l m.

(** The branch matches somewhere in the text. *)
Definition branch_occurs (b : branch) (text : str) : Prop :=
  exists pre m post,
    text = pre ++ m ++ post
    /\ matches_ci (literal b) m
    /\ (not_before_space b = true -> next_is_space post = false).

(** The pattern matches somewhere in the text: one of its branches does. *)
Definition pattern_occurs (p : pattern) (text : str) : Prop :=
  exists b, In b p /\ branch_occurs b text.

(** [code] belongs to the first entry of the table that hits. *)
Definition first_hit {A} (hit : A -> Prop) (table : list (A * str)) (code : str) : Prop :=
  exists before a after,
    table = before ++ (a, code) :: after
    /\ hit a
    /\ Forall (fun e => ~ hit (fst e)) before.

Definition no_hit {A} (hit : A -> Prop) (table : list (A * str)) : Prop :=
  Forall (fun e => ~ hit (fst e)) table.

Definition detected_codes : list str :=
  u "USD" :: map snd CURRENCY_PATTERNS ++ map snd CURRENCY_NAMES
          ++ map snd CURRENCY_SYMBOLS.

Ltac destruct_scan table E :=
  match goal with
  | |- context [scan ?f table] => destruct (scan f table) eqn:E
  end.

(** The conversion to USD of an amount in a currency that has a rate. *)
Definition known_rate_conversion (a : float) (c : str) (y : float) : Prop :=
  exists rate,
    get EXCHANGE_RATES c = Some rate
    /\ y = if str_eqb c (u "USD") then a else round2 (a / rate * 1.0)%float.

(** A record whose vendor line names the euro. *)
Definition euro_invoice : invoice :=
  [ (K_vendor_name, VStr (u "Muster GmbH (EUR)"));
    (K_total_amount, VNum 100%float);
    (K_line_items, VList [ [ (K_description, VStr (u "Beratung")); (K_cost, VNum 100%float) ] ]) ].

(** An amount that is a number: neither nan nor an infinity. *)
Definition finite_amount (a : float) : bool :=
  match Prim2SF a with
  | S754_zero _ | S754_finite _ _ _ => true
  | S754_infinity _ | S754_nan => false
  end.

Definition digits_only (s : str) : Prop := Forall (fun c => is_digit c = true) s.

(** A rendering with exactly two decimals: an optional minus sign, the digits
    of the integer part (with separators when [grouping]), the point, two
    digits. *)
Definition two_decimal_number (grouping : bool) (s : str) : Prop :=
  exists sign ds d1 d2,
    s = sign_str sign ++ (if grouping then group3 ds else ds) ++ [point; d1; d2]
    /\ ds <> []
    /\ digits_only ds
    /\ is_digit d1 = true
    /\ is_digit d2 = true.

(** [g] is [ds] with thousands separators: [ds] is what is left of [g]
    without its commas, and, counting from the right, the commas of [g] stand
    at every fourth place. *)
Definition thousands_separated (ds g : str) : Prop :=
  filter (fun c => negb (c =? comma)%N) g = ds
  /\ forall i,
      nth_error (rev g) i = Some comma
      <-> (i mod 4 = 3 /\ i < List.length g)%nat.

(** The currency and the amount an invoice brings to the summary. *)
Definition summary_entry (inv : invoice) : result (str * float) :=
  currency <- as_key (get_default inv K_currency (VStr (u "USD"))) ;;
  amount <- as_number (get_default inv K_total_amount (VNum 0%float)) ;;
  Ok (currency, amount).

Fixpoint summary_entries (invoices : list invoice) : result (list (str * float)) :=
  match invoices with
  | [] => Ok []
  | inv :: rest =>
      e <- summary_entry inv ;;
      es <- summary_entries rest ;;
      Ok (e :: es)
  end.

(** The amounts of the invoices in currency [c], in the order of the batch. *)
Definition amounts_of (c : str) (entries : list (str * float)) : list float :=
  map snd (filter (fun e => str_eqb (fst e) c) entries).

(** A sum of floats as Python accumulates it: from 0, left to right. *)
Definition float_sum (l : list float) : float := fold_left PrimFloat.add l 0%float.

(** The currencies of the batch, each once, in the order they first appear. *)
Fixpoint currencies_in_order (entries : list (str * float)) : list str :=
  match entries with
  | [] => []
  | (c, _) :: rest =>
      c :: filter (fun c' => negb (str_eqb c c')) (currencies_in_order rest)
  end.

Definition number_of (c : str) (entries : list (str * float)) : Z :=
  Z.of_nat (List.length (amounts_of c entries)).

(** The two dictionaries the first loop builds. *)
Definition totals_of (entries : list (str * float)) : dict float :=
  map (fun c => (c, float_sum (amounts_of c entries))) (currencies_in_order entries).

Definition breakdown_of (entries : list (str * float)) : dict breakdown :=
  map (fun c => (c, {| count := number_of c entries;
                       total := float_sum (amounts_of c entries);
                       average := 0%float |}))
    (currencies_in_order entries).

Definition mentions (c : str) (entries : list (str * float)) : bool :=
  existsb (fun e => str_eqb (fst e) c) entries.

(** A batch in two currencies. *)
Definition sample_batch : list invoice :=
  [ [ (K_currency, VStr (u "USD")); (K_total_amount, VNum 6000%float) ];
    [ (K_currency, VStr (u "EUR")); (K_total_amount, VNum 100%float) ];
    [ (K_currency, VStr (u "EUR")); (K_total_amount, VNum 50.555%float) ] ].

(** The number a string of decimal digits, least significant first, reads as. *)
Fixpoint value_rev (ds : str) : Z :=
  match ds with
  | [] => 0
  | d :: rest => (Z.of_N d - 48) + 10 * value_rev rest
  end.

(** The rate tables the program can hold: the baseline, changed by any
    number of calls of [update_exchange_rates]. *)
Inductive reachable_rates : dict float -> Prop :=
| reachable_baseline : reachable_rates EXCHANGE_RATES
| reachable_update rates new_rates :
    reachable_rates rates ->
    reachable_rates (update_exchange_rates rates new_rates).

(** The literals of the detection patterns that carry no lookahead. *)
Definition pattern_literals : list str :=
  flat_map
    (fun pc => map literal (filter (fun b => negb (not_before_space b)) (fst pc)))
    CURRENCY_PATTERNS.

Definition ascii_text (n : str) : bool := forallb (fun c => (c <? 128)%N) n.

Definition nonempty (n : str) : bool :=
  match n with
  | [] => false
  | _ :: _ => true
  end.

(** An alias is shadowed when it holds the lowered form of a pattern literal:
    a text whose lowered form holds the alias is matched by that pattern. *)
Definition shadowed_alias (alias : str) : bool :=
  existsb
    (fun l =>
       nonempty l && ascii_text (map sre_lower l) && contains (map sre_lower l) alias)
    pattern_literals.

(** A symbol is shadowed when it holds a pattern literal. *)
Definition shadowed_symbol (symbol : str) : bool :=
  existsb (fun l => contains l symbol) pattern_literals.

Definition code_among (codes : list str) (c : str) : bool :=
  existsb (fun c' => str_eqb c' c) codes.

(** Every entry of a scanned table has an allowed code, or a shadowed key, or
    a key that holds an earlier key of the table. *)
Fixpoint tier_reaches_only (allowed : str -> bool) (shadowed : str -> bool)
    (before : list str) (table : list (str * str)) : bool :=
  match table with
  | [] => true
  | (key, code) :: rest =>
      (allowed code || shadowed key || existsb (fun k => contains k key) before)
      && tier_reaches_only allowed shadowed (before ++ [key]) rest
  end.

(** No whitespace at the start, and none at the end. *)
Definition no_leading_space (s : str) : Prop :=
  match s with
  | [] => True
  | c :: _ => is_space c = false
  end.

Definition trimmed (s : str) : Prop := no_leading_space s /\ no_leading_space (rev s).

(** [float] applied to text raises nothing but [ValueError]. *)
Definition float_raises_value_error (float_of_text : str -> result float) : Prop :=
  forall s e, float_of_text s = Raise e -> e = ValueError.

(** A line item as the extraction rebuilds it. *)
Definition clean_item (description : str) (cost : float) : dict value :=
  [ (K_description, VStr description); (K_cost, VNum cost) ].

(** What the extraction makes of one raw line item: the rebuilt item, or
    nothing when its cost is no number. *)
Definition cleaned_item (repr : value -> str) (float_of_text : str -> result float)
    (item : dict value) : list (dict value) :=
  match py_float float_of_text (get_default item K_cost (VNum 0%float)) with
  | Ok cost =>
      [ clean_item (strip (py_str repr (get_default item K_description (VStr [])))) cost ]
  | Raise _ => []
  end.

Definition extraction_keys : list str :=
  [ K_vendor_name; K_invoice_number; K_invoice_date; K_total_amount; K_line_items ].

(** The raw line items of a parsed response: its [line_items] when that is a
    list, none otherwise. *)
Definition raw_line_items (data : dict value) : list (dict value) :=
  match get data K_line_items with
  | Some (VList items) => items
  | Some (VNone | VBool _ | VNum _ | VStr _) | None => []
  end.

(** The total the extraction stores: the float of [total_amount] (0 when
    absent), or 0.0 when it is no number. *)
Definition cleaned_total (float_of_text : str -> result float) (data : dict value)
  : float :=
  match py_float float_of_text (get_default data K_total_amount (VNum 0%float)) with
  | Ok x => x
  | Raise _ => 0.0%float
  end.

Definition cleaned_text (repr : value -> str) (data : dict value) (k : str) : str :=
  strip (py_str repr (get_default data k (VStr []))).

(** The invoice a file yields, and the message it yields, as lists of at most
    one element. *)
Definition succeeded (process_file : str -> result invoice) (path : str)
  : list invoice :=
  match process_file path with
  | Ok inv => [inv]
  | Raise _ => []
  end.

Definition failed (process_file : str -> result invoice)
    (error_message : str -> exn -> str) (path : str) : list str :=
  match process_file path with
  | Ok _ => []
  | Raise e => [error_message path e]
  end.

Definition sumZ (l : list Z) : Z := fold_right Z.add 0 l.

(** The records whose [flagged] entry is [True]. *)
Definition is_flagged (r : invoice) : bool :=
  match get r K_flagged with
  | Some (VBool true) => true
  | _ => false
  end.

(** The USD-equivalent total of a record is above the threshold. *)
Definition above_threshold (float_of_text : str -> result float) (r : invoice) : bool :=
  match py_float float_of_text (usd_equivalent_total r) with
  | Ok a => PrimFloat.ltb 5000.0 a
  | Raise _ => false
  end.

(** The batch of records the pipeline returned. *)
Definition processed_batch (repr : value -> str) (float_of_text : str -> result float)
    (rates : dict float) (invoices : list invoice) : Prop :=
  Forall (fun r => exists inv,
              _process_single_invoice repr float_of_text rates inv = Ok r)
    invoices.

(** A batch of normalized records. *)
Definition normalized_batch (repr : value -> str) (rates : dict float)
    (invoices : list invoice) : Prop :=
  Forall (fun r => exists inv, normalize_currency_data repr rates inv = Ok r) invoices.

(* ================================================================== *)
(** * Properties *)

Lemma str_eqb_spec (a b : str) : reflect (a = b) (str_eqb a b).
Proof.
  revert b; induction a as [|x a IH]; intros [|y b]; simpl;
    try (constructor; congruence).
  destruct (N.eqb_spec x y) as [->|Hxy]; simpl.
  - destruct (IH b) as [->|Hab]; constructor; congruence.
  - constructor; congruence.
Qed.

Lemma str_eqb_refl (a : str) : str_eqb a a = true.
Proof. destruct (str_eqb_spec a a); congruence. Qed.

Lemma str_eqb_neq (a b : str) : a <> b -> str_eqb a b = false.
Proof. destruct (str_eqb_spec a b); congruence. Qed.

Lemma str_eqb_sym (a b : str) : str_eqb a b = str_eqb b a.
Proof.
  destruct (str_eqb_spec a b), (str_eqb_spec b a); congruence.
Qed.

Section DictFacts.

Context {V : Type}.
Implicit Types (d : dict V) (k : str) (v : V).

Lemma get_set_same d k v : get (set d k v) k = Some v.
Proof.
  induction d as [|[k' v'] d IH]; simpl.
  - now rewrite str_eqb_refl.
  - destruct (str_eqb k' k) eqn:E; simpl; now rewrite E.
Qed.

Lemma get_set_other d k k' v : k <> k' -> get (set d k v) k' = get d k'.
Proof.
  intros Hk; induction d as [|[k0 v0] d IH]; simpl.
  - now rewrite str_eqb_neq.
  - destruct (str_eqb k0 k) eqn:E; simpl.
    + destruct (str_eqb_spec k0 k) as [->|]; [|discriminate].
      now rewrite str_eqb_neq.
    + now rewrite IH.
Qed.

Lemma mem_set d k k' v : mem d k' = true -> mem (set d k v) k' = true.
Proof.
  unfold mem; intros H.
  destruct (str_eqb_spec k k') as [->|Hk].
  - now rewrite get_set_same.
  - now rewrite get_set_other.
Qed.

Lemma get_In d k v : get d k = Some v -> In (k, v) d.
Proof.
  induction d as [|[k' v'] d IH]; simpl; [discriminate|].
  destruct (str_eqb_spec k' k) as [->|]; intros H.
  - injection H as ->; now left.
  - right; auto.
Qed.

Lemma get_forallb (P : str * V -> bool) d k v :
  forallb P d = true -> get d k = Some v -> P (k, v) = true.
Proof.
  intros HP Hg; apply get_In in Hg.
  rewrite forallb_forall in HP; auto.
Qed.

Lemma get_None_not_key d k : get d k = None -> ~ In k (keys d).
Proof.
  induction d as [|[k' v'] d IH]; simpl; [tauto|].
  destruct (str_eqb_spec k' k) as [->|Hk]; [discriminate|].
  intros H [E|HI]; [congruence|]; now apply IH.
Qed.

Lemma not_key_get_None d k : ~ In k (keys d) -> get d k = None.
Proof.
  induction d as [|[k' v'] d IH]; simpl; [reflexivity|].
  intros H; destruct (str_eqb_spec k' k) as [->|Hk]; [tauto|].
  apply IH; tauto.
Qed.

End DictFacts.

Lemma baseline_rates_valid : valid_rates EXCHANGE_RATES = true.
Proof. reflexivity. Qed.

Lemma valid_rates_nonzero rates c r :
  valid_rates rates = true -> get rates c = Some r -> PrimFloat.eqb r 0 = false.
Proof.
  intros Hv Hg.
  pose proof (get_forallb _ _ _ _ Hv Hg) as H; simpl in H.
  now apply negb_true_iff in H.
Qed.

Lemma convert_currency_known rates a from_currency to_currency fr tr :
  valid_rates rates = true ->
  from_currency <> to_currency ->
  get rates from_currency = Some fr ->
  get rates to_currency = Some tr ->
  convert_currency rates a from_currency to_currency
  = Ok (pivot a from_currency fr tr).
Proof.
  intros Hv Hne Hf Ht; unfold convert_currency, pivot.
  rewrite (str_eqb_neq _ _ Hne), Hf, Ht.
  destruct (str_eqb from_currency (u "USD")); simpl; [reflexivity|].
  unfold py_div; now rewrite (valid_rates_nonzero _ _ _ Hv Hf).
Qed.

Lemma convert_currency_path_sound rates a from_currency to_currency :
  match convert_currency_path rates from_currency to_currency with
  | Identity | UnknownRate =>
      convert_currency rates a from_currency to_currency = Ok a
  | Pivot =>
      exists fr tr,
        get rates from_currency = Some fr /\ get rates to_currency = Some tr /\
        convert_currency rates a from_currency to_currency
        = (amount_in_usd <-
             (if negb (str_eqb from_currency (u "USD")) then py_div a fr else Ok a) ;;
           Ok (round2 (amount_in_usd * tr)%float))
  end.
Proof.
  unfold convert_currency_path, convert_currency.
  destruct (str_eqb from_currency to_currency); [reflexivity|].
  destruct (get rates from_currency) as [fr|]; [|reflexivity].
  destruct (get rates to_currency) as [tr|]; [|reflexivity].
  exists fr, tr; auto.
Qed.

(** C5. For every amount and every pair of distinct codes that both have a
    rate in the exchange-rate table, [convert_currency] is the pivot through
    USD: the amount divided by the source rate (unless the source is USD),
    times the target rate, rounded to two decimals. *)
Theorem convert_currency_pivot (a : float) (from_currency to_currency : str)
    (from_rate to_rate : float) :
  from_currency <> to_currency ->
  get EXCHANGE_RATES from_currency = Some from_rate ->
  get EXCHANGE_RATES to_currency = Some to_rate ->
  convert_currency EXCHANGE_RATES a from_currency to_currency
  = Ok (round2 ((if str_eqb from_currency (u "USD") then a else a / from_rate)
                * to_rate)%float)
  /\ convert_currency_path EXCHANGE_RATES from_currency to_currency = Pivot.
Proof.
  intros Hne Hf Ht; split.
  - exact (convert_currency_known _ a _ _ _ _ baseline_rates_valid Hne Hf Ht).
  - unfold convert_currency_path.
    now rewrite (str_eqb_neq _ _ Hne), Hf, Ht.
Qed.

Lemma convert_currency_pivot_witness :
  convert_currency EXCHANGE_RATES 100%float (u "EUR") (u "GBP") = Ok 85.87%float.
Proof.
  refine (eq_trans
            (proj1 (convert_currency_pivot 100%float (u "EUR") (u "GBP")
                      0.92%float 0.79%float _ _ _)) _).
  - discriminate.
  - reflexivity.
  - reflexivity.
  - reflexivity.
Defined.

(** C6. Converting an amount from a currency to the same currency returns the
    amount itself, whether the code has a rate or not, and whatever the
    table: no arithmetic and no rounding take place. *)
Theorem convert_currency_identity (rates : dict float) (a : float) (c : str) :
  convert_currency rates a c c = Ok a
  /\ convert_currency_path rates c c = Identity.
Proof.
  unfold convert_currency, convert_currency_path.
  now rewrite str_eqb_refl.
Qed.

(** C7. When the table has no rate for the source or for the target, the
    amount comes back unchanged and nothing is raised; so it is for the
    unregistered code XXX against the baseline table. *)
Theorem convert_currency_unknown_rate (rates : dict float) (a : float)
    (from_currency to_currency : str) :
  from_currency <> to_currency ->
  get rates from_currency = None \/ get rates to_currency = None ->
  convert_currency rates a from_currency to_currency = Ok a
  /\ convert_currency EXCHANGE_RATES a (u "XXX") (u "USD") = Ok a.
Proof.
  intros _ H; split; [|reflexivity].
  unfold convert_currency.
  destruct (str_eqb from_currency to_currency); [reflexivity|].
  destruct H as [-> | H]; [reflexivity|].
  rewrite H; now destruct (get rates from_currency).
Qed.

Lemma convert_currency_unknown_rate_witness :
  convert_currency EXCHANGE_RATES 12.5%float (u "USD") (u "XXX") = Ok 12.5%float.
Proof.
  refine (proj1 (convert_currency_unknown_rate EXCHANGE_RATES 12.5%float
                   (u "USD") (u "XXX") _ _)).
  - discriminate.
  - right; reflexivity.
Defined.

(** C3. On the empty list [get_multi_currency_summary] raises nothing and
    returns a zero USD total, an empty [total_by_currency] and an empty
    [currency_breakdown]; the mapping it returns has no [currencies_detected]
    entry at all, where an empty list is expected (the return of the
    non-empty case has the entry). *)
Theorem summary_of_empty_batch (rates : dict float) :
  exists s,
    get_multi_currency_summary rates [] = Ok s
    /\ get s K_total_in_usd = Some (SNum 0%float)
    /\ get s K_total_by_currency = Some (STotals [])
    /\ get s K_currency_breakdown = Some (SBreakdown [])
    /\ get s K_currencies_detected = None
    /\ keys s = [K_total_by_currency; K_total_in_usd; K_currency_breakdown].
Proof.
  eexists; split; [reflexivity|].
  repeat split.
Qed.

Lemma numeric_as_number v : numeric v = true -> exists x, as_number v = Ok x.
Proof. destruct v; simpl; try discriminate; eauto. Qed.

Lemma convert_currency_total rates a from_currency to_currency :
  valid_rates rates = true ->
  exists y, convert_currency rates a from_currency to_currency = Ok y.
Proof.
  intros Hv; unfold convert_currency.
  destruct (str_eqb from_currency to_currency); [eauto|].
  destruct (get rates from_currency) as [fr|] eqn:Hf; [|eauto].
  destruct (get rates to_currency) as [tr|]; [|eauto].
  destruct (negb (str_eqb from_currency (u "USD"))); simpl; [|eauto].
  unfold py_div; rewrite (valid_rates_nonzero _ _ _ Hv Hf); simpl; eauto.
Qed.

Lemma normalize_line_item_spec rates c item :
  valid_rates rates = true ->
  item_contract item = true ->
  exists item', normalize_line_item rates c item = Ok item'
                /\ item_enriched rates c item item'.
Proof.
  intros Hv Hc; unfold normalize_line_item, item_contract, item_enriched in *.
  destruct (get item K_cost) as [v|] eqn:Hcost.
  - destruct (numeric_as_number _ Hc) as [x Hx]; rewrite Hx; simpl.
    destruct (convert_currency_total rates x c (u "USD") Hv) as [y Hy].
    rewrite Hy; simpl.
    eexists; split; [reflexivity|]; split.
    + intros k H1 H2.
      rewrite get_set_other by congruence.
      now rewrite get_set_other by congruence.
    + exists x, y; repeat split; auto.
      * rewrite get_set_other by neq_keys. apply get_set_same.
      * apply get_set_same.
  - eexists; split; [reflexivity|]; split; auto.
Qed.

Lemma normalize_line_items_spec rates c items :
  valid_rates rates = true ->
  forallb item_contract items = true ->
  exists items', normalize_line_items rates c items = Ok items'
                 /\ Forall2 (item_enriched rates c) items items'.
Proof.
  intros Hv; induction items as [|item rest IH]; simpl; intros Hc.
  - eexists; split; [reflexivity|constructor].
  - apply andb_true_iff in Hc as [Hi Hr].
    destruct (normalize_line_item_spec rates c item Hv Hi) as (item' & -> & He).
    destruct (IH Hr) as (rest' & -> & Hf); simpl.
    eexists; split; [reflexivity|]; now constructor.
Qed.

Lemma normalize_currency_data_spec repr rates inv :
  valid_rates rates = true ->
  contract inv = true ->
  exists r, normalize_currency_data repr rates inv = Ok r
            /\ normalized repr rates inv r.
Proof.
  intros Hv Hc; unfold normalize_currency_data.
  change (py_str repr (get_default inv K_vendor_name (VStr []))
            ++ u " " ++ py_str repr (get_default inv K_invoice_number (VStr []))
            ++ u " " ++ py_str repr (get_default inv K_invoice_date (VStr [])))
    with (detection_text repr inv).
  destruct (detect_currency (detection_text repr inv)) as [c conf] eqn:Hd.
  apply andb_true_iff in Hc as [Ht Hl].
  set (d3 := set (set (set inv K_currency (VStr c)) K_currency_confidence (VNum conf))
                 K_currency_symbol (VStr (get_currency_symbol c))).
  assert (F3 : forall k, k <> K_currency -> k <> K_currency_confidence ->
                         k <> K_currency_symbol -> get d3 k = get inv k).
  { intros k H1 H2 H3; unfold d3.
    rewrite !get_set_other by congruence; reflexivity. }
  assert (C3 : get d3 K_currency = Some (VStr c)
               /\ get d3 K_currency_confidence = Some (VNum conf)
               /\ get d3 K_currency_symbol = Some (VStr (get_currency_symbol c))).
  { unfold d3; repeat split.
    - rewrite !get_set_other by neq_keys. apply get_set_same.
    - rewrite get_set_other by neq_keys. apply get_set_same.
    - apply get_set_same. }
  destruct C3 as (C3a & C3b & C3c).
  rewrite (F3 K_total_amount) by neq_keys.
  assert (M : exists d5,
             match get inv K_total_amount with
             | Some v =>
                 total_amount <- as_number v;;
                 total_amount_usd <- convert_currency rates total_amount c (u "USD");;
                 Ok (set (set d3 K_total_amount_formatted
                            (VStr (format_currency total_amount c true)))
                       K_total_amount_usd (VNum total_amount_usd))
             | None => Ok d3
             end = Ok d5
             /\ (forall k, k <> K_total_amount_formatted -> k <> K_total_amount_usd ->
                           get d5 k = get d3 k)
             /\ match get inv K_total_amount with
                | Some v =>
                    exists a a_usd,
                      as_number v = Ok a
                      /\ convert_currency rates a c (u "USD") = Ok a_usd
                      /\ get d5 K_total_amount_formatted
                         = Some (VStr (format_currency a c true))
                      /\ get d5 K_total_amount_usd = Some (VNum a_usd)
                | None => d5 = d3
                end).
  { destruct (get inv K_total_amount) as [v|].
    - destruct (numeric_as_number _ Ht) as [a Ha]; rewrite Ha; simpl.
      destruct (convert_currency_total rates a c (u "USD") Hv) as [y Hy].
      rewrite Hy; simpl.
      eexists; split; [reflexivity|]; split.
      + intros k H1 H2; rewrite !get_set_other by congruence; reflexivity.
      + exists a, y; repeat split; auto.
        * rewrite get_set_other by neq_keys. apply get_set_same.
        * apply get_set_same.
    - exists d3; repeat split; auto. }
  destruct M as (d5 & -> & F5 & T5); simpl.
  assert (L5 : get d5 K_line_items = get inv K_line_items).
  { rewrite F5 by neq_keys. apply F3; neq_keys. }
  rewrite L5.
  assert (B : forall r,
             (forall k, k <> K_line_items -> get r k = get d5 k) ->
             match get inv K_line_items with
             | Some (VList items) =>
                 exists items',
                   get r K_line_items = Some (VList items')
                   /\ Forall2 (item_enriched rates c) items items'
             | other => get r K_line_items = other
             end ->
             normalized repr rates inv r).
  { intros r Fr Ir; rewrite <- L5 in Ir.
    constructor; rewrite ?Hd; simpl.
    - rewrite Fr by neq_keys. rewrite F5 by neq_keys. exact C3a.
    - rewrite Fr by neq_keys. rewrite F5 by neq_keys. exact C3b.
    - rewrite Fr by neq_keys. rewrite F5 by neq_keys. exact C3c.
    - intros k Hk Hl'. unfold derived_keys in Hk; simpl in Hk.
      rewrite Fr by assumption.
      rewrite F5 by (intuition congruence). apply F3; intuition congruence.
    - rewrite !Fr by neq_keys.
      destruct (get inv K_total_amount); [exact T5|].
      subst d5; split; apply F3; neq_keys.
    - rewrite L5 in Ir; exact Ir. }
  destruct (get inv K_line_items) as [[ | | | |items]|] eqn:Hli; try discriminate.
  - eexists; split; [reflexivity|]. apply B; auto.
  - destruct (normalize_line_items_spec rates c items Hv Hl) as (items' & -> & Hf); simpl.
    eexists; split; [reflexivity|]. apply B.
    + intros k Hk; apply get_set_other; congruence.
    + exists items'; split; [apply get_set_same|exact Hf].
  - eexists; split; [reflexivity|]. apply B; auto.
Qed.

Lemma numeric_py_float fot v : numeric v = true -> exists x, py_float fot v = Ok x.
Proof. destruct v; simpl; try discriminate; eauto. Qed.

Lemma get_default_usd_equivalent (d : invoice) :
  get_default d K_total_amount_usd (get_default d K_total_amount (VNum 0%float))
  = usd_equivalent_total d.
Proof.
  unfold get_default, usd_equivalent_total.
  destruct (get d K_total_amount_usd); [reflexivity|].
  now destruct (get d K_total_amount).
Qed.

Lemma usd_equivalent_total_set_flagged (d : invoice) v :
  usd_equivalent_total (set d K_flagged v) = usd_equivalent_total d.
Proof.
  unfold usd_equivalent_total.
  rewrite !get_set_other by neq_keys; reflexivity.
Qed.

(** C1. The [flagged] field of a processed record is true exactly when the
    USD-equivalent total (the [total_amount_usd] field, else [total_amount],
    else 0) is strictly above the threshold 5000.0; and a record that meets
    the input contract is processed without an exception. *)
Theorem flagged_iff_above_threshold
    (repr : value -> str) (float_of_text : str -> result float)
    (rates : dict float) (inv : invoice) :
  (forall r,
      _process_single_invoice repr float_of_text rates inv = Ok r ->
      exists a,
        py_float float_of_text (usd_equivalent_total r) = Ok a
        /\ get r K_flagged = Some (VBool (PrimFloat.ltb 5000.0 a))
        /\ (get r K_flagged = Some (VBool true) <-> PrimFloat.ltb 5000.0 a = true))
  /\ (valid_rates rates = true -> contract inv = true -> usd_contract inv = true ->
      exists r, _process_single_invoice repr float_of_text rates inv = Ok r).
Proof.
  unfold _process_single_invoice; split.
  - intros r H.
    destruct (normalize_currency_data repr rates inv) as [d|]; [|discriminate].
    simpl in H; rewrite get_default_usd_equivalent in H.
    destruct (py_float float_of_text (usd_equivalent_total d)) as [a|] eqn:Ha;
      [|discriminate].
    simpl in H; injection H as <-.
    exists a; rewrite usd_equivalent_total_set_flagged, get_set_same.
    repeat split; auto.
    + intros E; now injection E.
    + intros E; unfold FLAGGED_AMOUNT_THRESHOLD; now rewrite E.
  - intros Hv Hc Hu.
    destruct (normalize_currency_data_spec repr rates inv Hv Hc) as (d & -> & Hn).
    simpl; rewrite get_default_usd_equivalent.
    assert (Hnum : numeric (usd_equivalent_total d) = true).
    { unfold usd_equivalent_total, usd_contract in *.
      pose proof (norm_total _ _ _ _ Hn) as Ht.
      pose proof (norm_frame _ _ _ _ Hn K_total_amount) as Hf.
      destruct (get inv K_total_amount) as [v|].
      - destruct Ht as (a & a_usd & _ & _ & _ & ->); reflexivity.
      - destruct Ht as [_ ->].
        rewrite Hf; [|vm_compute; intuition discriminate|neq_keys].
        now destruct (get inv K_total_amount_usd). }
    destruct (numeric_py_float float_of_text _ Hnum) as [x ->]; simpl; eauto.
Qed.

Lemma flagged_iff_above_threshold_witness :
  exists r,
    _process_single_invoice no_repr no_float EXCHANGE_RATES sample_invoice = Ok r
    /\ get r K_flagged = Some (VBool true).
Proof.
  destruct (proj2 (flagged_iff_above_threshold no_repr no_float EXCHANGE_RATES
                     sample_invoice)) as [r Hr]; try reflexivity.
  exists r; split; [exact Hr|].
  destruct (proj1 (flagged_iff_above_threshold no_repr no_float EXCHANGE_RATES
                     sample_invoice) r Hr) as (a & Ha & Hf & _).
  vm_compute in Hr; injection Hr as <-.
  vm_compute in Ha; injection Ha as <-.
  exact Hf.
Defined.

Lemma item_enriched_keeps rates c item item' k v :
  item_enriched rates c item item' ->
  get item k = Some v ->
  k <> K_cost_formatted -> k <> K_cost_usd ->
  get item' k = Some v.
Proof. intros [Hf _] Hg H1 H2; now rewrite Hf. Qed.

Lemma Forall2_In_l {A B} (R : A -> B -> Prop) l l' x :
  Forall2 R l l' -> In x l -> exists y, In y l' /\ R x y.
Proof.
  induction 1 as [|a b l l' Hab _ IH]; simpl; [tauto|].
  intros [<-|Hx]; [eauto|].
  destruct (IH Hx) as (y & Hy & Hr); eauto.
Qed.

(** C9 (as amended). On a record that meets the input contract, with a table
    of non-zero rates, normalization raises nothing and returns the record
    enriched: the currency, its confidence and its symbol are stored, and
    with a [total_amount] so are its formatted form and its USD value; every
    key stays; every entry other than the five derived keys and [line_items]
    keeps its value; [line_items] keeps its items, in number
    and order, each with all its entries (description and cost among them)
    and, when it has a cost, with [cost_formatted] and [cost_usd] added, an
    item of cost 0.00 included; without [total_amount], [line_items] or a
    [cost], the corresponding derived fields are not added. *)
Theorem normalize_enriches_record (repr : value -> str) (rates : dict float)
    (inv : invoice) :
  valid_rates rates = true ->
  contract inv = true ->
  exists r c,
    normalize_currency_data repr rates inv = Ok r
    /\ c = fst (detect_currency (detection_text repr inv))
    /\ get r K_currency = Some (VStr c)
    /\ get r K_currency_confidence
       = Some (VNum (snd (detect_currency (detection_text repr inv))))
    /\ get r K_currency_symbol = Some (VStr (get_currency_symbol c))
    /\ (forall v,
          get inv K_total_amount = Some v ->
          exists a,
            as_number v = Ok a
            /\ get r K_total_amount_formatted = Some (VStr (format_currency a c true))
            /\ mem r K_total_amount_usd = true)
    /\ (forall k, mem inv k = true -> mem r k = true)
    /\ (forall k v, get inv k = Some v -> ~ In k derived_keys -> k <> K_line_items ->
                    get r k = Some v)
    /\ (forall items,
          get inv K_line_items = Some (VList items) ->
          exists items',
            get r K_line_items = Some (VList items')
            /\ List.length items' = List.length items
            /\ Forall2 (item_enriched rates c) items items'
            /\ (forall item,
                  In item items -> get item K_cost = Some (VNum 0%float) ->
                  exists item',
                    In item' items'
                    /\ get item' K_cost = Some (VNum 0%float)
                    /\ get item' K_description = get item K_description
                    /\ get item' K_cost_formatted
                       = Some (VStr (format_currency 0%float c true))
                    /\ mem item' K_cost_usd = true))
    /\ (get inv K_total_amount = None ->
        get r K_total_amount_formatted = get inv K_total_amount_formatted
        /\ get r K_total_amount_usd = get inv K_total_amount_usd)
    /\ (get inv K_line_items = None -> get r K_line_items = None).
Proof.
  intros Hv Hc.
  destruct (normalize_currency_data_spec repr rates inv Hv Hc) as (r & Hr & Hn).
  exists r, (fst (detect_currency (detection_text repr inv))).
  split; [exact Hr|]; split; [reflexivity|].
  pose proof (norm_items _ _ _ _ Hn) as Hi.
  pose proof (norm_total _ _ _ _ Hn) as Ht.
  pose proof (norm_frame _ _ _ _ Hn) as Hf.
  split; [exact (norm_currency _ _ _ _ Hn)|].
  split; [exact (norm_confidence _ _ _ _ Hn)|].
  split; [exact (norm_symbol _ _ _ _ Hn)|].
  split.
  { intros v Hval; rewrite Hval in Ht.
    destruct Ht as (a & a_usd & Ha & _ & Hfmt & Husd).
    exists a; repeat split; auto.
    unfold mem; now rewrite Husd. }
  split; [|split; [|split; [|split]]].
  - intros k Hk; unfold mem in *.
    destruct (str_eqb_spec k K_line_items) as [->|Hl].
    + destruct (get inv K_line_items) as [[ | | | |items]|];
        try discriminate; try (now rewrite Hi).
      destruct Hi as (items' & -> & _); reflexivity.
    + destruct (in_dec (list_eq_dec N.eq_dec) k derived_keys) as [Hd|Hd].
      * simpl in Hd.
        destruct Hd as [<-|[<-|[<-|[<-|[<-|[]]]]]].
        -- now rewrite (norm_currency _ _ _ _ Hn).
        -- now rewrite (norm_confidence _ _ _ _ Hn).
        -- now rewrite (norm_symbol _ _ _ _ Hn).
        -- destruct (get inv K_total_amount).
           ++ destruct Ht as (a & a_usd & _ & _ & -> & _); reflexivity.
           ++ destruct Ht as [-> _]; exact Hk.
        -- destruct (get inv K_total_amount).
           ++ destruct Ht as (a & a_usd & _ & _ & _ & ->); reflexivity.
           ++ destruct Ht as [_ ->]; exact Hk.
      * now rewrite Hf.
  - intros k v Hg Hd Hl; now rewrite Hf.
  - intros items Hitems; rewrite Hitems in Hi.
    destruct Hi as (items' & Hg & HF).
    exists items'; repeat split; auto.
    + symmetry; eapply Forall2_length; eauto.
    + intros item Hin Hcost.
      destruct (Forall2_In_l _ _ _ _ HF Hin) as (item' & Hin' & He).
      exists item'; split; [exact Hin'|].
      pose proof He as [Hfr Hen].
      rewrite Hcost in Hen; destruct Hen as (x & x_usd & Hx & _ & Hfmt & Husd).
      simpl in Hx; injection Hx as <-.
      repeat split.
      * rewrite Hfr by neq_keys; exact Hcost.
      * apply Hfr; neq_keys.
      * exact Hfmt.
      * unfold mem; now rewrite Husd.
  - intros E; now rewrite E in Ht.
  - intros E; now rewrite E in Hi.
Qed.

Lemma normalize_enriches_record_witness :
  exists r c,
    normalize_currency_data no_repr EXCHANGE_RATES sample_invoice = Ok r
    /\ c = u "USD"
    /\ get r K_vendor_name = Some (VStr (u "Acme Tools")).
Proof.
  destruct (normalize_enriches_record no_repr EXCHANGE_RATES sample_invoice)
    as (r & c & Hr & Hc & _ & _ & _ & _ & _ & Hf & _); try reflexivity.
  exists r, c; split; [exact Hr|]; split; [exact Hc|].
  apply Hf; [reflexivity| |neq_keys].
  vm_compute; intuition discriminate.
Defined.

(** C9, as stated, fails: an entry under a derived key does not keep its
    value. The record holds [currency: "EUR"]; the text "Acme Tools" names no
    currency, and normalization stores [currency: "USD"] over it. *)
Lemma normalize_overwrites_derived_key :
  ~ (forall inv r k v,
        normalize_currency_data no_repr EXCHANGE_RATES inv = Ok r ->
        get inv k = Some v -> get r k = Some v).
Proof.
  intros H.
  specialize (H relabelled_invoice _ K_currency (VStr (u "EUR")) eq_refl eq_refl).
  vm_compute in H; discriminate H.
Qed.

Lemma starts_with_spec n h : starts_with n h = true <-> exists post, h = n ++ post.
Proof.
  revert h; induction n as [|x n IH]; intros h; simpl.
  - split; eauto.
  - destruct h as [|y h].
    + split; [discriminate|]. intros [post H]; discriminate.
    + rewrite andb_true_iff, IH, N.eqb_eq; split.
      * intros [-> [post ->]]; eauto.
      * intros [post H]; injection H as -> ->; eauto.
Qed.

Lemma contains_spec n h : contains n h = true <-> occurs n h.
Proof.
  unfold occurs; induction h as [|y h IH]; simpl.
  - rewrite orb_false_r, starts_with_spec; split.
    + intros [post H]; exists [], post; exact H.
    + intros (pre & post & H). destruct pre; simpl in H; [eauto|discriminate].
  - rewrite orb_true_iff, starts_with_spec, IH; split.
    + intros [[post H]|(pre & post & H)].
      * exists [], post; exact H.
      * exists (y :: pre), post; simpl; now rewrite H.
    + intros (pre & post & H). destruct pre as [|z pre]; simpl in H.
      * left; eauto.
      * right; injection H as _ H; eauto.
Qed.

Lemma match_prefix_ci_spec l t rest :
  match_prefix_ci l t = Some rest <-> exists m, t = m ++ rest /\ matches_ci l m.
Proof.
  unfold matches_ci; revert t; induction l as [|p l IH]; intros t; simpl.
  - split.
    + intros H; injection H as ->; exists []; split; [reflexivity|constructor].
    + intros (m & -> & H); inversion H; reflexivity.
  - destruct t as [|c t].
    + split; [discriminate|].
      intros (m & E & H); inversion H; subst; discriminate.
    + destruct (char_matches_ci p c) eqn:Hpc.
      * rewrite IH; split.
        -- intros (m & -> & H); exists (c :: m); split; [reflexivity|].
           now constructor.
        -- intros (m & E & H); inversion H; subst.
           injection E as -> ->; eauto.
      * split; [discriminate|].
        intros (m & E & H); inversion H; subst.
        injection E as -> ->; congruence.
Qed.

Lemma branch_matches_at_spec b t :
  branch_matches_at b t = true
  <-> exists m post, t = m ++ post /\ matches_ci (literal b) m
                     /\ (not_before_space b = true -> next_is_space post = false).
Proof.
  unfold branch_matches_at; split.
  - destruct (match_prefix_ci (literal b) t) as [rest|] eqn:E; [|discriminate].
    apply match_prefix_ci_spec in E as (m & -> & Hm).
    intros H; exists m, rest; repeat split; auto.
    intros Hb; rewrite Hb in H; now apply negb_true_iff in H.
  - intros (m & post & -> & Hm & Hs).
    assert (E : match_prefix_ci (literal b) (m ++ post) = Some post)
      by (apply match_prefix_ci_spec; eauto).
    rewrite E; destruct (not_before_space b); [|reflexivity].
    now rewrite Hs.
Qed.

Lemma re_search_spec p t : re_search p t = true <-> pattern_occurs p t.
Proof.
  unfold pattern_occurs, branch_occurs; induction t as [|c t IH]; simpl.
  - rewrite orb_false_r; unfold pattern_matches_at; rewrite existsb_exists; split.
    + intros (b & Hb & H); exists b; split; [exact Hb|].
      apply branch_matches_at_spec in H as (m & post & E & Hm & Hs).
      exists [], m, post; auto.
    + intros (b & Hb & pre & m & post & E & Hm & Hs); exists b; split; [exact Hb|].
      apply branch_matches_at_spec.
      destruct pre; [|discriminate]. exists m, post; auto.
  - rewrite orb_true_iff, IH; unfold pattern_matches_at; rewrite existsb_exists; split.
    + intros [(b & Hb & H)|(b & Hb & pre & m & post & E & Hm & Hs)].
      * exists b; split; [exact Hb|].
        apply branch_matches_at_spec in H as (m & post & E & Hm & Hs).
        exists [], m, post; auto.
      * exists b; split; [exact Hb|].
        exists (c :: pre), m, post; simpl; rewrite E; auto.
    + intros (b & Hb & pre & m & post & E & Hm & Hs).
      destruct pre as [|c' pre]; simpl in E.
      * left; exists b; split; [exact Hb|].
        apply branch_matches_at_spec; exists m, post; auto.
      * right; injection E as _ E; exists b; split; [exact Hb|].
        exists pre, m, post; auto.
Qed.

Lemma scan_first_hit {A} (test : A -> bool) (hit : A -> Prop) table code :
  (forall a, test a = true <-> hit a) ->
  first_hit hit table code -> scan test table = Some code.
Proof.
  intros Hth (before & a & after & -> & Ha & Hb).
  induction before as [|[a' c'] before IH]; simpl.
  - apply Hth in Ha; now rewrite Ha.
  - inversion Hb as [|? ? Hn Hb']; subst; simpl in Hn.
    destruct (test a') eqn:E; [apply Hth in E; contradiction|].
    now apply IH.
Qed.

Lemma scan_no_hit {A} (test : A -> bool) (hit : A -> Prop) table :
  (forall a, test a = true <-> hit a) ->
  no_hit hit table -> scan test table = None.
Proof.
  intros Hth; induction 1 as [|[a c] table Hn _ IH]; simpl; [reflexivity|].
  destruct (test a) eqn:E; [apply Hth in E; contradiction|exact IH].
Qed.

Lemma scan_Some_first_hit {A} (test : A -> bool) (hit : A -> Prop) table code :
  (forall a, test a = true <-> hit a) ->
  scan test table = Some code -> first_hit hit table code.
Proof.
  intros Hth; induction table as [|[a c] table IH]; simpl; [discriminate|].
  destruct (test a) eqn:E.
  - intros H; injection H as ->.
    exists [], a, table; repeat split; [now apply Hth|constructor].
  - intros H; destruct (IH H) as (before & a' & after & -> & Ha & Hb).
    exists ((a, c) :: before), a', after; repeat split; auto.
    constructor; auto; simpl.
    intros Hh; apply Hth in Hh; congruence.
Qed.

Lemma scan_None_no_hit {A} (test : A -> bool) (hit : A -> Prop) table :
  (forall a, test a = true <-> hit a) ->
  scan test table = None -> no_hit hit table.
Proof.
  intros Hth; induction table as [|[a c] table IH]; simpl; [constructor|].
  destruct (test a) eqn:E; [discriminate|].
  intros H; constructor; [simpl|now apply IH].
  intros Hh; apply Hth in Hh; congruence.
Qed.

Lemma scan_In {A} (test : A -> bool) table code :
  scan test table = Some code -> In code (map snd table).
Proof.
  induction table as [|[a c] table IH]; simpl; [discriminate|].
  destruct (test a); [intros H; injection H as ->; now left|auto].
Qed.

(** C4 (as amended). The cascade of [detect_currency]: the empty text gives
    (USD, 0.5); otherwise the first pattern of the list that matches somewhere
    in the text, ignoring case, gives its code with 0.9; otherwise the first
    alias, in insertion order, that occurs in the lowered text gives its code
    with 0.85; otherwise the first symbol that occurs in the text gives its
    code with 0.88; otherwise (USD, 0.5). A text with a "$" that is not
    directly followed by whitespace is USD with 0.9, whatever else it holds
    (the word "Euro" included). *)
Theorem detect_currency_cascade (text : str) :
  (text = [] -> detect_currency text = (u "USD", 0.5%float))
  /\ (text <> [] ->
      (forall code,
          first_hit (fun p => pattern_occurs p text) CURRENCY_PATTERNS code ->
          detect_currency text = (code, 0.9%float))
      /\ (no_hit (fun p => pattern_occurs p text) CURRENCY_PATTERNS ->
          (forall code,
              first_hit (fun name => occurs name (lower text)) CURRENCY_NAMES code ->
              detect_currency text = (code, 0.85%float))
          /\ (no_hit (fun name => occurs name (lower text)) CURRENCY_NAMES ->
              (forall code,
                  first_hit (fun symbol => occurs symbol text) CURRENCY_SYMBOLS code ->
                  detect_currency text = (code, 0.88%float))
              /\ (no_hit (fun symbol => occurs symbol text) CURRENCY_SYMBOLS ->
                  detect_currency text = (u "USD", 0.5%float)))))
  /\ (forall pre post,
         text = pre ++ u "$" ++ post -> next_is_space post = false ->
         detect_currency text = (u "USD", 0.9%float)).
Proof.
  assert (HP : forall p, re_search p text = true <-> pattern_occurs p text)
    by (intros p; apply re_search_spec).
  assert (HN : forall n, contains n (lower text) = true <-> occurs n (lower text))
    by (intros n; apply contains_spec).
  assert (HS : forall n, contains n text = true <-> occurs n text)
    by (intros n; apply contains_spec).
  assert (Main :
            text <> [] ->
            (forall code,
                first_hit (fun p => pattern_occurs p text) CURRENCY_PATTERNS code ->
                detect_currency text = (code, 0.9%float))
            /\ (no_hit (fun p => pattern_occurs p text) CURRENCY_PATTERNS ->
                (forall code,
                    first_hit (fun name => occurs name (lower text)) CURRENCY_NAMES code ->
                    detect_currency text = (code, 0.85%float))
                /\ (no_hit (fun name => occurs name (lower text)) CURRENCY_NAMES ->
                    (forall code,
                        first_hit (fun symbol => occurs symbol text) CURRENCY_SYMBOLS code ->
                        detect_currency text = (code, 0.88%float))
                    /\ (no_hit (fun symbol => occurs symbol text) CURRENCY_SYMBOLS ->
                        detect_currency text = (u "USD", 0.5%float))))).
  { intros Hne; destruct text as [|c0 text0]; [congruence|].
    unfold detect_currency; split.
    - intros code H. now rewrite (scan_first_hit _ _ _ _ HP H).
    - intros H1; rewrite (scan_no_hit _ _ _ HP H1); split.
      + intros code H. now rewrite (scan_first_hit _ _ _ _ HN H).
      + intros H2; rewrite (scan_no_hit _ _ _ HN H2); split.
        * intros code H. now rewrite (scan_first_hit _ _ _ _ HS H).
        * intros H3; now rewrite (scan_no_hit _ _ _ HS H3). }
  split; [intros ->; reflexivity|]; split; [exact Main|].
  intros pre post E Hs.
  assert (Hne : text <> []) by (rewrite E; destruct pre; discriminate).
  apply (proj1 (Main Hne)).
  exists [], [lit "USD"; lit_not_before_space "$"; lit "US$"],
    (tl CURRENCY_PATTERNS).
  split; [reflexivity|]; split; [|constructor].
  exists (lit_not_before_space "$"); split; [simpl; tauto|].
  exists pre, (u "$"), post; repeat split; auto.
  repeat constructor.
Qed.

Lemma detect_currency_cascade_witness :
  detect_currency (u "Pay $100 or 92 Euro") = (u "USD", 0.9%float).
Proof.
  apply (proj2 (proj2 (detect_currency_cascade (u "Pay $100 or 92 Euro")))
           (u "Pay ") (u "100 or 92 Euro")); reflexivity.
Defined.

(** C4, as stated, fails on its example: a text with a "$" and the word
    "Euro" in which the "$" stands before a space. The USD pattern asks for a
    "$" not followed by whitespace, so the EUR pattern is the first to match. *)
Lemma dollar_before_space_is_not_usd :
  contains (u "$") (u "$ 5 Euro") = true
  /\ contains (u "Euro") (u "$ 5 Euro") = true
  /\ detect_currency (u "$ 5 Euro") = (u "EUR", 0.9%float)
  /\ fst (detect_currency (u "$ 5 Euro")) <> u "USD".
Proof.
  repeat split; vm_compute; discriminate.
Qed.

Lemma detect_currency_code text : In (fst (detect_currency text)) detected_codes.
Proof.
  unfold detect_currency, detected_codes.
  destruct text as [|c0 text0]; [now left|].
  destruct_scan CURRENCY_PATTERNS E1.
  { right; apply in_or_app; left; exact (scan_In _ _ _ E1). }
  destruct_scan CURRENCY_NAMES E2.
  { right; apply in_or_app; right; apply in_or_app; left; exact (scan_In _ _ _ E2). }
  destruct_scan CURRENCY_SYMBOLS E3.
  { right; apply in_or_app; right; apply in_or_app; right; exact (scan_In _ _ _ E3). }
  now left.
Qed.

Lemma detect_currency_confidence text :
  In (snd (detect_currency text)) [0.5; 0.85; 0.88; 0.9]%float.
Proof.
  unfold detect_currency.
  destruct text as [|c0 text0]; [now left|].
  destruct_scan CURRENCY_PATTERNS E1; [simpl; tauto|].
  destruct_scan CURRENCY_NAMES E2; [simpl; tauto|].
  destruct_scan CURRENCY_SYMBOLS E3; simpl; tauto.
Qed.

Lemma detected_codes_have_rates :
  forallb (mem EXCHANGE_RATES) detected_codes = true.
Proof. reflexivity. Qed.

Lemma detect_currency_has_rate text :
  mem EXCHANGE_RATES (fst (detect_currency text)) = true.
Proof.
  pose proof detected_codes_have_rates as H.
  rewrite forallb_forall in H; apply H, detect_currency_code.
Qed.

Lemma convert_currency_with_rate a c :
  mem EXCHANGE_RATES c = true ->
  convert_currency_path EXCHANGE_RATES c (u "USD") <> UnknownRate
  /\ exists y, convert_currency EXCHANGE_RATES a c (u "USD") = Ok y
               /\ known_rate_conversion a c y.
Proof.
  unfold mem, known_rate_conversion; intros H.
  destruct (get EXCHANGE_RATES c) as [rate|] eqn:Hr; [|discriminate].
  destruct (str_eqb_spec c (u "USD")) as [->|Hne].
  - split; [discriminate|].
    exists a; split; [reflexivity|]; exists rate; split; reflexivity.
  - split.
    + unfold convert_currency_path.
      rewrite (str_eqb_neq _ _ Hne), Hr; discriminate.
    + eexists; split.
      * apply (convert_currency_known _ a c (u "USD") rate 1.0%float
                 baseline_rates_valid Hne Hr eq_refl).
      * exists rate; split; [reflexivity|].
        unfold pivot; now rewrite (str_eqb_neq _ _ Hne).
Qed.

(** C10. Whatever the text, [detect_currency] returns a confidence among
    0.5, 0.85, 0.88 and 0.9 and a code that is a key of the baseline rate
    table. So the conversions of normalization never take the unknown-rate
    way out: [total_amount_usd] and every [cost_usd] are the amount itself
    when the detected currency is USD, and otherwise the amount divided by
    the rate of the detected currency, times the rate of USD, rounded. *)
Theorem detected_currency_is_convertible
    (text : str) (repr : value -> str) (inv : invoice) :
  In (snd (detect_currency text)) [0.5; 0.85; 0.88; 0.9]%float
  /\ mem EXCHANGE_RATES (fst (detect_currency text)) = true
  /\ convert_currency_path EXCHANGE_RATES (fst (detect_currency text)) (u "USD")
     <> UnknownRate
  /\ (contract inv = true ->
      exists r c,
        normalize_currency_data repr EXCHANGE_RATES inv = Ok r
        /\ get r K_currency = Some (VStr c)
        /\ convert_currency_path EXCHANGE_RATES c (u "USD") <> UnknownRate
        /\ (forall v,
              get inv K_total_amount = Some v ->
              exists a y,
                as_number v = Ok a
                /\ get r K_total_amount_usd = Some (VNum y)
                /\ known_rate_conversion a c y)
        /\ (forall items,
              get inv K_line_items = Some (VList items) ->
              exists items',
                get r K_line_items = Some (VList items')
                /\ Forall2
                     (fun item item' =>
                        forall v,
                          get item K_cost = Some v ->
                          exists x y,
                            as_number v = Ok x
                            /\ get item' K_cost_usd = Some (VNum y)
                            /\ known_rate_conversion x c y)
                     items items')).
Proof.
  split; [apply detect_currency_confidence|].
  split; [apply detect_currency_has_rate|].
  split.
  { exact (proj1 (convert_currency_with_rate 0%float _
                    (detect_currency_has_rate text))). }
  intros Hc.
  destruct (normalize_currency_data_spec repr EXCHANGE_RATES inv
              baseline_rates_valid Hc) as (r & Hr & Hn).
  set (c := fst (detect_currency (detection_text repr inv))) in *.
  assert (Hm : mem EXCHANGE_RATES c = true) by apply detect_currency_has_rate.
  assert (Hk : forall a y,
             convert_currency EXCHANGE_RATES a c (u "USD") = Ok y ->
             known_rate_conversion a c y).
  { intros a y Hy.
    destruct (convert_currency_with_rate a c Hm) as (_ & y' & Hy' & K).
    congruence. }
  exists r, c; split; [exact Hr|].
  split; [exact (norm_currency _ _ _ _ Hn)|].
  split; [exact (proj1 (convert_currency_with_rate 0%float c Hm))|].
  split.
  - intros v Hv.
    pose proof (norm_total _ _ _ _ Hn) as Ht; rewrite Hv in Ht.
    destruct Ht as (a & y & Ha & Hy & _ & Hu).
    exists a, y; auto.
  - intros items Hi.
    pose proof (norm_items _ _ _ _ Hn) as Hl; rewrite Hi in Hl.
    destruct Hl as (items' & Hg & HF).
    exists items'; split; [exact Hg|].
    eapply Forall2_impl; [|exact HF].
    intros item item' [_ He] v Hv; rewrite Hv in He.
    destruct He as (x & y & Hx & Hy & _ & Hu).
    exists x, y; auto.
Qed.

Lemma detected_currency_is_convertible_witness :
  exists r,
    normalize_currency_data no_repr EXCHANGE_RATES euro_invoice = Ok r
    /\ get r K_currency = Some (VStr (u "EUR"))
    /\ get r K_total_amount_usd = Some (VNum 108.7%float).
Proof.
  destruct (proj2 (proj2 (proj2
              (detected_currency_is_convertible [] no_repr euro_invoice))))
    as (r & c & Hr & _); [reflexivity|].
  exists r; split; [exact Hr|].
  vm_compute in Hr; injection Hr as <-.
  split; reflexivity.
Defined.


(** ** CurrencyFormatter *)

Lemma is_digit_digit d : 0 <= d <= 9 -> is_digit (digit d) = true.
Proof.
  intros H; unfold is_digit, digit.
  apply andb_true_iff; split; apply N.leb_le; lia.
Qed.

Lemma is_digit_not_comma c : is_digit c = true -> c <> comma.
Proof.
  unfold is_digit, comma; intros H ->; discriminate H.
Qed.

Lemma digits_rev_digits fuel n : digits_only (digits_rev fuel n).
Proof.
  unfold digits_only; revert n; induction fuel as [|fuel IH]; intros n; simpl.
  - constructor.
  - constructor.
    + apply is_digit_digit.
      pose proof (Z.mod_pos_bound n 10); lia.
    + destruct (n <? 10); [constructor|apply IH].
Qed.

Lemma int_digits_digits n : digits_only (int_digits n).
Proof.
  unfold int_digits, digits_only.
  apply Forall_rev, digits_rev_digits.
Qed.

Lemma int_digits_nonempty n : int_digits n <> [].
Proof.
  unfold int_digits; simpl.
  intros H; apply (f_equal (@List.length _)) in H.
  rewrite length_app in H; simpl in H; lia.
Qed.

Lemma digits_rev_four fuel n :
  1000 <= n ->
  exists d0 d1 d2 d3 tail,
    digits_rev (S (S (S (S fuel)))) n = d0 :: d1 :: d2 :: d3 :: tail.
Proof.
  intros H; simpl.
  assert (H1 : (n <? 10) = false) by (apply Z.ltb_ge; lia).
  assert (H2 : (n / 10 <? 10) = false).
  { apply Z.ltb_ge. apply Z.div_le_lower_bound; lia. }
  assert (H3 : (n / 10 / 10 <? 10) = false).
  { apply Z.ltb_ge. apply Z.div_le_lower_bound; [lia|].
    apply Z.div_le_lower_bound; lia. }
  rewrite H1, H2, H3; eauto 6.
Qed.

Lemma group3_rev_rev ds : rev (group3 ds) = group3_rev (rev ds).
Proof. unfold group3; apply rev_involutive. Qed.

Lemma int_digits_grouped_has_comma n :
  1000 <= n -> In comma (group3 (int_digits n)).
Proof.
  intros H; apply in_rev; rewrite group3_rev_rev.
  unfold int_digits; rewrite rev_involutive.
  assert (L : 9 <= Z.log2 n) by (change 9 with (Z.log2 1000); now apply Z.log2_le_mono).
  destruct (Z.to_nat (Z.log2 n)) as [|[|[|f]]] eqn:E; try lia.
  destruct (digits_rev_four f n H) as (d0 & d1 & d2 & d3 & tail & ->).
  simpl; tauto.
Qed.

Lemma group3_rev_filter r :
  Forall (fun c => c <> comma) r ->
  filter (fun c => negb (c =? comma)%N) (group3_rev r) = r.
Proof.
  assert (K : forall c, c <> comma -> negb (c =? comma)%N = true).
  { intros c Hc; apply negb_true_iff, N.eqb_neq, Hc. }
  assert (G : forall n r, (List.length r <= n)%nat ->
                          Forall (fun c => c <> comma) r ->
                          filter (fun c => negb (c =? comma)%N) (group3_rev r) = r).
  { induction n as [|n IH]; intros r0 Hl Hf.
    - destruct r0; [reflexivity|simpl in Hl; lia].
    - destruct r0 as [|a [|b [|c [|d rest]]]];
        repeat match goal with
               | H : Forall _ (_ :: _) |- _ => inversion H; clear H; subst
               end;
        simpl; rewrite ?K by assumption; try reflexivity.
      simpl.
      assert (E : filter (fun c => negb (c =? comma)%N) (group3_rev (d :: rest))
                  = d :: rest).
      { apply IH; [simpl in *; lia|now constructor]. }
      simpl in E. now rewrite E. }
  intros Hf; now apply (G (List.length r)).
Qed.

Lemma mod4_step i : ((4 + i) mod 4 = i mod 4)%nat.
Proof.
  replace (4 + i)%nat with (i + 1 * 4)%nat by lia.
  apply Nat.Div0.mod_add.
Qed.

Lemma group3_rev_commas r :
  Forall (fun c => c <> comma) r ->
  forall i,
    nth_error (group3_rev r) i = Some comma
    <-> (i mod 4 = 3 /\ i < List.length (group3_rev r))%nat.
Proof.
  assert (G : forall n r, (List.length r <= n)%nat ->
                          Forall (fun c => c <> comma) r ->
                          forall i,
                            nth_error (group3_rev r) i = Some comma
                            <-> (i mod 4 = 3 /\ i < List.length (group3_rev r))%nat).
  { induction n as [|n IH]; intros r0 Hl Hf i.
    - destruct r0; [|simpl in Hl; lia].
      destruct i; simpl; split; try discriminate; intros [_ H]; lia.
    - destruct r0 as [|a [|b [|c [|d rest]]]];
        repeat match goal with
               | H : Forall _ (_ :: _) |- _ => inversion H; clear H; subst
               end.
      + destruct i; simpl; split; try discriminate; intros [_ H]; lia.
      + destruct i as [|[|i]]; simpl; split;
          try discriminate; try congruence; try (intros [Hm Hb]; simpl in Hm; lia).
      + destruct i as [|[|[|i]]]; simpl; split;
          try discriminate; try congruence; try (intros [Hm Hb]; simpl in Hm; lia).
      + destruct i as [|[|[|[|i]]]]; simpl; split;
          try discriminate; try congruence; try (intros [Hm Hb]; simpl in Hm; lia).
      + change (group3_rev (a :: b :: c :: d :: rest))
          with (a :: b :: c :: comma :: group3_rev (d :: rest)).
        destruct i as [|[|[|[|i]]]];
          try (simpl; split; [congruence|intros [Hm Hb]; simpl in Hm; lia]).
        * simpl; split; [intros _; split; [reflexivity|lia]|reflexivity].
        * change (nth_error (a :: b :: c :: comma :: group3_rev (d :: rest))
                    (S (S (S (S i)))))
            with (nth_error (group3_rev (d :: rest)) i).
          change (S (S (S (S i)))) with (4 + i)%nat.
          rewrite mod4_step.
          rewrite (IH (d :: rest)); [|simpl in *; lia|now constructor].
          change (List.length (a :: b :: c :: comma :: group3_rev (d :: rest)))
            with (4 + List.length (group3_rev (d :: rest)))%nat.
          split; intros [Hm Hb]; split; auto; lia. }
  intros Hf; now apply (G (List.length r)).
Qed.

Lemma group3_separated ds : digits_only ds -> thousands_separated ds (group3 ds).
Proof.
  intros Hd.
  assert (Hn : Forall (fun c => c <> comma) (rev ds)).
  { apply Forall_rev. eapply Forall_impl; [|exact Hd].
    intros c; apply is_digit_not_comma. }
  split.
  - unfold group3.
    rewrite filter_rev, group3_rev_filter by exact Hn.
    apply rev_involutive.
  - intros i; rewrite group3_rev_rev.
    rewrite (group3_rev_commas _ Hn).
    unfold group3; now rewrite length_rev.
Qed.

Lemma digits2_pos_lower m : 2 ^ (Z.pos (digits2_pos m) - 1) <= Z.pos m.
Proof.
  induction m as [m IH|m IH|]; simpl digits2_pos.
  - rewrite Pos2Z.inj_succ.
    replace (Z.succ (Z.pos (digits2_pos m)) - 1)
      with (Z.succ (Z.pos (digits2_pos m) - 1)) by lia.
    rewrite Z.pow_succ_r by lia. lia.
  - rewrite Pos2Z.inj_succ.
    replace (Z.succ (Z.pos (digits2_pos m)) - 1)
      with (Z.succ (Z.pos (digits2_pos m) - 1)) by lia.
    rewrite Z.pow_succ_r by lia. lia.
  - simpl; lia.
Qed.

(** A normal binary64 mantissa has 53 bits. *)
Lemma valid_mantissa_lower m e :
  valid_binary (S754_finite false m e) = true -> -1074 < e -> 2 ^ 52 <= Z.pos m.
Proof.
  unfold SpecFloat.valid_binary, bounded, canonical_mantissa, fexp, emin, prec, emax.
  intros H He; apply andb_true_iff in H as [H _]; apply Z.eqb_eq in H.
  assert (E : Z.pos (digits2_pos m) = 53) by lia.
  pose proof (digits2_pos_lower m) as L; rewrite E in L; exact L.
Qed.

Lemma round_half_even_div_lower n d : n / d <= round_half_even_div n d.
Proof.
  unfold round_half_even_div.
  destruct (2 * (n mod d) <? d); [lia|].
  destruct (d <? 2 * (n mod d)); [lia|].
  destruct (Z.even (n / d)); lia.
Qed.

Lemma hundredths_of_thousand m e :
  valid_binary (S754_finite false m e) = true ->
  -43 < e \/ (e = -43 /\ 8796093022208000 <= Z.pos m) ->
  100000 <= hundredths m e.
Proof.
  intros Hv H; unfold hundredths.
  destruct (Z.leb_spec 0 e) as [He|He].
  - pose proof (valid_mantissa_lower m e Hv ltac:(lia)) as Hm.
    assert (0 < 2 ^ e) by (apply Z.pow_pos_nonneg; lia).
    assert (4503599627370496 <= Z.pos m) by (change 4503599627370496 with (2 ^ 52); exact Hm).
    nia.
  - etransitivity; [|apply round_half_even_div_lower].
    assert (Hd : 0 < 2 ^ (- e)) by (apply Z.pow_pos_nonneg; lia).
    apply Z.div_le_lower_bound; [exact Hd|].
    destruct H as [H|[-> H]].
    + pose proof (valid_mantissa_lower m e Hv ltac:(lia)) as Hm.
      assert (Hp : 2 ^ (- e) <= 2 ^ 42) by (apply Z.pow_le_mono_r; lia).
      change (2 ^ 52) with 4503599627370496 in Hm.
      change (2 ^ 42) with 4398046511104 in Hp.
      lia.
    + change (2 ^ (- -43)) with 8796093022208. lia.
Qed.

Lemma thousand_or_more a :
  PrimFloat.leb 1000 a = true ->
  finite_amount a = true ->
  exists m e, Prim2SF a = S754_finite false m e /\ 100000 <= hundredths m e.
Proof.
  intros Hl Hf; unfold finite_amount in Hf.
  rewrite leb_spec in Hl.
  pose proof (Prim2SF_valid a) as Hv.
  change (Prim2SF 1000) with (S754_finite false 8796093022208000 (-43)) in Hl.
  destruct (Prim2SF a) as [s|s| |s m e]; try discriminate.
  unfold SFleb, SFcompare in Hl.
  destruct s; [discriminate|].
  exists m, e; split; [reflexivity|].
  apply hundredths_of_thousand; [exact Hv|].
  destruct (Z.compare_spec (-43) e) as [E|E|E]; try discriminate; [|lia].
  right; split; [lia|].
  change (Pos.compare_cont Eq 8796093022208000 m)
    with (8796093022208000 ?= m)%positive in Hl.
  destruct (Pos.compare_spec 8796093022208000 m); try discriminate; lia.
Qed.

Lemma fixed2_shape grouping n :
  exists ds d1 d2,
    fixed2 grouping n = (if grouping then group3 ds else ds) ++ [point; d1; d2]
    /\ ds = int_digits (n / 100)
    /\ ds <> [] /\ digits_only ds /\ is_digit d1 = true /\ is_digit d2 = true.
Proof.
  exists (int_digits (n / 100)), (digit (n mod 100 / 10)), (digit (n mod 10)).
  split; [reflexivity|]; split; [reflexivity|].
  split; [apply int_digits_nonempty|]; split; [apply int_digits_digits|].
  split; apply is_digit_digit.
  - pose proof (Z.mod_pos_bound n 100 ltac:(lia)) as H.
    split; [apply Z.div_pos; lia|].
    assert (n mod 100 / 10 < 10) by (apply Z.div_lt_upper_bound; lia). lia.
  - pose proof (Z.mod_pos_bound n 10 ltac:(lia)); lia.
Qed.

Lemma format_f2_shape grouping a :
  finite_amount a = true -> two_decimal_number grouping (format_f2 grouping a).
Proof.
  unfold finite_amount, format_f2, two_decimal_number.
  destruct (Prim2SF a) as [s|s| |s m e]; try discriminate; intros _.
  - destruct (fixed2_shape grouping 0) as (ds & d1 & d2 & -> & _ & H).
    exists s, ds, d1, d2; auto.
  - destruct (fixed2_shape grouping (hundredths m e)) as (ds & d1 & d2 & -> & _ & H).
    exists s, ds, d1, d2; auto.
Qed.

Lemma ungrouped_has_no_comma s :
  two_decimal_number false s -> ~ In comma s.
Proof.
  intros (sign & ds & d1 & d2 & -> & _ & Hd & H1 & H2) H.
  apply in_app_or in H as [H|H].
  - destruct sign; simpl in H; [|tauto].
    destruct H as [H|[]]; discriminate H.
  - apply in_app_or in H as [H|H].
    + unfold digits_only in Hd; rewrite Forall_forall in Hd.
      apply Hd in H; discriminate H.
    + simpl in H; destruct H as [H|[H|[H|[]]]].
      * discriminate H.
      * rewrite H in H1; discriminate H1.
      * rewrite H in H2; discriminate H2.
Qed.

(** C8 (as amended). For a finite amount, [format_currency] with the symbol
    is the display symbol of the code (the code itself when none is
    registered) directly followed by the number, and without the symbol it
    is the number, a space and the code; the number has exactly two
    decimals, and it has thousands separators exactly when the amount is at
    least 1000. So 1234.5 USD is "$1,234.50" and 42.5 USD is "$42.50". *)
Theorem format_currency_rendering (a : float) (c : str) :
  finite_amount a = true ->
  format_currency a c true
  = get_currency_symbol c ++ format_f2 (PrimFloat.leb 1000 a) a
  /\ format_currency a c false
     = format_f2 (PrimFloat.leb 1000 a) a ++ u " " ++ c
  /\ get_currency_symbol c
     = match get symbols c with
       | Some symbol => symbol
       | None => c
       end
  /\ two_decimal_number (PrimFloat.leb 1000 a) (format_f2 (PrimFloat.leb 1000 a) a)
  /\ (In comma (format_f2 (PrimFloat.leb 1000 a) a) <-> PrimFloat.leb 1000 a = true)
  /\ (forall ds, digits_only ds -> thousands_separated ds (group3 ds))
  /\ format_currency 1234.5 (u "USD") true = u "$1,234.50"
  /\ format_currency 42.5 (u "USD") true = u "$42.50".
Proof.
  intros Hf.
  split; [unfold format_currency; now destruct (PrimFloat.leb 1000 a)|].
  split; [unfold format_currency; now destruct (PrimFloat.leb 1000 a)|].
  split; [reflexivity|].
  split; [now apply format_f2_shape|].
  split; [|split; [exact group3_separated|split; reflexivity]].
  destruct (PrimFloat.leb 1000 a) eqn:Hl.
  - split; [reflexivity|intros _].
    destruct (thousand_or_more a Hl Hf) as (m & e & Hp & Hn).
    unfold format_f2; rewrite Hp; unfold fixed2; simpl sign_str; simpl app.
    apply in_or_app; left.
    apply int_digits_grouped_has_comma.
    apply Z.div_le_lower_bound; lia.
  - split; [|discriminate].
    intros H; exfalso.
    exact (ungrouped_has_no_comma _ (format_f2_shape false a Hf) H).
Qed.

Lemma format_currency_rendering_witness :
  format_currency 1234.5 (u "EUR") true
  = get_currency_symbol (u "EUR") ++ format_f2 (PrimFloat.leb 1000 1234.5) 1234.5
  /\ In comma (format_f2 (PrimFloat.leb 1000 1234.5) 1234.5).
Proof.
  destruct (format_currency_rendering 1234.5 (u "EUR") eq_refl)
    as (H1 & _ & _ & _ & H5 & _).
  split; [exact H1|].
  apply H5; reflexivity.
Defined.

(** C8, as stated, fails on an amount that is no number: the infinite float
    is at least 1000 and is rendered "$inf", with no decimals and no
    separators. *)
Lemma infinite_amount_has_no_decimals :
  PrimFloat.leb 1000 infinity = true
  /\ format_currency infinity (u "USD") true = u "$inf"
  /\ ~ (exists grouping number,
           format_currency infinity (u "USD") true
           = get_currency_symbol (u "USD") ++ number
           /\ two_decimal_number grouping number).
Proof.
  split; [reflexivity|]; split; [reflexivity|].
  intros (grouping & number & E & sign & ds & d1 & d2 & En & _).
  vm_compute in E; injection E as E; subst number.
  apply (f_equal (@rev _)) in En.
  rewrite !rev_app_distr in En; simpl in En.
  injection En as _ _ En _; discriminate En.
Qed.

(** ** AggregateSummarizer *)

Lemma mentions_In c entries : mentions c entries = true <-> In c (map fst entries).
Proof.
  unfold mentions; rewrite existsb_exists, in_map_iff; split.
  - intros ([c' a] & Hin & E); simpl in E.
    destruct (str_eqb_spec c' c) as [->|]; [|discriminate].
    exists (c, a); auto.
  - intros ([c' a] & E & Hin); simpl in E; subst c'.
    exists (c, a); split; [exact Hin|apply str_eqb_refl].
Qed.

Lemma currencies_in_order_In c entries :
  In c (currencies_in_order entries) <-> In c (map fst entries).
Proof.
  induction entries as [|[c0 a0] es IH]; simpl; [tauto|].
  rewrite filter_In, IH; split.
  - intros [H|[H _]]; auto.
  - intros [H|H]; [now left|].
    destruct (str_eqb_spec c0 c) as [E|E]; [now left|right; auto].
Qed.

Lemma currencies_in_order_NoDup entries : NoDup (currencies_in_order entries).
Proof.
  induction entries as [|[c0 a0] es IH]; simpl; constructor.
  - rewrite filter_In; intros [_ H].
    now rewrite str_eqb_refl in H.
  - now apply NoDup_filter.
Qed.

Lemma currencies_in_order_snoc entries c a :
  currencies_in_order (entries ++ [(c, a)])
  = if mentions c entries then currencies_in_order entries
    else currencies_in_order entries ++ [c].
Proof.
  induction entries as [|[c0 a0] es IH]; simpl; [reflexivity|].
  rewrite IH; fold (mentions c es).
  destruct (str_eqb_spec c0 c) as [->|Hne]; simpl.
  - destruct (mentions c es); [reflexivity|].
    rewrite filter_app; simpl.
    rewrite str_eqb_refl; simpl. now rewrite app_nil_r.
  - destruct (mentions c es); [reflexivity|].
    rewrite filter_app; simpl.
    now rewrite (str_eqb_neq _ _ Hne).
Qed.

Lemma amounts_of_snoc k entries c a :
  amounts_of k (entries ++ [(c, a)])
  = amounts_of k entries ++ (if str_eqb c k then [a] else []).
Proof.
  unfold amounts_of; rewrite filter_app, map_app; simpl.
  now destruct (str_eqb c k).
Qed.

Lemma amounts_of_not_mentioned c entries :
  mentions c entries = false -> amounts_of c entries = [].
Proof.
  unfold mentions, amounts_of; induction entries as [|[c0 a0] es IH]; simpl;
    [reflexivity|].
  intros H; apply orb_false_iff in H as [H1 H2].
  rewrite H1; auto.
Qed.

Lemma amounts_of_mentioned c entries :
  mentions c entries = true -> amounts_of c entries <> [].
Proof.
  unfold mentions, amounts_of; induction entries as [|[c0 a0] es IH]; simpl;
    [discriminate|].
  destruct (str_eqb c0 c); simpl; [discriminate|auto].
Qed.

Lemma float_sum_snoc l a : float_sum (l ++ [a]) = (float_sum l + a)%float.
Proof. unfold float_sum; now rewrite fold_left_app. Qed.

Section KeyedMaps.

Context {V : Type}.
Implicit Types (f : str -> V) (K : list str) (d : dict V).

Lemma get_map_In f K c :
  In c K -> get (map (fun k => (k, f k)) K) c = Some (f c).
Proof.
  induction K as [|k K IH]; simpl; [tauto|].
  destruct (str_eqb_spec k c) as [->|Hne]; [reflexivity|].
  intros [E|H]; [congruence|auto].
Qed.

Lemma get_map_not_In f K c :
  ~ In c K -> get (map (fun k => (k, f k)) K) c = None.
Proof.
  induction K as [|k K IH]; simpl; [reflexivity|].
  intros H; destruct (str_eqb_spec k c) as [->|Hne]; [tauto|].
  apply IH; tauto.
Qed.

Lemma set_absent d c v : get d c = None -> set d c v = d ++ [(c, v)].
Proof.
  induction d as [|[k x] d IH]; simpl; [reflexivity|].
  destruct (str_eqb k c); [discriminate|].
  intros H; now rewrite IH.
Qed.

Lemma set_last d c v v' : get d c = None -> set (d ++ [(c, v)]) c v' = d ++ [(c, v')].
Proof.
  induction d as [|[k x] d IH]; simpl.
  - now rewrite str_eqb_refl.
  - destruct (str_eqb k c); [discriminate|].
    intros H; now rewrite IH.
Qed.

Lemma get_last d c v : get d c = None -> get (d ++ [(c, v)]) c = Some v.
Proof.
  induction d as [|[k x] d IH]; simpl.
  - now rewrite str_eqb_refl.
  - destruct (str_eqb k c); [discriminate|exact IH].
Qed.

Lemma set_map_In f K c v :
  NoDup K -> In c K ->
  set (map (fun k => (k, f k)) K) c v
  = map (fun k => (k, if str_eqb k c then v else f k)) K.
Proof.
  induction K as [|k K IH]; simpl; [tauto|].
  intros Hn Hin; inversion Hn as [|? ? Hk Hn']; subst.
  destruct (str_eqb_spec k c) as [->|Hne].
  - f_equal. apply map_ext_in.
    intros k' Hk'; destruct (str_eqb_spec k' c) as [->|]; [tauto|reflexivity].
  - f_equal. destruct Hin as [E|Hin]; [congruence|]. now apply IH.
Qed.

End KeyedMaps.

Lemma accumulate_app l1 l2 acc :
  accumulate (l1 ++ l2) acc = (acc' <- accumulate l1 acc ;; accumulate l2 acc').
Proof.
  revert acc; induction l1 as [|inv l1 IH]; intros acc; simpl; [reflexivity|].
  destruct (accumulate_invoice acc inv); simpl; [apply IH|reflexivity].
Qed.

Lemma summary_entries_snoc invoices inv entries :
  summary_entries (invoices ++ [inv]) = Ok entries ->
  exists es e,
    entries = es ++ [e]
    /\ summary_entries invoices = Ok es
    /\ summary_entry inv = Ok e.
Proof.
  revert entries; induction invoices as [|i0 l IH]; intros entries; simpl.
  - destruct (summary_entry inv) as [e|]; simpl; [|discriminate].
    intros H; injection H as <-; exists [], e; auto.
  - destruct (summary_entry i0) as [e0|]; simpl; [|discriminate].
    destruct (summary_entries (l ++ [inv])) as [es'|] eqn:E; simpl; [|discriminate].
    intros H; injection H as <-.
    destruct (IH es' eq_refl) as (es & e & -> & -> & He).
    exists (e0 :: es), e; auto.
Qed.

(** One turn of the first loop, on the dictionaries built from the entries
    read so far. *)
Lemma accumulate_invoice_spec es inv c a :
  summary_entry inv = Ok (c, a) ->
  accumulate_invoice (totals_of es, breakdown_of es) inv
  = Ok (totals_of (es ++ [(c, a)]), breakdown_of (es ++ [(c, a)])).
Proof.
  unfold summary_entry, accumulate_invoice; intros H.
  destruct (as_key (get_default inv K_currency (VStr (u "USD")))) as [c'|];
    simpl in *; [|discriminate].
  destruct (as_number (get_default inv K_total_amount (VNum 0))) as [a'|];
    simpl in *; [|discriminate].
  injection H as -> ->.
  unfold totals_of, breakdown_of, number_of.
  rewrite currencies_in_order_snoc.
  pose proof (currencies_in_order_NoDup es) as Hn.
  unfold mem at 1.
  destruct (mentions c es) eqn:Hm.
  - assert (Hin : In c (currencies_in_order es))
      by (apply currencies_in_order_In, mentions_In, Hm).
    rewrite (get_map_In _ _ _ Hin); cbn [negb].
    unfold getitem; rewrite !(get_map_In _ _ _ Hin); simpl.
    rewrite !(set_map_In _ _ _ _ Hn Hin).
    f_equal; f_equal; apply map_ext; intros k; f_equal;
      rewrite amounts_of_snoc, (str_eqb_sym c k);
      destruct (str_eqb_spec k c) as [->|Hne].
    + now rewrite float_sum_snoc.
    + now rewrite app_nil_r.
    + rewrite float_sum_snoc, length_app; simpl.
      f_equal; lia.
    + now rewrite app_nil_r.
  - assert (Hin : ~ In c (currencies_in_order es)).
    { rewrite currencies_in_order_In, <- mentions_In, Hm; discriminate. }
    rewrite (get_map_not_In _ _ _ Hin); cbn [negb].
    rewrite !set_absent by (now apply get_map_not_In).
    unfold getitem; rewrite !get_last by (now apply get_map_not_In); simpl.
    rewrite !set_last by (now apply get_map_not_In).
    rewrite !map_app; simpl.
    rewrite !amounts_of_snoc, str_eqb_refl, (amounts_of_not_mentioned _ _ Hm); simpl.
    f_equal; f_equal; f_equal; apply map_ext_in; intros k Hk; f_equal;
      rewrite amounts_of_snoc;
      (destruct (str_eqb_spec c k) as [->|]; [tauto|now rewrite app_nil_r]).
Qed.

Lemma accumulate_spec invoices entries :
  summary_entries invoices = Ok entries ->
  accumulate invoices ([], []) = Ok (totals_of entries, breakdown_of entries).
Proof.
  revert entries; induction invoices as [|inv l IH] using rev_ind; intros entries H.
  - injection H as <-; reflexivity.
  - destruct (summary_entries_snoc _ _ _ H) as (es & [c a] & -> & Hes & He).
    rewrite accumulate_app, (IH es Hes); cbn [bind accumulate].
    rewrite (accumulate_invoice_spec es inv c a He); reflexivity.
Qed.

Lemma sum_in_usd_totals rates (g : str -> float) K acc :
  valid_rates rates = true ->
  exists converted,
    Forall2 (fun c v => convert_currency rates (g c) c (u "USD") = Ok v) K converted
    /\ sum_in_usd rates (map (fun c => (c, g c)) K) acc
       = Ok (fold_left PrimFloat.add converted acc).
Proof.
  intros Hv; revert acc; induction K as [|c K IH]; intros acc; simpl.
  - exists []; split; [constructor|reflexivity].
  - destruct (convert_currency_total rates (g c) c (u "USD") Hv) as [v Hc].
    rewrite Hc; simpl.
    destruct (IH (acc + v)%float) as (converted & HF & ->).
    exists (v :: converted); split; [now constructor|reflexivity].
Qed.

Lemma number_of_positive c entries :
  In c (currencies_in_order entries) -> 0 < number_of c entries.
Proof.
  intros H; apply currencies_in_order_In, mentions_In, amounts_of_mentioned in H.
  unfold number_of; destruct (amounts_of c entries); [congruence|simpl; lia].
Qed.

Lemma summary_fields t x b cs :
  let s :=
    of_list [ (K_total_by_currency, STotals t); (K_total_in_usd, SNum x);
              (K_currency_breakdown, SBreakdown b); (K_currencies_detected, SCodes cs) ] in
  get s K_total_by_currency = Some (STotals t)
  /\ get s K_total_in_usd = Some (SNum x)
  /\ get s K_currency_breakdown = Some (SBreakdown b)
  /\ get s K_currencies_detected = Some (SCodes cs).
Proof. repeat split. Qed.

(** C2. On a non-empty batch whose invoices carry a text currency (USD when
    absent) and a numeric total (0 when absent), the summary groups the
    invoices by currency: each currency present has a breakdown entry with
    the number of its invoices, the sum of their amounts and the average
    round(total / count, 2); [total_by_currency] holds each sum rounded to two
    decimals; and [total_in_usd] is the rounded sum, over the currencies in
    the order they first appear, of one conversion per currency of the
    summed total. *)
Theorem multi_currency_summary (invoices : list invoice) (entries : list (str * float)) :
  invoices <> [] ->
  summary_entries invoices = Ok entries ->
  exists s totals breakdown converted,
    get_multi_currency_summary EXCHANGE_RATES invoices = Ok s
    /\ get s K_total_by_currency = Some (STotals totals)
    /\ get s K_currency_breakdown = Some (SBreakdown breakdown)
    /\ get s K_currencies_detected = Some (SCodes (currencies_in_order entries))
    /\ keys totals = currencies_in_order entries
    /\ keys breakdown = currencies_in_order entries
    /\ (forall c, In c (currencies_in_order entries) <-> In c (map fst entries))
    /\ (forall c,
          In c (currencies_in_order entries) ->
          0 < number_of c entries
          /\ get breakdown c
             = Some {| count := number_of c entries;
                       total := float_sum (amounts_of c entries);
                       average :=
                         round2 (float_sum (amounts_of c entries)
                                 / float_of_Z (number_of c entries))%float |}
          /\ get totals c = Some (round2 (float_sum (amounts_of c entries))))
    /\ Forall2
         (fun c v =>
            convert_currency EXCHANGE_RATES (float_sum (amounts_of c entries)) c (u "USD")
            = Ok v)
         (currencies_in_order entries) converted
    /\ get s K_total_in_usd = Some (SNum (round2 (float_sum converted))).
Proof.
  intros Hne He.
  destruct invoices as [|inv rest]; [congruence|].
  unfold get_multi_currency_summary.
  rewrite (accumulate_spec _ _ He); cbn [bind].
  unfold totals_of at 1.
  destruct (sum_in_usd_totals EXCHANGE_RATES
              (fun c => float_sum (amounts_of c entries))
              (currencies_in_order entries) 0%float baseline_rates_valid)
    as (converted & HF & ->); cbn [bind].
  eexists; eexists; eexists; exists converted.
  split; [reflexivity|].
  pose proof (summary_fields
                (map (fun kt => (fst kt, round2 (snd kt))) (totals_of entries))
                (round2 (fold_left PrimFloat.add converted 0%float))
                (map (fun kb => (fst kb, with_average (snd kb))) (breakdown_of entries))
                (keys (totals_of entries))) as (F1 & F2 & F3 & F4).
  split; [exact F1|]; split; [exact F3|].
  assert (Kt : keys (totals_of entries) = currencies_in_order entries).
  { unfold keys, totals_of; rewrite map_map; simpl; apply map_id. }
  split; [rewrite <- Kt; exact F4|].
  split; [unfold keys; rewrite map_map; simpl; exact Kt|].
  split.
  { unfold keys, breakdown_of; rewrite !map_map; simpl; apply map_id. }
  split; [intros c; apply currencies_in_order_In|].
  split; [|split; [exact HF|exact F2]].
  intros c Hc; pose proof (number_of_positive c entries Hc) as Hp.
  split; [exact Hp|]; split.
  - unfold breakdown_of; rewrite map_map; simpl.
    rewrite (get_map_In
               (fun k => with_average
                           {| count := number_of k entries;
                              total := float_sum (amounts_of k entries);
                              average := 0 |}) _ _ Hc).
    unfold with_average; simpl.
    apply Z.ltb_lt in Hp; now rewrite Hp.
  - unfold totals_of; rewrite map_map; simpl.
    now rewrite (get_map_In (fun k => round2 (float_sum (amounts_of k entries))) _ _ Hc).
Qed.

Lemma multi_currency_summary_witness :
  exists s,
    get_multi_currency_summary EXCHANGE_RATES sample_batch = Ok s
    /\ get s K_total_in_usd = Some (SNum 6163.65%float)
    /\ get s K_currencies_detected = Some (SCodes [u "USD"; u "EUR"]).
Proof.
  destruct (multi_currency_summary sample_batch
              [ (u "USD", 6000%float); (u "EUR", 100%float); (u "EUR", 50.555%float) ])
    as (s & totals & breakdown & converted & Hs & _ & _ & Hc & _);
    [discriminate|reflexivity|].
  exists s; split; [exact Hs|].
  split; [|exact Hc].
  vm_compute in Hs; injection Hs as <-; reflexivity.
Defined.

(** ** The rendering denotes the number *)

Lemma digits_rev_value fuel n :
  0 <= n < 2 ^ Z.of_nat fuel -> value_rev (digits_rev fuel n) = n.
Proof.
  revert n; induction fuel as [|fuel IH]; intros n Hn.
  - simpl in *; lia.
  - cbn [digits_rev value_rev].
    assert (Hd : Z.of_N (digit (n mod 10)) - 48 = n mod 10).
    { unfold digit. pose proof (Z.mod_pos_bound n 10); lia. }
    rewrite Hd.
    destruct (Z.ltb_spec n 10) as [Hs|Hs].
    + simpl; rewrite Z.mod_small; lia.
    + rewrite IH.
      * pose proof (Z.div_mod n 10); lia.
      * rewrite Nat2Z.inj_succ, Z.pow_succ_r in Hn by lia.
        split; [apply Z.div_pos; lia|].
        apply Z.div_lt_upper_bound; lia.
Qed.

Lemma int_digits_value n : 0 <= n -> value_rev (rev (int_digits n)) = n.
Proof.
  intros Hn; unfold int_digits; rewrite rev_involutive.
  apply digits_rev_value; split; [exact Hn|].
  rewrite Nat2Z.inj_succ, Z2Nat.id by apply Z.log2_nonneg.
  destruct (Z.eq_dec n 0) as [->|Hz]; [reflexivity|].
  apply Z.log2_spec; lia.
Qed.

Lemma round_half_even_div_near n d :
  0 < d -> 2 * Z.abs (n - d * round_half_even_div n d) <= d.
Proof.
  intros Hd; unfold round_half_even_div.
  pose proof (Z.div_mod n d ltac:(lia)) as E.
  pose proof (Z.mod_pos_bound n d Hd) as B.
  destruct (Z.ltb_spec (2 * (n mod d)) d); [lia|].
  destruct (Z.ltb_spec d (2 * (n mod d))); [lia|].
  destruct (Z.even (n / d)); lia.
Qed.

Lemma hundredths_near m e :
  e < 0 -> 2 * Z.abs (Z.pos m * 100 - 2 ^ (- e) * hundredths m e) <= 2 ^ (- e).
Proof.
  intros He; unfold hundredths.
  destruct (Z.leb_spec 0 e); [lia|].
  apply round_half_even_div_near, Z.pow_pos_nonneg; lia.
Qed.

(** ** Evaluations on the examples of the specification *)

Example detect_empty_text : detect_currency [] = (u "USD", 0.5%float).
Proof. reflexivity. Qed.

Example detect_euro_sign :
  detect_currency (u "Invoice total: €450.00") = (u "EUR", 0.9%float).
Proof. reflexivity. Qed.

Example detect_by_alias :
  detect_currency (u "Paid 300 pounds") = (u "GBP", 0.85%float).
Proof. reflexivity. Qed.

Example detect_by_symbol : detect_currency (u "5 kr") = (u "NOK", 0.88%float).
Proof. reflexivity. Qed.

Example detect_nothing :
  detect_currency (u "Acme Tools INV-001 2024-03-01") = (u "USD", 0.5%float).
Proof. reflexivity. Qed.

Example symbols_keep_first_position_last_value :
  keys CURRENCY_SYMBOLS
  = [ u "$"; u "€"; u "£"; u "¥"; u "₹"; u "C$"; u "A$"; u "NZ$"; u "kr";
      u "CHF"; u "R$"; u "₽"; u "R" ]
  /\ get CURRENCY_SYMBOLS (u "kr") = Some (u "NOK").
Proof. split; reflexivity. Qed.

Example round2_ties_on_the_binary_value :
  round2 0.125%float = 0.12%float
  /\ round2 0.375%float = 0.38%float
  /\ round2 2.675%float = 2.67%float
  /\ round2 (-0.001)%float = (-0)%float
  /\ round2 infinity = infinity.
Proof. repeat split. Qed.

Example format_f2_samples :
  format_f2 true 1234567.891%float = u "1,234,567.89"
  /\ format_f2 false 999.999%float = u "1000.00"
  /\ format_f2 false (-0.001)%float = u "-0.00"
  /\ format_f2 false 0.125%float = u "0.12"
  /\ format_f2 true 1000%float = u "1,000.00".
Proof. repeat split. Qed.

Example format_without_symbol :
  format_currency 1234.5%float (u "USD") false = u "1,234.50 USD"
  /\ format_currency 42.5%float (u "XXX") true = u "XXX42.50".
Proof. split; reflexivity. Qed.

Example convert_round_trip_sample :
  convert_currency EXCHANGE_RATES 100%float (u "EUR") (u "USD") = Ok 108.7%float
  /\ convert_currency EXCHANGE_RATES 108.7%float (u "USD") (u "EUR") = Ok 100%float.
Proof. split; reflexivity. Qed.

Example zero_rate_raises :
  convert_currency (update_exchange_rates EXCHANGE_RATES [(u "EUR", 0%float)])
    100%float (u "EUR") (u "USD")
  = Raise ZeroDivisionError.
Proof. reflexivity. Qed.

Example summary_rounds_totals_not_breakdown :
  exists s,
    get_multi_currency_summary EXCHANGE_RATES sample_batch = Ok s
    /\ get s K_total_by_currency
       = Some (STotals [ (u "USD", 6000%float); (u "EUR", 150.56%float) ])
    /\ get s K_currency_breakdown
       = Some (SBreakdown
                 [ (u "USD", {| count := 1; total := 6000%float; average := 6000%float |});
                   (u "EUR", {| count := 2; total := (100 + 50.555)%float;
                                average := 75.28%float |}) ]).
Proof. eexists; repeat split. Qed.

(* ------------------------------------------------------------------ *)
(** ** Rate updates *)

Lemma keys_set {V} (d : dict V) k v :
  keys (set d k v) = keys d ++ (if mem d k then [] else [k]).
Proof.
  unfold mem; induction d as [|[k' v'] d IH]; simpl; [reflexivity|].
  destruct (str_eqb k' k); simpl.
  - now rewrite app_nil_r.
  - now rewrite IH.
Qed.

Lemma mem_update {V} (d new : dict V) c :
  mem d c = true -> mem (update d new) c = true.
Proof.
  unfold update; revert d; induction new as [|[k v] new IH]; intros d H; simpl;
    [exact H|].
  apply IH, mem_set, H.
Qed.

Lemma keys_update {V} (d new : dict V) :
  exists added, keys (update d new) = keys d ++ added.
Proof.
  unfold update; revert d; induction new as [|[k v] new IH]; intros d; simpl.
  - exists []; now rewrite app_nil_r.
  - destruct (IH (set d k v)) as [added ->].
    rewrite keys_set, <- app_assoc; eauto.
Qed.

Lemma get_update {V} (d new : dict V) c :
  NoDup (keys new) ->
  get (update d new) c
  = match get new c with
    | Some v => Some v
    | None => get d c
    end.
Proof.
  unfold update; revert d; induction new as [|[k v] new IH]; intros d Hn; simpl;
    [reflexivity|].
  inversion Hn as [|? ? Hk Hn']; subst.
  rewrite (IH _ Hn').
  destruct (str_eqb_spec k c) as [->|Hne].
  - rewrite (not_key_get_None _ _ Hk). apply get_set_same.
  - destruct (get new c); [reflexivity|]. now apply get_set_other.
Qed.

(** X1. After [update_exchange_rates], a code listed in the new rates has
    its new rate and every other code keeps the rate it had; no code loses
    its rate, and the codes already in the table keep their places, the new
    ones coming after them. *)
Theorem update_exchange_rates_lookup (rates new_rates : dict float) :
  NoDup (keys new_rates) ->
  (forall c,
      get (update_exchange_rates rates new_rates) c
      = match get new_rates c with
        | Some rate => Some rate
        | None => get rates c
        end)
  /\ (forall c, mem rates c = true ->
                mem (update_exchange_rates rates new_rates) c = true)
  /\ exists added,
      keys (update_exchange_rates rates new_rates) = keys rates ++ added.
Proof.
  intros Hn; unfold update_exchange_rates; split; [|split].
  - intros c; now apply get_update.
  - intros c; apply mem_update.
  - apply keys_update.
Qed.

Lemma update_exchange_rates_lookup_witness :
  get (update_exchange_rates EXCHANGE_RATES
         [ (u "EUR", 0.95%float); (u "PLN", 4.0%float) ]) (u "EUR")
  = Some 0.95%float
  /\ get (update_exchange_rates EXCHANGE_RATES
            [ (u "EUR", 0.95%float); (u "PLN", 4.0%float) ]) (u "GBP")
     = Some 0.79%float.
Proof.
  assert (Hn : NoDup (keys [ (u "EUR", 0.95%float); (u "PLN", 4.0%float) ])).
  { repeat constructor; simpl; intuition discriminate. }
  destruct (update_exchange_rates_lookup EXCHANGE_RATES
              [ (u "EUR", 0.95%float); (u "PLN", 4.0%float) ] Hn) as (H & _).
  split; rewrite H; reflexivity.
Defined.

(** ** Where the converter raises, and what the rate of USD does *)

(** X2. [convert_currency] raises only [ZeroDivisionError], and exactly
    when the codes differ, both have a rate, the source is not USD and the
    rate of the source is zero. *)
Theorem convert_currency_raises_iff (rates : dict float) (a : float)
    (from_currency to_currency : str) (e : exn) :
  convert_currency rates a from_currency to_currency = Raise e
  <-> e = ZeroDivisionError
      /\ from_currency <> to_currency
      /\ from_currency <> u "USD"
      /\ exists from_rate to_rate,
          get rates from_currency = Some from_rate
          /\ get rates to_currency = Some to_rate
          /\ PrimFloat.eqb from_rate 0 = true.
Proof.
  unfold convert_currency, py_div.
  destruct (str_eqb_spec from_currency to_currency) as [->|Hne].
  { split; [discriminate|]. intros (_ & H & _); congruence. }
  destruct (get rates from_currency) as [fr|].
  2:{ split; [discriminate|]. intros (_ & _ & _ & x & y & H & _); discriminate. }
  destruct (get rates to_currency) as [tr|].
  2:{ split; [discriminate|]. intros (_ & _ & _ & x & y & _ & H & _); discriminate. }
  destruct (str_eqb_spec from_currency (u "USD")) as [->|Hu]; simpl.
  { split; [discriminate|]. intros (_ & _ & H & _); congruence. }
  destruct (PrimFloat.eqb fr 0) eqn:Hz; simpl.
  - split.
    + intros H; injection H as <-; repeat split; auto. exists fr, tr; auto.
    + intros (-> & _); reflexivity.
  - split; [discriminate|].
    intros (_ & _ & _ & x & y & Hx & _ & H). injection Hx as <-. congruence.
Qed.

(** X3. The rate stored for USD is not symmetric: a conversion from USD
    never reads its value, so giving USD another rate leaves every conversion
    from USD as it was, while a conversion to USD multiplies by it. *)
Theorem usd_rate_is_one_sided (rates : dict float) (usd_rate a : float)
    (c : str) (rate : float) :
  mem rates (u "USD") = true ->
  c <> u "USD" ->
  get rates c = Some rate ->
  PrimFloat.eqb rate 0 = false ->
  convert_currency (update_exchange_rates rates [(u "USD", usd_rate)]) a (u "USD") c
  = convert_currency rates a (u "USD") c
  /\ convert_currency (update_exchange_rates rates [(u "USD", usd_rate)]) a c (u "USD")
     = Ok (round2 (a / rate * usd_rate)%float).
Proof.
  intros Hm Hc Hr Hz.
  unfold update_exchange_rates, update; simpl.
  unfold convert_currency, mem in *.
  assert (Hc' : u "USD" <> c) by congruence.
  rewrite (str_eqb_neq _ _ Hc), (str_eqb_neq _ _ Hc').
  rewrite get_set_same, (get_set_other _ _ _ _ Hc'), Hr.
  destruct (get rates (u "USD")); [|discriminate].
  split; [reflexivity|].
  simpl; unfold py_div; now rewrite Hz.
Qed.

Lemma usd_rate_is_one_sided_witness :
  convert_currency (update_exchange_rates EXCHANGE_RATES [(u "USD", 2%float)])
    100%float (u "USD") (u "EUR")
  = Ok 92%float
  /\ convert_currency (update_exchange_rates EXCHANGE_RATES [(u "USD", 2%float)])
       92%float (u "EUR") (u "USD")
     = Ok 200%float.
Proof.
  destruct (usd_rate_is_one_sided EXCHANGE_RATES 2%float 100%float (u "EUR")
              0.92%float) as [H1 _]; try reflexivity; [discriminate|].
  destruct (usd_rate_is_one_sided EXCHANGE_RATES 2%float 92%float (u "EUR")
              0.92%float) as [_ H2]; try reflexivity; [discriminate|].
  split; [rewrite H1; reflexivity|rewrite H2; reflexivity].
Defined.

(** ** The catalog's tables agree *)

Lemma mem_In_keys {V} (d : dict V) c : mem d c = true -> In c (keys d).
Proof.
  unfold mem; destruct (get d c) as [v|] eqn:E; [|discriminate].
  intros _; apply get_In in E.
  change c with (fst (c, v)); now apply in_map.
Qed.

Lemma mem_false_not_key {V} (d : dict V) c : mem d c = false -> ~ In c (keys d).
Proof.
  unfold mem; destruct (get d c) eqn:E; [discriminate|].
  intros _; now apply get_None_not_key.
Qed.

Ltac each_key H :=
  simpl in H;
  repeat (destruct H as [H|H]; [subst|]); try contradiction.

(** X4. [get_currency_info] on a code that has a baseline rate gives a
    registered name (never "Unknown"), the registered symbol and that rate;
    on any other code it gives the name "Unknown", the code itself as symbol
    and no rate. The three tables list the same sixteen codes. *)
Theorem get_currency_info_complete (c : str) :
  get (get_currency_info EXCHANGE_RATES c) K_code = Some (VStr c)
  /\ (mem EXCHANGE_RATES c = true ->
      exists name symbol rate,
        get names c = Some name /\ name <> u "Unknown"
        /\ get symbols c = Some symbol
        /\ get EXCHANGE_RATES c = Some rate
        /\ get (get_currency_info EXCHANGE_RATES c) K_name = Some (VStr name)
        /\ get (get_currency_info EXCHANGE_RATES c) K_symbol = Some (VStr symbol)
        /\ get (get_currency_info EXCHANGE_RATES c) K_exchange_rate_to_usd
           = Some (VNum rate))
  /\ (mem EXCHANGE_RATES c = false ->
      get (get_currency_info EXCHANGE_RATES c) K_name = Some (VStr (u "Unknown"))
      /\ get (get_currency_info EXCHANGE_RATES c) K_symbol = Some (VStr c)
      /\ get (get_currency_info EXCHANGE_RATES c) K_exchange_rate_to_usd = Some VNone).
Proof.
  split; [reflexivity|]; split.
  - intros H; apply mem_In_keys in H.
    each_key H; do 3 eexists; repeat split; discriminate.
  - intros H; apply mem_false_not_key in H.
    assert (Hn : get names c = None) by (apply not_key_get_None; exact H).
    assert (Hs : get symbols c = None) by (apply not_key_get_None; exact H).
    assert (Hr : get EXCHANGE_RATES c = None) by (apply not_key_get_None; exact H).
    unfold get_currency_info, get_currency_symbol, get_default.
    rewrite Hn, Hs, Hr. repeat split.
Qed.

Lemma get_currency_info_complete_witness :
  get (get_currency_info EXCHANGE_RATES (u "XXX")) K_name = Some (VStr (u "Unknown"))
  /\ get (get_currency_info EXCHANGE_RATES (u "SEK")) K_name
     = Some (VStr (u "Swedish Krona")).
Proof.
  split.
  - apply (proj2 (proj2 (get_currency_info_complete (u "XXX")))); reflexivity.
  - destruct (proj1 (proj2 (get_currency_info_complete (u "SEK"))) eq_refl)
      as (name & symbol & rate & Hn & _ & _ & _ & H & _).
    vm_compute in Hn; injection Hn as <-; exact H.
Defined.

Lemma reachable_rates_keep_baseline rates c :
  reachable_rates rates -> mem EXCHANGE_RATES c = true -> mem rates c = true.
Proof.
  induction 1 as [|rates new_rates _ IH]; intros H; [exact H|].
  apply mem_update, IH, H.
Qed.

Lemma alias_codes_have_rates :
  forallb (mem EXCHANGE_RATES) (map snd CURRENCY_NAMES) = true.
Proof. reflexivity. Qed.

(** X5. On the baseline table and on every table made from it by rate
    updates, [is_valid_currency_code] holds of a code exactly when the code
    has a rate (the alias codes all have one), and it holds of every code
    [detect_currency] returns. *)
Theorem is_valid_currency_code_iff_rate (rates : dict float) (c : str) (text : str) :
  reachable_rates rates ->
  is_valid_currency_code rates c = mem rates c
  /\ is_valid_currency_code rates (fst (detect_currency text)) = true.
Proof.
  intros Hr; unfold is_valid_currency_code; split.
  - destruct (mem rates c) eqn:Hm; [reflexivity|]; cbn [orb].
    match goal with |- ?b = false => destruct b eqn:E end; [|reflexivity].
    apply existsb_exists in E as (c' & Hin & Hc).
    destruct (str_eqb_spec c c') as [->|]; [|discriminate].
    pose proof alias_codes_have_rates as Ha; rewrite forallb_forall in Ha.
    rewrite (reachable_rates_keep_baseline _ _ Hr (Ha _ Hin)) in Hm; discriminate.
  - rewrite (reachable_rates_keep_baseline _ _ Hr (detect_currency_has_rate text)).
    reflexivity.
Qed.

Lemma is_valid_currency_code_iff_rate_witness :
  is_valid_currency_code
    (update_exchange_rates EXCHANGE_RATES [(u "PLN", 4.0%float)]) (u "usd") = false.
Proof.
  rewrite (proj1 (is_valid_currency_code_iff_rate
                    (update_exchange_rates EXCHANGE_RATES [(u "PLN", 4.0%float)])
                    (u "usd") []
                    (reachable_update _ _ reachable_baseline))).
  reflexivity.
Defined.

(** X6. Symbol and code round trips. Every symbol of [CURRENCY_SYMBOLS] is
    the display symbol of the code it stands for; a code that has a rate is
    found back from its display symbol exactly when it is none of CNY, MXN
    and SEK, whose symbols stand for JPY, USD and NOK. *)
Theorem symbol_round_trips (s c : str) :
  (get CURRENCY_SYMBOLS s = Some c -> get_currency_symbol c = s)
  /\ (mem EXCHANGE_RATES c = true ->
      (get CURRENCY_SYMBOLS (get_currency_symbol c) = Some c
       <-> c <> u "CNY" /\ c <> u "MXN" /\ c <> u "SEK")).
Proof.
  split.
  - intros H; apply get_In in H.
    each_key H; injection H as <- <-; reflexivity.
  - intros H; apply mem_In_keys in H.
    each_key H; (split; [intros E; try discriminate E;
                         repeat split; discriminate
                        |intros (H1 & H2 & H3); try reflexivity;
                         exfalso;
                         first [now apply H1 | now apply H2 | now apply H3]]).
Qed.

Lemma symbol_round_trips_witness :
  get_currency_symbol (u "NOK") = u "kr"
  /\ get CURRENCY_SYMBOLS (get_currency_symbol (u "SEK")) <> Some (u "SEK").
Proof.
  split.
  - apply (proj1 (symbol_round_trips (u "kr") (u "NOK"))); reflexivity.
  - intros E.
    apply (proj2 (symbol_round_trips [] (u "SEK")) eq_refl) in E.
    destruct E as (_ & _ & E); apply E; reflexivity.
Defined.

(** ** Which codes each tier of the detector can give *)

Lemma char_matches_ci_refl p : char_matches_ci p p = true.
Proof. unfold char_matches_ci; now rewrite N.eqb_refl. Qed.

Lemma matches_ci_refl l : matches_ci l l.
Proof.
  unfold matches_ci; induction l; constructor; auto using char_matches_ci_refl.
Qed.

Lemma occurs_trans a b x : occurs a b -> occurs b x -> occurs a x.
Proof.
  intros (p1 & q1 & ->) (p2 & q2 & ->).
  exists (p2 ++ p1), (q1 ++ q2); now rewrite <- !app_assoc.
Qed.

Lemma contains_trans a b x :
  contains a b = true -> contains b x = true -> contains a x = true.
Proof. rewrite !contains_spec; apply occurs_trans. Qed.

Lemma re_search_single (b : branch) (p : pattern) t :
  In b p -> re_search [b] t = true -> re_search p t = true.
Proof.
  rewrite !re_search_spec; intros Hin (b' & [<-|[]] & H).
  exists b; auto.
Qed.

Lemma contains_re_search l t :
  contains l t = true ->
  re_search [{| literal := l; not_before_space := false |}] t = true.
Proof.
  rewrite contains_spec, re_search_spec; intros (pre & post & ->).
  eexists; split; [now left|].
  exists pre, l, post; repeat split; [apply matches_ci_refl|discriminate].
Qed.

(** A literal whose lowered form starts the lowered text matches at the
    start of the text. *)
Lemma starts_with_lower_ci l t :
  ascii_text (map sre_lower l) = true ->
  starts_with (map sre_lower l) (lower t) = true ->
  exists rest, match_prefix_ci l t = Some rest.
Proof.
  revert t; induction l as [|p l IH]; intros t Ha Hs; [simpl; eauto|].
  simpl in Ha; apply andb_true_iff in Ha as [Hp Ha].
  destruct t as [|c t]; [discriminate|].
  cbn [match_prefix_ci].
  change (lower (c :: t)) with (lower_char c ++ lower t) in Hs.
  assert (Step : char_matches_ci p c = true
                 /\ starts_with (map sre_lower l) (lower t) = true).
  { unfold char_matches_ci, lower_char in *.
    replace (sre_lower c) with
      (if ((65 <=? c) && (c <=? 90))%N then (c + 32)%N
       else if (c =? 304)%N then 105%N
       else if (c =? 8490)%N then 107%N else c) by reflexivity.
    destruct ((65 <=? c) && (c <=? 90))%N.
    - simpl in Hs; apply andb_true_iff in Hs as [H1 H2].
      apply N.eqb_eq in H1; rewrite <- H1, N.eqb_refl; auto.
    - destruct (c =? 304)%N.
      + simpl in Hs; apply andb_true_iff in Hs as [H1 H2].
        apply N.eqb_eq in H1; rewrite <- H1, N.eqb_refl; split; [reflexivity|].
        destruct (map sre_lower l) as [|y n'] eqn:E; [reflexivity|].
        simpl in H2, Ha; apply andb_true_iff in H2 as [H2 _].
        apply andb_true_iff in Ha as [Hy _].
        apply N.eqb_eq in H2; subst y; discriminate Hy.
      + destruct (c =? 8490)%N;
          simpl in Hs; apply andb_true_iff in Hs as [H1 H2];
          apply N.eqb_eq in H1; rewrite <- H1, N.eqb_refl; auto. }
  destruct Step as [-> Hs']; now apply IH.
Qed.

Lemma contains_lower_re_search l t :
  nonempty l = true ->
  ascii_text (map sre_lower l) = true ->
  contains (map sre_lower l) (lower t) = true ->
  re_search [{| literal := l; not_before_space := false |}] t = true.
Proof.
  intros Hn Ha; induction t as [|c t IH]; intros Hc.
  - destruct l; [discriminate|]; discriminate Hc.
  - assert (Hor : starts_with (map sre_lower l) (lower (c :: t)) = true
                  \/ contains (map sre_lower l) (lower t) = true).
    { change (lower (c :: t)) with (lower_char c ++ lower t) in *.
      destruct l as [|p l]; [discriminate|].
      simpl in Ha; apply andb_true_iff in Ha as [Hp _].
      unfold lower_char in *.
      destruct ((65 <=? c) && (c <=? 90))%N.
      { simpl in Hc |- *; apply orb_true_iff in Hc; tauto. }
      destruct (c =? 304)%N.
      { cbn [app contains] in Hc.
        apply orb_true_iff in Hc as [Hc|Hc]; [now left|].
        apply orb_true_iff in Hc as [Hc|Hc]; [|now right].
        simpl in Hc; apply andb_true_iff in Hc as [Hc _].
        apply N.eqb_eq in Hc; rewrite Hc in Hp; discriminate Hp. }
      destruct (c =? 8490)%N;
        simpl in Hc |- *; apply orb_true_iff in Hc; tauto. }
    cbn [re_search]; apply orb_true_iff.
    destruct Hor as [Hs|Hr]; [left|right; now apply IH].
    destruct (starts_with_lower_ci l (c :: t) Ha Hs) as [rest Hm].
    unfold pattern_matches_at, branch_matches_at; simpl.
    now rewrite Hm.
Qed.

Lemma pattern_literal_In l :
  In l pattern_literals ->
  exists p code,
    In (p, code) CURRENCY_PATTERNS
    /\ In {| literal := l; not_before_space := false |} p.
Proof.
  unfold pattern_literals; rewrite in_flat_map.
  intros ([p code] & Hin & Hl); simpl in Hl.
  apply in_map_iff in Hl as ([l' nbs] & <- & Hb).
  apply filter_In in Hb as [Hb Hf]; simpl in Hf.
  destruct nbs; [discriminate|]. eauto.
Qed.

Lemma scan_None_all {A} (test : A -> bool) table a code :
  scan test table = None -> In (a, code) table -> test a = false.
Proof.
  induction table as [|[a' c'] table IH]; simpl; [tauto|].
  destruct (test a') eqn:E; [discriminate|].
  intros H [Hin|Hin]; [congruence|auto].
Qed.

Lemma no_pattern_no_literal text l :
  scan (fun p => re_search p text) CURRENCY_PATTERNS = None ->
  In l pattern_literals ->
  re_search [{| literal := l; not_before_space := false |}] text = false.
Proof.
  intros Hs Hl; destruct (pattern_literal_In l Hl) as (p & code & Hp & Hb).
  pose proof (scan_None_all _ _ _ _ Hs Hp) as Hf; simpl in Hf.
  destruct (re_search [_] text) eqn:E; [|reflexivity].
  rewrite (re_search_single _ _ _ Hb E) in Hf; discriminate.
Qed.

Lemma shadowed_alias_silent text alias :
  scan (fun p => re_search p text) CURRENCY_PATTERNS = None ->
  shadowed_alias alias = true ->
  contains alias (lower text) = false.
Proof.
  intros Hs Hsh; unfold shadowed_alias in Hsh.
  apply existsb_exists in Hsh as (l & Hl & H).
  apply andb_true_iff in H as [H Hc]; apply andb_true_iff in H as [Hn Ha].
  destruct (contains alias (lower text)) eqn:E; [|reflexivity].
  pose proof (contains_lower_re_search l text Hn Ha (contains_trans _ _ _ Hc E)) as Hr.
  rewrite (no_pattern_no_literal text l Hs Hl) in Hr; discriminate.
Qed.

Lemma shadowed_symbol_silent text symbol :
  scan (fun p => re_search p text) CURRENCY_PATTERNS = None ->
  shadowed_symbol symbol = true ->
  contains symbol text = false.
Proof.
  intros Hs Hsh; unfold shadowed_symbol in Hsh.
  apply existsb_exists in Hsh as (l & Hl & Hc).
  destruct (contains symbol text) eqn:E; [|reflexivity].
  pose proof (contains_re_search l text (contains_trans _ _ _ Hc E)) as Hr.
  rewrite (no_pattern_no_literal text l Hs Hl) in Hr; discriminate.
Qed.

Lemma tier_reaches_only_sound allowed shadowed x before table code :
  tier_reaches_only allowed shadowed before table = true ->
  (forall key, shadowed key = true -> contains key x = false) ->
  Forall (fun k => contains k x = false) before ->
  scan (fun key => contains key x) table = Some code ->
  allowed code = true.
Proof.
  intros Ht Hsh; revert before Ht.
  induction table as [|[key c] table IH]; intros before Ht Hb Hs; [discriminate|].
  simpl in Ht, Hs; apply andb_true_iff in Ht as [Hk Ht].
  destruct (contains key x) eqn:E.
  - injection Hs as <-.
    apply orb_true_iff in Hk as [Hk|Hk].
    + apply orb_true_iff in Hk as [Hk|Hk]; [exact Hk|].
      rewrite (Hsh _ Hk) in E; discriminate.
    + apply existsb_exists in Hk as (k & Hin & Hc).
      rewrite Forall_forall in Hb.
      specialize (Hb k Hin); simpl in Hb.
      rewrite (contains_trans _ _ _ Hc E) in Hb; discriminate.
  - apply (IH (before ++ [key])); auto.
    apply Forall_app; split; [exact Hb|]. now constructor.
Qed.

Lemma code_among_In codes c : code_among codes c = true -> In c codes.
Proof.
  unfold code_among; rewrite existsb_exists.
  intros (c' & Hin & E). destruct (str_eqb_spec c' c) as [<-|]; [exact Hin|discriminate].
Qed.

(** X7. What [detect_currency] returns is one of four kinds: a code with
    confidence 0.9; or USD, GBP or JPY with 0.85; or USD, NOK or ZAR with
    0.88; or USD with 0.5. So every other currency is only ever reported with
    0.9: the aliases of EUR, CAD, AUD, CHF, CNY and INR, and the symbols
    other than "$", "kr" and "R", never decide, since a pattern or an earlier
    entry always answers for them. *)
Theorem detect_currency_tiers (text : str) :
  (exists code, detect_currency text = (code, 0.9%float))
  \/ (exists code,
         detect_currency text = (code, 0.85%float)
         /\ In code [u "USD"; u "GBP"; u "JPY"])
  \/ (exists code,
         detect_currency text = (code, 0.88%float)
         /\ In code [u "USD"; u "NOK"; u "ZAR"])
  \/ detect_currency text = (u "USD", 0.5%float).
Proof.
  unfold detect_currency.
  destruct text as [|c0 text0]; [tauto|].
  destruct_scan CURRENCY_PATTERNS E1; [left; eauto|].
  destruct_scan CURRENCY_NAMES E2.
  { right; left; eexists; split; [reflexivity|].
    apply code_among_In.
    apply (tier_reaches_only_sound
             (code_among [u "USD"; u "GBP"; u "JPY"]) shadowed_alias
             (lower (c0 :: text0)) [] CURRENCY_NAMES s).
    - vm_compute; reflexivity.
    - intros key; apply shadowed_alias_silent, E1.
    - constructor.
    - exact E2. }
  destruct_scan CURRENCY_SYMBOLS E3; [|tauto].
  right; right; left; eexists; split; [reflexivity|].
  apply code_among_In.
  apply (tier_reaches_only_sound
           (code_among [u "USD"; u "NOK"; u "ZAR"]) shadowed_symbol
           (c0 :: text0) [] CURRENCY_SYMBOLS s).
  - vm_compute; reflexivity.
  - intros key; apply shadowed_symbol_silent, E1.
  - constructor.
  - exact E3.
Qed.

(** ** More on the normalizer *)

Lemma set_same {V} (d : dict V) k v : get d k = Some v -> set d k v = d.
Proof.
  induction d as [|[k' v'] d IH]; simpl; [discriminate|].
  destruct (str_eqb k' k).
  - intros H; now injection H as ->.
  - intros H; now rewrite IH.
Qed.

Lemma normalize_line_items_bad rates c items :
  valid_rates rates = true ->
  forallb item_contract items = false ->
  normalize_line_items rates c items = Raise TypeError.
Proof.
  intros Hv; induction items as [|item rest IH]; simpl; [discriminate|].
  intros H; destruct (item_contract item) eqn:Hi.
  - destruct (normalize_line_item_spec rates c item Hv Hi) as (item' & -> & _); simpl.
    now rewrite IH.
  - unfold normalize_line_item, item_contract in *.
    destruct (get item K_cost) as [v|]; [|discriminate].
    destruct v; simpl in *; try discriminate; reflexivity.
Qed.

Lemma normalize_currency_data_bad repr rates inv :
  valid_rates rates = true ->
  contract inv = false ->
  normalize_currency_data repr rates inv = Raise TypeError.
Proof.
  intros Hv; unfold contract, normalize_currency_data; intros Hc.
  destruct (detect_currency _) as [c conf].
  rewrite !get_set_other by neq_keys.
  destruct (get inv K_total_amount) as [v|] eqn:Ht.
  - destruct (numeric v) eqn:Hn.
    + destruct (numeric_as_number _ Hn) as [a ->]; simpl.
      destruct (convert_currency_total rates a c (u "USD") Hv) as [y ->]; simpl.
      rewrite !get_set_other by neq_keys.
      simpl in Hc.
      destruct (get inv K_line_items) as [[ | | | |items]|]; try discriminate;
        try reflexivity.
      now rewrite (normalize_line_items_bad rates c items Hv Hc).
    + destruct v; simpl in Hn |- *; try discriminate; reflexivity.
  - simpl in Hc |- *.
    rewrite !get_set_other by neq_keys.
    destruct (get inv K_line_items) as [[ | | | |items]|]; try discriminate;
      try reflexivity.
    now rewrite (normalize_line_items_bad rates c items Hv Hc).
Qed.

Lemma normalize_ok_contract repr rates inv r :
  valid_rates rates = true ->
  normalize_currency_data repr rates inv = Ok r ->
  contract inv = true.
Proof.
  intros Hv Hr; destruct (contract inv) eqn:Hc; [reflexivity|].
  rewrite (normalize_currency_data_bad repr rates inv Hv Hc) in Hr; discriminate.
Qed.



Lemma normalize_currency_fields repr rates inv r :
  normalize_currency_data repr rates inv = Ok r ->
  get r K_currency = Some (VStr (fst (detect_currency (detection_text repr inv))))
  /\ get r K_currency_confidence
     = Some (VNum (snd (detect_currency (detection_text repr inv))))
  /\ get r K_currency_symbol
     = Some (VStr (get_currency_symbol
                     (fst (detect_currency (detection_text repr inv))))).
Proof.
  unfold normalize_currency_data.
  change (py_str repr (get_default inv K_vendor_name (VStr []))
            ++ u " " ++ py_str repr (get_default inv K_invoice_number (VStr []))
            ++ u " " ++ py_str repr (get_default inv K_invoice_date (VStr [])))
    with (detection_text repr inv).
  destruct (detect_currency (detection_text repr inv)) as [c conf]; simpl fst; simpl snd.
  set (d3 := set (set (set inv K_currency (VStr c)) K_currency_confidence (VNum conf))
                 K_currency_symbol (VStr (get_currency_symbol c))).
  assert (C3 : get d3 K_currency = Some (VStr c)
               /\ get d3 K_currency_confidence = Some (VNum conf)
               /\ get d3 K_currency_symbol = Some (VStr (get_currency_symbol c))).
  { unfold d3; repeat split.
    - rewrite !get_set_other by neq_keys. apply get_set_same.
    - rewrite get_set_other by neq_keys. apply get_set_same.
    - apply get_set_same. }
  assert (Keep : forall (d : dict value) v1 v2,
             get (set (set d K_total_amount_formatted v1) K_total_amount_usd v2) K_currency
             = get d K_currency
             /\ get (set (set d K_total_amount_formatted v1) K_total_amount_usd v2)
                  K_currency_confidence = get d K_currency_confidence
             /\ get (set (set d K_total_amount_formatted v1) K_total_amount_usd v2)
                  K_currency_symbol = get d K_currency_symbol).
  { intros; repeat split; rewrite !get_set_other by neq_keys; reflexivity. }
  assert (Last : forall (d d' : dict value),
             (get d K_currency = Some (VStr c)
              /\ get d K_currency_confidence = Some (VNum conf)
              /\ get d K_currency_symbol = Some (VStr (get_currency_symbol c))) ->
             match get d K_line_items with
             | Some (VList items) =>
                 items' <- normalize_line_items rates c items ;;
                 Ok (set d K_line_items (VList items'))
             | Some (VStr _) | None => Ok d
             | Some (VNone | VBool _ | VNum _) => Raise TypeError
             end = Ok d' ->
             get d' K_currency = Some (VStr c)
             /\ get d' K_currency_confidence = Some (VNum conf)
             /\ get d' K_currency_symbol = Some (VStr (get_currency_symbol c))).
  { intros d d' Hd H.
    destruct (get d K_line_items) as [[ | | | |items]|]; try discriminate;
      try (injection H as <-; exact Hd).
    destruct (normalize_line_items rates c items); [|discriminate].
    simpl in H; injection H as <-.
    rewrite !get_set_other by neq_keys; exact Hd. }
  destruct (get d3 K_total_amount) as [v|].
  - destruct (as_number v) as [a|]; [|discriminate]; cbn [bind].
    destruct (convert_currency rates a c (u "USD")) as [y|]; [|discriminate]; cbn [bind].
    intros H; refine (Last _ _ _ H).
    destruct (Keep d3 (VStr (format_currency a c true)) (VNum y)) as (K1 & K2 & K3).
    rewrite K1, K2, K3; exact C3.
  - cbn [bind]; intros H; exact (Last _ _ C3 H).
Qed.

(** X9. The detected currency, its confidence and its symbol depend on the
    vendor name, the invoice number and the invoice date alone: two records
    that agree on these three fields are given the same three values,
    whatever their amounts and line items say. *)
Theorem detection_reads_three_fields (repr : value -> str) (rates : dict float)
    (inv1 inv2 r1 r2 : invoice) :
  get inv1 K_vendor_name = get inv2 K_vendor_name ->
  get inv1 K_invoice_number = get inv2 K_invoice_number ->
  get inv1 K_invoice_date = get inv2 K_invoice_date ->
  normalize_currency_data repr rates inv1 = Ok r1 ->
  normalize_currency_data repr rates inv2 = Ok r2 ->
  get r1 K_currency = get r2 K_currency
  /\ get r1 K_currency_confidence = get r2 K_currency_confidence
  /\ get r1 K_currency_symbol = get r2 K_currency_symbol.
Proof.
  intros H1 H2 H3 N1 N2.
  destruct (normalize_currency_fields _ _ _ _ N1) as (A1 & B1 & C1).
  destruct (normalize_currency_fields _ _ _ _ N2) as (A2 & B2 & C2).
  assert (E : detection_text repr inv1 = detection_text repr inv2).
  { unfold detection_text, get_default; now rewrite H1, H2, H3. }
  rewrite A1, B1, C1, A2, B2, C2, E; auto.
Qed.

Lemma detection_reads_three_fields_witness :
  exists r1 r2,
    normalize_currency_data no_repr EXCHANGE_RATES
      [ (K_vendor_name, VStr (u "Acme Tools")); (K_total_amount, VNum 10%float) ] = Ok r1
    /\ normalize_currency_data no_repr EXCHANGE_RATES
         [ (K_vendor_name, VStr (u "Acme Tools"));
           (K_line_items,
            VList [ [ (K_description, VStr (u "Paid in EUR")); (K_cost, VNum 5%float) ] ]) ]
       = Ok r2
    /\ get r1 K_currency = get r2 K_currency.
Proof.
  pose (i1 := [ (K_vendor_name, VStr (u "Acme Tools")); (K_total_amount, VNum 10%float) ]).
  pose (i2 := [ (K_vendor_name, VStr (u "Acme Tools"));
                (K_line_items,
                 VList [ [ (K_description, VStr (u "Paid in EUR"));
                           (K_cost, VNum 5%float) ] ]) ]).
  fold i1 i2.
  destruct (normalize_currency_data no_repr EXCHANGE_RATES i1) as [r1|] eqn:N1;
    [|vm_compute in N1; discriminate N1].
  destruct (normalize_currency_data no_repr EXCHANGE_RATES i2) as [r2|] eqn:N2;
    [|vm_compute in N2; discriminate N2].
  exists r1, r2; split; [reflexivity|]; split; [reflexivity|].
  exact (proj1 (detection_reads_three_fields no_repr EXCHANGE_RATES i1 i2 r1 r2
                  eq_refl eq_refl eq_refl N1 N2)).
Defined.

Lemma item_enriched_fixed rates c item item' :
  item_enriched rates c item item' ->
  normalize_line_item rates c item' = Ok item'.
Proof.
  intros [Hf Hc]; unfold normalize_line_item.
  rewrite (Hf K_cost) by neq_keys.
  destruct (get item K_cost) as [v|].
  - destruct Hc as (cost & cost_usd & -> & Hy & Hfmt & Husd); cbn [bind].
    rewrite (set_same _ _ _ Hfmt), Hy; cbn [bind].
    now rewrite (set_same _ _ _ Husd).
  - reflexivity.
Qed.

Lemma items_enriched_fixed rates c items items' :
  Forall2 (item_enriched rates c) items items' ->
  normalize_line_items rates c items' = Ok items'.
Proof.
  induction 1 as [|item item' items items' He _ IH]; simpl; [reflexivity|].
  now rewrite (item_enriched_fixed _ _ _ _ He), IH.
Qed.

(** X10. Normalization is idempotent: normalizing a record that
    normalization returned gives that same record back, entry for entry. *)
Theorem normalize_currency_data_idempotent (repr : value -> str) (rates : dict float)
    (inv r : invoice) :
  valid_rates rates = true ->
  normalize_currency_data repr rates inv = Ok r ->
  normalize_currency_data repr rates r = Ok r.
Proof.
  intros Hv Hr.
  pose proof (normalize_ok_contract _ _ _ _ Hv Hr) as Hc.
  destruct (normalize_currency_data_spec repr rates inv Hv Hc) as (r' & Hr' & Hn).
  assert (r' = r) by congruence; subst r'; clear Hr'.
  destruct Hn as [Hcur Hconf Hsym Hframe Htot Hitems].
  assert (Et : detection_text repr r = detection_text repr inv).
  { unfold detection_text, get_default.
    rewrite !Hframe; try reflexivity; try neq_keys; vm_compute; intuition discriminate. }
  unfold normalize_currency_data.
  change (py_str repr (get_default r K_vendor_name (VStr []))
            ++ u " " ++ py_str repr (get_default r K_invoice_number (VStr []))
            ++ u " " ++ py_str repr (get_default r K_invoice_date (VStr [])))
    with (detection_text repr r).
  rewrite Et.
  destruct (detect_currency (detection_text repr inv)) as [c conf];
    simpl fst in *; simpl snd in *.
  rewrite (set_same _ _ _ Hcur), (set_same _ _ _ Hconf), (set_same _ _ _ Hsym).
  rewrite (Hframe K_total_amount); [|vm_compute; intuition discriminate|neq_keys].
  assert (Tail : match get r K_line_items with
                 | Some (VList items) =>
                     items' <- normalize_line_items rates c items ;;
                     Ok (set r K_line_items (VList items'))
                 | Some (VStr _) | None => Ok r
                 | Some (VNone | VBool _ | VNum _) => Raise TypeError
                 end = Ok r).
  { unfold contract in Hc; apply andb_true_iff in Hc as [_ Hl].
    destruct (get inv K_line_items) as [[ | | | |items]|]; try discriminate;
      try (now rewrite Hitems).
    destruct Hitems as (items' & Hg & HF); rewrite Hg.
    rewrite (items_enriched_fixed _ _ _ _ HF); cbn [bind].
    now rewrite (set_same _ _ _ Hg). }
  destruct (get inv K_total_amount) as [v|].
  - destruct Htot as (a & a_usd & -> & Hy & Hfmt & Husd); cbn [bind].
    rewrite (set_same _ _ _ Hfmt), Hy; cbn [bind].
    rewrite (set_same _ _ _ Husd); exact Tail.
  - cbn [bind]; exact Tail.
Qed.

Lemma normalize_currency_data_idempotent_witness :
  exists r,
    normalize_currency_data no_repr EXCHANGE_RATES euro_invoice = Ok r
    /\ normalize_currency_data no_repr EXCHANGE_RATES r = Ok r.
Proof.
  destruct (normalize_currency_data no_repr EXCHANGE_RATES euro_invoice) as [r|] eqn:N;
    [|vm_compute in N; discriminate N].
  exists r; split; [reflexivity|].
  exact (normalize_currency_data_idempotent no_repr EXCHANGE_RATES euro_invoice r
           eq_refl N).
Defined.

(** X11. The flag is decided on the converted total. For a record that meets
    the contract and has a [total_amount], [flagged] says whether the amount
    in USD is above 5000.0: the amount itself when the detected currency is
    USD, the amount divided by the rate of the detected currency and rounded
    otherwise. With neither [total_amount] nor [total_amount_usd] the record
    is not flagged. *)
Theorem flag_reads_converted_total (repr : value -> str)
    (float_of_text : str -> result float) (inv : invoice) :
  contract inv = true ->
  (forall v,
      get inv K_total_amount = Some v ->
      exists r a y,
        _process_single_invoice repr float_of_text EXCHANGE_RATES inv = Ok r
        /\ as_number v = Ok a
        /\ known_rate_conversion a (fst (detect_currency (detection_text repr inv))) y
        /\ get r K_flagged = Some (VBool (PrimFloat.ltb 5000.0 y)))
  /\ (get inv K_total_amount = None ->
      get inv K_total_amount_usd = None ->
      exists r,
        _process_single_invoice repr float_of_text EXCHANGE_RATES inv = Ok r
        /\ get r K_flagged = Some (VBool false)).
Proof.
  intros Hc.
  destruct (normalize_currency_data_spec repr EXCHANGE_RATES inv
              baseline_rates_valid Hc) as (d & Hd & Hn).
  unfold _process_single_invoice; rewrite Hd; cbn [bind].
  rewrite get_default_usd_equivalent; unfold usd_equivalent_total.
  pose proof (norm_total _ _ _ _ Hn) as Ht.
  split.
  - intros v Hv; rewrite Hv in Ht.
    destruct Ht as (a & y & Ha & Hy & _ & Hu); rewrite Hu; cbn [py_float bind].
    eexists; exists a, y; split; [reflexivity|]; split; [exact Ha|]; split.
    + destruct (convert_currency_with_rate a _
                  (detect_currency_has_rate (detection_text repr inv)))
        as (_ & y' & Hy' & K).
      congruence.
    + apply get_set_same.
  - intros Hv Hu; rewrite Hv in Ht; destruct Ht as [_ Ht]; rewrite Ht, Hu.
    rewrite (norm_frame _ _ _ _ Hn K_total_amount), Hv;
      [|vm_compute; intuition discriminate|neq_keys].
    cbn [py_float bind].
    eexists; split; [reflexivity|]. apply get_set_same.
Qed.

Lemma flag_reads_converted_total_witness :
  exists r,
    _process_single_invoice no_repr no_float EXCHANGE_RATES
      [ (K_vendor_name, VStr (u "Tokyo Parts JPY")); (K_total_amount, VNum 6000%float) ]
    = Ok r
    /\ get r K_flagged = Some (VBool false).
Proof.
  destruct (proj1 (flag_reads_converted_total no_repr no_float
                     [ (K_vendor_name, VStr (u "Tokyo Parts JPY"));
                       (K_total_amount, VNum 6000%float) ] eq_refl)
              (VNum 6000%float) eq_refl) as (r & a & y & Hr & _ & _ & _).
  exists r; split; [exact Hr|].
  vm_compute in Hr; injection Hr as <-; reflexivity.
Defined.

(** ** The extraction's cleaning *)

Lemma lstrip_no_leading s : no_leading_space (lstrip s).
Proof.
  induction s as [|c s IH]; simpl; [exact I|].
  destruct (is_space c) eqn:E; [exact IH|exact E].
Qed.

Lemma lstrip_fixed s : no_leading_space s -> lstrip s = s.
Proof. destruct s as [|c s]; simpl; [reflexivity|]. now intros ->. Qed.

Lemma lstrip_split s : exists sp, s = sp ++ lstrip s.
Proof.
  induction s as [|c s [sp IH]]; simpl; [now exists []|].
  destruct (is_space c); [|now exists []].
  exists (c :: sp); simpl; now rewrite <- IH.
Qed.

Lemma no_leading_space_prefix a b :
  no_leading_space (a ++ b) -> a <> [] -> no_leading_space a.
Proof. destruct a; simpl; [congruence|auto]. Qed.

Lemma strip_trimmed s : trimmed (strip s).
Proof.
  unfold trimmed, strip; rewrite rev_involutive.
  split; [|apply lstrip_no_leading].
  destruct (lstrip_split (rev (lstrip s))) as [sp E].
  apply (f_equal (@rev _)) in E; rewrite rev_involutive, rev_app_distr in E.
  destruct (rev (lstrip (rev (lstrip s)))) as [|c r] eqn:R; [exact I|].
  apply (no_leading_space_prefix (c :: r) (rev sp)); [|discriminate].
  rewrite <- E; apply lstrip_no_leading.
Qed.

Lemma strip_fixed s : trimmed s -> strip s = s.
Proof.
  intros [H1 H2]; unfold strip.
  now rewrite (lstrip_fixed _ H1), (lstrip_fixed _ H2), rev_involutive.
Qed.

Lemma strip_idempotent s : strip (strip s) = strip s.
Proof. apply strip_fixed, strip_trimmed. Qed.

Lemma clean_line_item_spec repr fot item :
  float_raises_value_error fot ->
  clean_line_item repr fot item
  = Ok (match cleaned_item repr fot item with
        | item' :: _ => Some item'
        | [] => None
        end).
Proof.
  intros Hf; unfold clean_line_item, cleaned_item.
  destruct (py_float fot (get_default item K_cost (VNum 0))) as [cost|e] eqn:E;
    [reflexivity|].
  assert (He : e = ValueError \/ e = TypeError).
  { unfold py_float in E.
    destruct (get_default item K_cost (VNum 0)); try discriminate;
      try (injection E as <-; tauto).
    left; exact (Hf _ _ E). }
  destruct He as [-> | ->]; reflexivity.
Qed.

Lemma clean_line_items_spec repr fot items :
  float_raises_value_error fot ->
  clean_line_items repr fot items = Ok (flat_map (cleaned_item repr fot) items).
Proof.
  intros Hf; induction items as [|item rest IH]; simpl; [reflexivity|].
  rewrite (clean_line_item_spec repr fot item Hf), IH; cbn [bind].
  now destruct (cleaned_item repr fot item) as [|item' [|]] eqn:E;
    unfold cleaned_item in E;
    destruct (py_float fot (get_default item K_cost (VNum 0))); try discriminate;
    try (injection E as <-).
Qed.


Lemma get_default_set_other {V} (d : dict V) k k' v default :
  k <> k' -> get_default (set d k v) k' default = get_default d k' default.
Proof. intros H; unfold get_default; now rewrite get_set_other. Qed.

(** The record [_parse_response] returns, field by field. *)
Lemma parse_response_spec repr fot data :
  float_raises_value_error fot ->
  exists d,
    _parse_response repr fot data = Ok d
    /\ get d K_vendor_name = Some (VStr (cleaned_text repr data K_vendor_name))
    /\ get d K_invoice_number = Some (VStr (cleaned_text repr data K_invoice_number))
    /\ get d K_invoice_date = Some (VStr (cleaned_text repr data K_invoice_date))
    /\ get d K_total_amount = Some (VNum (cleaned_total fot data))
    /\ get d K_line_items
       = Some (VList (flat_map (cleaned_item repr fot) (raw_line_items data)))
    /\ (forall k, ~ In k extraction_keys -> get d k = get data k).
Proof.
  intros Hf; unfold _parse_response; cbv zeta.
  rewrite !get_default_set_other by neq_keys.
  fold (cleaned_text repr data K_vendor_name).
  fold (cleaned_text repr data K_invoice_number).
  fold (cleaned_text repr data K_invoice_date).
  assert (T : match py_float fot (get_default data K_total_amount (VNum 0)) with
              | Ok x => Ok x
              | Raise (ValueError | TypeError) => Ok 0.0%float
              | Raise e => Raise e
              end = Ok (cleaned_total fot data)).
  { unfold cleaned_total.
    destruct (py_float fot (get_default data K_total_amount (VNum 0))) as [x|e] eqn:E;
      [reflexivity|].
    assert (He : e = ValueError \/ e = TypeError).
    { unfold py_float in E.
      destruct (get_default data K_total_amount (VNum 0)); try discriminate;
        try (injection E as <-; tauto).
      left; exact (Hf _ _ E). }
    destruct He as [-> | ->]; reflexivity. }
  rewrite T; cbn [bind].
  rewrite !get_default_set_other by neq_keys.
  assert (L : match get_default data K_line_items (VList []) with
              | VList items => items
              | VNone | VBool _ | VNum _ | VStr _ => []
              end = raw_line_items data).
  { unfold raw_line_items, get_default.
    now destruct (get data K_line_items) as [[]|]. }
  rewrite L, (clean_line_items_spec repr fot _ Hf); cbn [bind].
  eexists; split; [reflexivity|].
  repeat split.
  - rewrite !get_set_other by neq_keys; apply get_set_same.
  - rewrite !get_set_other by neq_keys; apply get_set_same.
  - rewrite !get_set_other by neq_keys; apply get_set_same.
  - rewrite get_set_other by neq_keys; apply get_set_same.
  - apply get_set_same.
  - intros k Hk; unfold extraction_keys in Hk; simpl in Hk.
    rewrite !get_set_other by intuition congruence.
    reflexivity.
Qed.

Lemma parse_response_form repr fot data :
  float_raises_value_error fot ->
  _parse_response repr fot data
  = Ok (set
          (set
             (set
                (set
                   (set data K_vendor_name
                      (VStr (cleaned_text repr data K_vendor_name)))
                   K_invoice_number (VStr (cleaned_text repr data K_invoice_number)))
                K_invoice_date (VStr (cleaned_text repr data K_invoice_date)))
             K_total_amount (VNum (cleaned_total fot data)))
          K_line_items
          (VList (flat_map (cleaned_item repr fot) (raw_line_items data)))).
Proof.
  intros Hf.
  destruct (parse_response_spec repr fot data Hf) as (d & Hd & _).
  revert Hd; unfold _parse_response; cbv zeta.
  rewrite !get_default_set_other by neq_keys.
  fold (cleaned_text repr data K_vendor_name).
  fold (cleaned_text repr data K_invoice_number).
  fold (cleaned_text repr data K_invoice_date).
  unfold cleaned_total.
  destruct (py_float fot (get_default data K_total_amount (VNum 0))) as [x|e] eqn:E.
  - cbn [bind]; rewrite !get_default_set_other by neq_keys.
    replace (match get_default data K_line_items (VList []) with
             | VList items => items
             | VNone | VBool _ | VNum _ | VStr _ => []
             end) with (raw_line_items data)
      by (unfold raw_line_items, get_default; now destruct (get data K_line_items) as [[]|]).
    now rewrite (clean_line_items_spec repr fot _ Hf).
  - assert (He : e = ValueError \/ e = TypeError).
    { unfold py_float in E.
      destruct (get_default data K_total_amount (VNum 0)); try discriminate;
        try (injection E as <-; tauto).
      left; exact (Hf _ _ E). }
    destruct He as [-> | ->]; cbn [bind];
      rewrite !get_default_set_other by neq_keys;
      replace (match get_default data K_line_items (VList []) with
               | VList items => items
               | VNone | VBool _ | VNum _ | VStr _ => []
               end) with (raw_line_items data)
        by (unfold raw_line_items, get_default;
            now destruct (get data K_line_items) as [[]|]);
      now rewrite (clean_line_items_spec repr fot _ Hf).
Qed.



Lemma always_value_error : float_raises_value_error no_float.
Proof. intros s e H; unfold no_float in H; congruence. Qed.




Lemma cleaned_item_cases repr fot item :
  cleaned_item repr fot item = []
  \/ exists description cost,
      cleaned_item repr fot item = [clean_item (strip description) cost].
Proof.
  unfold cleaned_item.
  destruct (py_float fot (get_default item K_cost (VNum 0))); eauto.
Qed.

Lemma cleaned_item_of_clean repr fot description cost :
  cleaned_item repr fot (clean_item description cost)
  = [clean_item (strip description) cost].
Proof. reflexivity. Qed.

Lemma cleaned_items_fixed repr fot items :
  flat_map (cleaned_item repr fot) (flat_map (cleaned_item repr fot) items)
  = flat_map (cleaned_item repr fot) items.
Proof.
  induction items as [|item rest IH]; simpl; [reflexivity|].
  rewrite flat_map_app, IH; f_equal.
  destruct (cleaned_item_cases repr fot item) as [->|(description & cost & ->)];
    [reflexivity|].
  cbn [flat_map]; rewrite cleaned_item_of_clean, strip_idempotent; reflexivity.
Qed.

(** X14. The cleaning is idempotent: cleaning a record that
    [_parse_response] returned gives that same record back. *)
Theorem parse_response_idempotent (repr : value -> str)
    (float_of_text : str -> result float) (data d : dict value) :
  float_raises_value_error float_of_text ->
  _parse_response repr float_of_text data = Ok d ->
  _parse_response repr float_of_text d = Ok d.
Proof.
  intros Hf Hd.
  destruct (parse_response_spec repr float_of_text data Hf)
    as (d' & Hd' & H1 & H2 & H3 & H4 & H5 & _).
  assert (d' = d) by congruence; subst d'; clear Hd'.
  rewrite (parse_response_form repr float_of_text d Hf).
  assert (E1 : cleaned_text repr d K_vendor_name = cleaned_text repr data K_vendor_name).
  { unfold cleaned_text at 1, get_default; rewrite H1; simpl.
    unfold cleaned_text; apply strip_idempotent. }
  assert (E2 : cleaned_text repr d K_invoice_number
               = cleaned_text repr data K_invoice_number).
  { unfold cleaned_text at 1, get_default; rewrite H2; simpl.
    unfold cleaned_text; apply strip_idempotent. }
  assert (E3 : cleaned_text repr d K_invoice_date = cleaned_text repr data K_invoice_date).
  { unfold cleaned_text at 1, get_default; rewrite H3; simpl.
    unfold cleaned_text; apply strip_idempotent. }
  assert (E4 : cleaned_total float_of_text d = cleaned_total float_of_text data).
  { unfold cleaned_total at 1, get_default; now rewrite H4. }
  assert (E5 : flat_map (cleaned_item repr float_of_text) (raw_line_items d)
               = flat_map (cleaned_item repr float_of_text) (raw_line_items data)).
  { unfold raw_line_items at 1; rewrite H5. apply cleaned_items_fixed. }
  rewrite E1, E2, E3, E4, E5.
  rewrite (set_same _ _ _ H1), (set_same _ _ _ H2), (set_same _ _ _ H3),
    (set_same _ _ _ H4), (set_same _ _ _ H5).
  reflexivity.
Qed.

Lemma parse_response_idempotent_witness :
  exists d,
    _parse_response no_repr no_float
      [ (K_vendor_name, VStr (u "  Acme Tools ")); (K_total_amount, VStr (u "n/a")) ]
    = Ok d
    /\ _parse_response no_repr no_float d = Ok d.
Proof.
  destruct (_parse_response no_repr no_float
              [ (K_vendor_name, VStr (u "  Acme Tools "));
                (K_total_amount, VStr (u "n/a")) ]) as [d|] eqn:E;
    [|vm_compute in E; discriminate E].
  exists d; split; [reflexivity|].
  exact (parse_response_idempotent no_repr no_float _ d always_value_error E).
Defined.

(** ** The batch *)

Lemma process_files_spec process_file error_message paths invoices errors :
  process_files process_file error_message paths invoices errors
  = (invoices ++ flat_map (succeeded process_file) paths,
     errors ++ flat_map (failed process_file error_message) paths).
Proof.
  revert invoices errors; induction paths as [|p paths IH]; intros invoices errors;
    simpl.
  - now rewrite !app_nil_r.
  - unfold succeeded at 1, failed at 1.
    destruct (process_file p) as [inv|e]; rewrite IH; simpl.
    + now rewrite <- app_assoc.
    + now rewrite <- app_assoc.
Qed.

Lemma partition_lengths process_file error_message (paths : list str) :
  (List.length (flat_map (succeeded process_file) paths)
   + List.length (flat_map (failed process_file error_message) paths)
   = List.length paths)%nat.
Proof.
  induction paths as [|p paths IH]; simpl; [reflexivity|].
  rewrite !length_app; unfold succeeded at 1, failed at 1.
  destruct (process_file p); simpl; lia.
Qed.

(** X15. [process_invoices] gives every file exactly one outcome: the
    invoices returned are the files that were processed, in the order of the
    batch, and the error list holds one message for each file that raised, so
    the two together are as many as the files. When no file succeeds (an
    empty batch included) it raises [ValueError]; otherwise the summary
    counts the returned invoices, and its [errors] entry is [None] exactly
    when no file raised. *)
Theorem process_invoices_partition
    (float_of_text : str -> result float) (py_sum : list float -> float)
    (process_file : str -> result invoice) (error_message : str -> exn -> str)
    (paths : list str) :
  process_files process_file error_message paths [] []
  = (flat_map (succeeded process_file) paths,
     flat_map (failed process_file error_message) paths)
  /\ (List.length (flat_map (succeeded process_file) paths)
      + List.length (flat_map (failed process_file error_message) paths)
      = List.length paths)%nat
  /\ (flat_map (succeeded process_file) paths = [] ->
      process_invoices float_of_text py_sum process_file error_message paths
      = Raise ValueError)
  /\ (forall amounts,
        flat_map (succeeded process_file) paths <> [] ->
        total_amounts float_of_text (flat_map (succeeded process_file) paths)
        = Ok amounts ->
        exists summary,
          process_invoices float_of_text py_sum process_file error_message paths
          = Ok (flat_map (succeeded process_file) paths, summary)
          /\ get summary K_total_invoices_processed
             = Some (RInt (Z.of_nat
                             (List.length (flat_map (succeeded process_file) paths))))
          /\ get summary K_total_amount = Some (RNum (round2 (py_sum amounts)))
          /\ get summary K_flagged_invoices_count
             = Some (RInt (flagged_count (flat_map (succeeded process_file) paths)))
          /\ get summary K_errors
             = Some (match flat_map (failed process_file error_message) paths with
                     | [] => RNone
                     | _ :: _ =>
                         RErrors (flat_map (failed process_file error_message) paths)
                     end))
  /\ (flat_map (failed process_file error_message) paths = []
      <-> forall path, In path paths -> exists inv, process_file path = Ok inv).
Proof.
  split; [apply process_files_spec|].
  split; [apply partition_lengths|].
  split; [|split].
  - intros H; unfold process_invoices.
    now rewrite process_files_spec, H.
  - intros amounts Hne Ha; unfold process_invoices.
    rewrite process_files_spec; cbn [app].
    destruct (flat_map (succeeded process_file) paths) as [|inv invs] eqn:E;
      [congruence|].
    unfold get_summary_data; rewrite Ha; cbn [bind].
    eexists; split; [reflexivity|].
    destruct (flat_map (failed process_file error_message) paths); repeat split.
  - split.
    + intros H path Hin.
      destruct (process_file path) as [inv|e] eqn:E; [eauto|].
      assert (Hf : In (error_message path e)
                     (flat_map (failed process_file error_message) paths)).
      { apply in_flat_map; exists path; split; [exact Hin|].
        unfold failed; rewrite E; now left. }
      rewrite H in Hf; contradiction.
    + intros H; induction paths as [|p paths IH]; [reflexivity|]; simpl.
      destruct (H p (or_introl eq_refl)) as [inv Hp].
      unfold failed at 1; rewrite Hp; simpl.
      apply IH; intros path Hin; apply H; now right.
Qed.

(** ** The summary of the batch *)

Lemma normalized_record repr rates inv d :
  valid_rates rates = true ->
  normalize_currency_data repr rates inv = Ok d ->
  get d K_currency = Some (VStr (fst (detect_currency (detection_text repr inv))))
  /\ numeric (get_default d K_total_amount (VNum 0%float)) = true.
Proof.
  intros Hv Hd.
  pose proof (normalize_ok_contract _ _ _ _ Hv Hd) as Hc.
  destruct (normalize_currency_data_spec repr rates inv Hv Hc) as (d' & Hd' & Hn).
  rewrite Hd in Hd'; injection Hd' as <-.
  split; [exact (norm_currency _ _ _ _ Hn)|].
  pose proof (norm_frame _ _ _ _ Hn K_total_amount) as Hf.
  assert (Hk : get d K_total_amount = get inv K_total_amount).
  { apply Hf; [vm_compute; intuition discriminate|neq_keys]. }
  apply andb_true_iff in Hc as [Hc _].
  unfold get_default; rewrite Hk.
  now destruct (get inv K_total_amount).
Qed.

Lemma processed_record repr fot rates inv r :
  valid_rates rates = true ->
  _process_single_invoice repr fot rates inv = Ok r ->
  get r K_currency = Some (VStr (fst (detect_currency (detection_text repr inv))))
  /\ numeric (get_default r K_total_amount (VNum 0%float)) = true
  /\ exists a,
       py_float fot (usd_equivalent_total r) = Ok a
       /\ get r K_flagged = Some (VBool (PrimFloat.ltb 5000.0 a)).
Proof.
  intros Hv; unfold _process_single_invoice.
  destruct (normalize_currency_data repr rates inv) as [d|] eqn:Hd; [|discriminate].
  cbn [bind]; rewrite get_default_usd_equivalent.
  destruct (py_float fot (usd_equivalent_total d)) as [a|] eqn:Ha; [|discriminate].
  cbn [bind]; intros H; injection H as <-.
  destruct (normalized_record _ _ _ _ Hv Hd) as [Hc Hn].
  split; [rewrite get_set_other by neq_keys; exact Hc|].
  split.
  - unfold get_default in *; rewrite get_set_other by neq_keys; exact Hn.
  - exists a; rewrite usd_equivalent_total_set_flagged, get_set_same; auto.
Qed.

Lemma total_amounts_numeric fot invoices :
  Forall (fun r => numeric (get_default r K_total_amount (VNum 0%float)) = true)
    invoices ->
  exists amounts,
    total_amounts fot invoices = Ok amounts
    /\ Forall2 (fun r a => as_number (get_default r K_total_amount (VNum 0%float)) = Ok a)
         invoices amounts.
Proof.
  induction 1 as [|r l Hr _ IH]; simpl.
  - exists []; split; [reflexivity|constructor].
  - destruct IH as (amounts & -> & HF).
    destruct (get_default r K_total_amount (VNum 0%float)) eqn:E; try discriminate;
      simpl; eexists; (split; [reflexivity|]); constructor; auto; rewrite E; reflexivity.
Qed.

Lemma flagged_count_bounds invoices :
  0 <= flagged_count invoices <= Z.of_nat (List.length invoices).
Proof.
  unfold flagged_count; split; [lia|].
  apply inj_le, filter_length_le.
Qed.

(** X16. [get_summary_data] on the records the pipeline returned: with a
    table of non-zero rates it raises nothing, the total is the rounded sum
    of the records' [total_amount] (0 when absent), and the flagged count is
    the number of records whose USD-equivalent total is strictly above 5000,
    which lies between 0 and the number of invoices. *)
Theorem get_summary_data_of_processed
    (repr : value -> str) (float_of_text : str -> result float)
    (py_sum : list float -> float) (rates : dict float) (invoices : list invoice) :
  valid_rates rates = true ->
  processed_batch repr float_of_text rates invoices ->
  exists summary amounts,
    get_summary_data float_of_text py_sum invoices = Ok summary
    /\ Forall2 (fun r a => as_number (get_default r K_total_amount (VNum 0%float)) = Ok a)
         invoices amounts
    /\ get summary K_total_invoices_processed
       = Some (RInt (Z.of_nat (List.length invoices)))
    /\ get summary K_total_amount = Some (RNum (round2 (py_sum amounts)))
    /\ get summary K_flagged_invoices_count
       = Some (RInt (Z.of_nat
                       (List.length (filter (above_threshold float_of_text) invoices))))
    /\ 0 <= Z.of_nat (List.length (filter (above_threshold float_of_text) invoices))
       <= Z.of_nat (List.length invoices).
Proof.
  intros Hv Hp; unfold processed_batch in Hp.
  assert (Hn : Forall (fun r => numeric (get_default r K_total_amount (VNum 0%float))
                                = true) invoices).
  { eapply Forall_impl; [|exact Hp].
    intros r [inv Hr]; exact (proj1 (proj2 (processed_record _ _ _ _ _ Hv Hr))). }
  destruct (total_amounts_numeric float_of_text invoices Hn) as (amounts & Ha & HF).
  assert (Hc : flagged_count invoices
               = Z.of_nat (List.length
                             (filter (above_threshold float_of_text) invoices))).
  { unfold flagged_count; do 2 f_equal.
    apply filter_ext_in; intros r Hin.
    rewrite Forall_forall in Hp; destruct (Hp r Hin) as [inv Hr].
    destruct (processed_record _ _ _ _ _ Hv Hr) as (_ & _ & a & Hx & Hf).
    unfold above_threshold, get_default; rewrite Hx, Hf; reflexivity. }
  unfold get_summary_data; rewrite Ha; cbn [bind].
  eexists; exists amounts; split; [reflexivity|].
  split; [exact HF|].
  split; [reflexivity|]; split; [reflexivity|].
  split; [rewrite Hc; reflexivity|].
  rewrite <- Hc; apply flagged_count_bounds.
Qed.

Lemma get_summary_data_of_processed_witness :
  exists r summary,
    _process_single_invoice no_repr no_float EXCHANGE_RATES sample_invoice = Ok r
    /\ get_summary_data no_float (fold_right PrimFloat.add 0%float) [r] = Ok summary
    /\ get summary K_flagged_invoices_count = Some (RInt 1).
Proof.
  destruct (_process_single_invoice no_repr no_float EXCHANGE_RATES sample_invoice)
    as [r|] eqn:Hr; [|vm_compute in Hr; discriminate].
  destruct (get_summary_data_of_processed no_repr no_float
              (fold_right PrimFloat.add 0%float) EXCHANGE_RATES [r] eq_refl)
    as (summary & amounts & Hs & _ & _ & _ & Hf & _).
  { constructor; [eauto|constructor]. }
  exists r, summary; split; [reflexivity|]; split; [exact Hs|].
  rewrite Hf; vm_compute in Hr; injection Hr as <-; reflexivity.
Defined.

(** ** The breakdown counts every invoice once *)

Lemma summary_entries_length invoices entries :
  summary_entries invoices = Ok entries ->
  List.length entries = List.length invoices.
Proof.
  revert entries; induction invoices as [|inv l IH]; intros entries; simpl.
  - intros H; injection H as <-; reflexivity.
  - destruct (summary_entry inv) as [e|]; simpl; [|discriminate].
    destruct (summary_entries l) as [es|]; simpl; [|discriminate].
    intros H; injection H as <-; simpl; now rewrite (IH es).
Qed.

Lemma number_of_snoc k entries c a :
  number_of k (entries ++ [(c, a)])
  = number_of k entries + (if str_eqb c k then 1 else 0).
Proof.
  unfold number_of; rewrite amounts_of_snoc, length_app.
  destruct (str_eqb c k); simpl; lia.
Qed.

Lemma sumZ_app l1 l2 : sumZ (l1 ++ l2) = sumZ l1 + sumZ l2.
Proof. unfold sumZ; induction l1; simpl; lia. Qed.

Lemma sumZ_map_add {A} (f g : A -> Z) l :
  sumZ (map (fun x => f x + g x) l) = sumZ (map f l) + sumZ (map g l).
Proof. unfold sumZ; induction l; simpl; lia. Qed.

Lemma sumZ_indicator c K :
  NoDup K ->
  sumZ (map (fun k => if str_eqb c k then 1 else 0) K)
  = if existsb (str_eqb c) K then 1 else 0.
Proof.
  unfold sumZ; induction 1 as [|k K Hk _ IH]; simpl; [reflexivity|].
  rewrite IH; destruct (str_eqb_spec c k) as [->|Hne]; simpl; [|reflexivity].
  destruct (existsb (str_eqb k) K) eqn:E; [|reflexivity].
  apply existsb_exists in E as (k' & Hin & Heq).
  destruct (str_eqb_spec k k') as [->|]; [tauto|discriminate].
Qed.

Lemma mentions_existsb c entries :
  existsb (str_eqb c) (currencies_in_order entries) = mentions c entries.
Proof.
  apply eq_true_iff_eq; rewrite existsb_exists; split.
  - intros (k & Hin & Heq).
    destruct (str_eqb_spec c k) as [<-|]; [|discriminate].
    now apply mentions_In, currencies_in_order_In.
  - intros H; exists c; split; [|apply str_eqb_refl].
    now apply currencies_in_order_In, mentions_In.
Qed.

Lemma numbers_add_up entries :
  sumZ (map (fun c => number_of c entries) (currencies_in_order entries))
  = Z.of_nat (List.length entries).
Proof.
  induction entries as [|[c a] es IH] using rev_ind; [reflexivity|].
  rewrite length_app, Nat2Z.inj_add; simpl List.length.
  rewrite (map_ext _ _ (fun k => number_of_snoc k es c a)), sumZ_map_add.
  rewrite currencies_in_order_snoc.
  pose proof (sumZ_indicator c (currencies_in_order es)
                (currencies_in_order_NoDup es)) as Hi.
  rewrite mentions_existsb in Hi.
  destruct (mentions c es) eqn:Hm.
  - rewrite IH, Hi; lia.
  - rewrite !map_app, !sumZ_app, IH, Hi; simpl map.
    rewrite str_eqb_refl.
    assert (H0 : number_of c es = 0).
    { unfold number_of; now rewrite (amounts_of_not_mentioned _ _ Hm). }
    rewrite H0; unfold sumZ; simpl; lia.
Qed.

(** X17. The breakdown counts every invoice exactly once: on a non-empty
    batch whose invoices carry a text currency and a numeric total, with a
    table of non-zero rates, the [count] entries of [currency_breakdown] add
    up to the number of invoices, each count is positive, and
    [currencies_detected] lists the keys of the breakdown without
    repetition. *)
Theorem breakdown_counts_add_up (rates : dict float) (invoices : list invoice)
    (entries : list (str * float)) :
  valid_rates rates = true ->
  invoices <> [] ->
  summary_entries invoices = Ok entries ->
  exists s breakdown,
    get_multi_currency_summary rates invoices = Ok s
    /\ get s K_currency_breakdown = Some (SBreakdown breakdown)
    /\ get s K_currencies_detected = Some (SCodes (keys breakdown))
    /\ NoDup (keys breakdown)
    /\ Forall (fun kb => 0 < count (snd kb)) breakdown
    /\ sumZ (map (fun kb => count (snd kb)) breakdown)
       = Z.of_nat (List.length invoices).
Proof.
  intros Hv Hne He.
  destruct invoices as [|inv rest]; [congruence|].
  unfold get_multi_currency_summary.
  rewrite (accumulate_spec _ _ He); cbn [bind].
  unfold totals_of at 1.
  destruct (sum_in_usd_totals rates
              (fun c => float_sum (amounts_of c entries))
              (currencies_in_order entries) 0%float Hv)
    as (converted & HF & ->); cbn [bind].
  eexists; eexists; split; [reflexivity|].
  pose proof (summary_fields
                (map (fun kt => (fst kt, round2 (snd kt))) (totals_of entries))
                (round2 (fold_left PrimFloat.add converted 0%float))
                (map (fun kb => (fst kb, with_average (snd kb))) (breakdown_of entries))
                (keys (totals_of entries))) as (_ & _ & F3 & F4).
  split; [exact F3|].
  assert (Kt : keys (totals_of entries) = currencies_in_order entries).
  { unfold keys, totals_of; rewrite map_map; simpl; apply map_id. }
  assert (Kb : keys (map (fun kb => (fst kb, with_average (snd kb)))
                       (breakdown_of entries))
               = currencies_in_order entries).
  { unfold keys, breakdown_of; rewrite !map_map; simpl; apply map_id. }
  split; [rewrite Kb, <- Kt; exact F4|].
  split; [rewrite Kb; apply currencies_in_order_NoDup|].
  split.
  - unfold breakdown_of; rewrite map_map, Forall_map; simpl.
    apply Forall_forall; intros c Hc; now apply number_of_positive.
  - unfold breakdown_of; rewrite !map_map; simpl.
    rewrite numbers_add_up, (summary_entries_length _ _ He); reflexivity.
Qed.

Lemma breakdown_counts_add_up_witness :
  exists s breakdown,
    get_multi_currency_summary EXCHANGE_RATES sample_batch = Ok s
    /\ get s K_currency_breakdown = Some (SBreakdown breakdown)
    /\ sumZ (map (fun kb => count (snd kb)) breakdown) = 3.
Proof.
  destruct (breakdown_counts_add_up EXCHANGE_RATES sample_batch
              [ (u "USD", 6000%float); (u "EUR", 100%float); (u "EUR", 50.555%float) ])
    as (s & breakdown & Hs & Hb & _ & _ & _ & Hn);
    [reflexivity|discriminate|reflexivity|].
  exists s, breakdown; auto.
Defined.

(** ** The summary of normalized records *)

Lemma Forall2_In_r {A B} (R : A -> B -> Prop) l l' y :
  Forall2 R l l' -> In y l' -> exists x, In x l /\ R x y.
Proof.
  induction 1 as [|a b l l' Hab _ IH]; simpl; [tauto|].
  intros [<-|Hin]; [exists a; auto|].
  destruct (IH Hin) as (x & Hx & Hr); exists x; auto.
Qed.

Lemma normalized_entries repr rates invoices :
  valid_rates rates = true ->
  normalized_batch repr rates invoices ->
  exists entries,
    summary_entries invoices = Ok entries
    /\ Forall2 (fun r e => get r K_currency = Some (VStr (fst e))
                           /\ mem EXCHANGE_RATES (fst e) = true)
         invoices entries.
Proof.
  intros Hv; induction 1 as [|r l [inv Hr] _ IH]; simpl.
  - exists []; split; [reflexivity|constructor].
  - destruct IH as (es & -> & HF).
    destruct (normalized_record _ _ _ _ Hv Hr) as [Hc Hn].
    destruct (numeric_as_number _ Hn) as [a Ha].
    unfold summary_entry, get_default at 1; rewrite Hc; cbn [as_key bind].
    rewrite Ha; cbn [bind].
    eexists; split; [reflexivity|].
    constructor; [|exact HF]; simpl; split; [exact Hc|apply detect_currency_has_rate].
Qed.

(** X18. The summary composes with normalization: on a non-empty batch of
    records that [normalize_currency_data] returned, with a table of non-zero
    rates, [get_multi_currency_summary] raises nothing; [currencies_detected]
    holds exactly the [currency] values of the records, each once, and every
    one of them has a rate in the baseline table. *)
Theorem summary_of_normalized_batch (repr : value -> str) (rates : dict float)
    (invoices : list invoice) :
  valid_rates rates = true ->
  invoices <> [] ->
  normalized_batch repr rates invoices ->
  exists s codes x,
    get_multi_currency_summary rates invoices = Ok s
    /\ get s K_currencies_detected = Some (SCodes codes)
    /\ get s K_total_in_usd = Some (SNum x)
    /\ NoDup codes
    /\ Forall (fun c => mem EXCHANGE_RATES c = true) codes
    /\ (forall c,
          In c codes
          <-> exists r, In r invoices /\ get r K_currency = Some (VStr c)).
Proof.
  intros Hv Hne Hb.
  destruct (normalized_entries repr rates invoices Hv Hb) as (entries & He & HF).
  destruct invoices as [|inv rest]; [congruence|].
  unfold get_multi_currency_summary.
  rewrite (accumulate_spec _ _ He); cbn [bind].
  unfold totals_of at 1.
  destruct (sum_in_usd_totals rates
              (fun c => float_sum (amounts_of c entries))
              (currencies_in_order entries) 0%float Hv)
    as (converted & _ & ->); cbn [bind].
  eexists; exists (currencies_in_order entries); eexists.
  split; [reflexivity|].
  pose proof (summary_fields
                (map (fun kt => (fst kt, round2 (snd kt))) (totals_of entries))
                (round2 (fold_left PrimFloat.add converted 0%float))
                (map (fun kb => (fst kb, with_average (snd kb))) (breakdown_of entries))
                (keys (totals_of entries))) as (_ & F2 & _ & F4).
  assert (Kt : keys (totals_of entries) = currencies_in_order entries).
  { unfold keys, totals_of; rewrite map_map; simpl; apply map_id. }
  split; [rewrite <- Kt; exact F4|].
  split; [exact F2|].
  split; [apply currencies_in_order_NoDup|].
  split.
  - apply Forall_forall; intros c Hc.
    apply currencies_in_order_In, in_map_iff in Hc as (e & <- & Hin).
    destruct (Forall2_In_r _ _ _ _ HF Hin) as (r & _ & _ & Hm); exact Hm.
  - intros c; rewrite currencies_in_order_In, in_map_iff; split.
    + intros (e & <- & Hin).
      destruct (Forall2_In_r _ _ _ _ HF Hin) as (r & Hr & Hc & _); eauto.
    + intros (r & Hr & Hc).
      destruct (Forall2_In_l _ _ _ _ HF Hr) as (e & Hin & Hc' & _).
      exists e; split; [congruence|exact Hin].
Qed.

Lemma summary_of_normalized_batch_witness :
  exists r s,
    normalize_currency_data no_repr EXCHANGE_RATES sample_invoice = Ok r
    /\ get_multi_currency_summary EXCHANGE_RATES [r; r] = Ok s
    /\ get s K_currencies_detected = Some (SCodes [u "USD"]).
Proof.
  destruct (normalize_currency_data no_repr EXCHANGE_RATES sample_invoice)
    as [r|] eqn:Hr; [|vm_compute in Hr; discriminate].
  destruct (summary_of_normalized_batch no_repr EXCHANGE_RATES [r; r] eq_refl)
    as (s & codes & x & Hs & Hc & _); [discriminate| |].
  { repeat constructor; eauto. }
  exists r, s; split; [reflexivity|]; split; [exact Hs|].
  vm_compute in Hr; injection Hr as <-.
  vm_compute in Hs; injection Hs as <-; reflexivity.
Defined.

(** ** One file, from the path to the flagged record *)

Lemma process_single_invoice_at_ok repr fot rates validate_pdf extract_text_from_pdf
    ask_model path r :
  _process_single_invoice_at repr fot rates validate_pdf extract_text_from_pdf
    ask_model path = Ok r ->
  validate_pdf path = true
  /\ exists text data d,
       extract_text_from_pdf path = Ok text
       /\ strip text <> []
       /\ ask_model text = Ok data
       /\ _parse_response repr fot data = Ok d
       /\ _process_single_invoice repr fot rates d = Ok r.
Proof.
  unfold _process_single_invoice_at, extract_invoice_data.
  destruct (validate_pdf path); cbn [negb]; [|discriminate].
  destruct (extract_text_from_pdf path) as [text|] eqn:Ex; cbn [bind]; [|discriminate].
  destruct (strip text) as [|ch rest] eqn:Es; [discriminate|].
  destruct (ask_model text) as [data|] eqn:Ea; cbn [bind]; [|discriminate].
  destruct (_parse_response repr fot data) as [d|] eqn:Ed; cbn [bind]; [|discriminate].
  intros Hr; split; [reflexivity|].
  exists text, data, d.
  split; [reflexivity|]; split; [rewrite Es; discriminate|].
  split; [exact Ea|]; split; [exact Ed|exact Hr].
Qed.



(** ** The batch, end to end *)

(** X20. [process_invoices] over the pipeline, with a table of non-zero
    rates: the only exception it raises is the [ValueError] of a batch in
    which every file failed. Otherwise it returns the records of the files
    that were processed, and a summary whose flagged count is the number of
    returned records with a USD-equivalent total strictly above 5000. *)
Theorem process_invoices_end_to_end (repr : value -> str)
    (float_of_text : str -> result float) (py_sum : list float -> float)
    (rates : dict float) (validate_pdf : str -> bool)
    (extract_text_from_pdf : str -> result str)
    (ask_model : str -> result (dict value))
    (error_message : str -> exn -> str) (paths : list str) :
  valid_rates rates = true ->
  (process_invoices float_of_text py_sum
     (_process_single_invoice_at repr float_of_text rates validate_pdf
        extract_text_from_pdf ask_model)
     error_message paths = Raise ValueError
   /\ forall path, In path paths ->
        exists e, _process_single_invoice_at repr float_of_text rates validate_pdf
                    extract_text_from_pdf ask_model path = Raise e)
  \/ (exists invoices summary,
        process_invoices float_of_text py_sum
          (_process_single_invoice_at repr float_of_text rates validate_pdf
             extract_text_from_pdf ask_model)
          error_message paths = Ok (invoices, summary)
        /\ invoices <> []
        /\ processed_batch repr float_of_text rates invoices
        /\ get summary K_total_invoices_processed
           = Some (RInt (Z.of_nat (List.length invoices)))
        /\ get summary K_flagged_invoices_count
           = Some (RInt (Z.of_nat
                           (List.length
                              (filter (above_threshold float_of_text) invoices))))).
Proof.
  intros Hv.
  set (pf := _process_single_invoice_at repr float_of_text rates validate_pdf
               extract_text_from_pdf ask_model).
  unfold process_invoices; rewrite process_files_spec; cbn [app].
  assert (Hp : processed_batch repr float_of_text rates (flat_map (succeeded pf) paths)).
  { apply Forall_forall; intros r Hin.
    apply in_flat_map in Hin as (path & _ & Hin).
    unfold succeeded in Hin.
    destruct (pf path) as [r'|] eqn:E; [|contradiction].
    destruct Hin as [<-|[]].
    destruct (process_single_invoice_at_ok _ _ _ _ _ _ _ _ E)
      as (_ & text & data & d & _ & _ & _ & _ & Hr).
    eauto. }
  destruct (flat_map (succeeded pf) paths) as [|inv invs] eqn:Es.
  - left; split; [reflexivity|].
    intros path Hin.
    destruct (pf path) as [r|e] eqn:E; [|eauto].
    assert (Hr : In r (flat_map (succeeded pf) paths)).
    { apply in_flat_map; exists path; split; [exact Hin|].
      unfold succeeded; rewrite E; now left. }
    rewrite Es in Hr; contradiction.
  - right.
    assert (Hn : Forall (fun r => numeric (get_default r K_total_amount (VNum 0%float))
                                  = true) (inv :: invs)).
    { eapply Forall_impl; [|exact Hp].
      intros r [i Hr]; exact (proj1 (proj2 (processed_record _ _ _ _ _ Hv Hr))). }
    destruct (total_amounts_numeric float_of_text _ Hn) as (amounts & Ha & _).
    assert (Hc : flagged_count (inv :: invs)
                 = Z.of_nat (List.length
                               (filter (above_threshold float_of_text) (inv :: invs)))).
    { unfold flagged_count; do 2 f_equal.
      apply filter_ext_in; intros r Hin.
      unfold processed_batch in Hp; rewrite Forall_forall in Hp.
      destruct (Hp r Hin) as [i Hr].
      destruct (processed_record _ _ _ _ _ Hv Hr) as (_ & _ & a & Hx & Hg).
      unfold above_threshold, get_default; rewrite Hx, Hg; reflexivity. }
    unfold get_summary_data; rewrite Ha; cbn [bind].
    eexists; eexists; split; [reflexivity|].
    split; [discriminate|]; split; [exact Hp|].
    split; [reflexivity|].
    rewrite <- Hc; reflexivity.
Qed.

Lemma process_invoices_end_to_end_witness :
  exists invoices summary,
    process_invoices no_float (fold_right PrimFloat.add 0%float)
      (_process_single_invoice_at no_repr no_float EXCHANGE_RATES
         (fun path => negb (str_eqb path (u "notes.txt")))
         (fun _ => Ok (u "Invoice INV-001")) (fun _ => Ok sample_invoice))
      (fun path _ => path) [u "notes.txt"; u "invoice.pdf"]
    = Ok (invoices, summary)
    /\ List.length invoices = 1%nat
    /\ get summary K_flagged_invoices_count = Some (RInt 1)
    /\ get summary K_errors = Some (RErrors [u "notes.txt"]).
Proof.
  destruct (process_invoices_end_to_end no_repr no_float
              (fold_right PrimFloat.add 0%float) EXCHANGE_RATES
              (fun path => negb (str_eqb path (u "notes.txt")))
              (fun _ => Ok (u "Invoice INV-001")) (fun _ => Ok sample_invoice)
              (fun path _ => path) [u "notes.txt"; u "invoice.pdf"] eq_refl)
    as [[H _]|(invoices & summary & H & _)].
  - vm_compute in H; discriminate.
  - exists invoices, summary; split; [exact H|].
    vm_compute in H; injection H as <- <-.
    repeat split.
Defined.
